(** * Ai-Mock: the interview flow, the answer recorder and the intake form

    A shallow embedding of the logic of three React components:

    - [QuestionSection]   (the interview flow controller),
    - [RecordAnswer]      (the answer recorder),
    - [FormMockInterview] (the intake form's AI request helpers).

    React state is a record, a handler is a function from the state its
    closure reads to the state after its setters ran, together with the
    effects it performed on the outside world (toasts, navigation, timers,
    document store).  External services are oracles whose outcome is an
    argument of the handler.

    Strings are [string]: sequences of 8-bit characters, read as ASCII
    text.  Case mapping and the white space class are those of ASCII; the
    Unicode tables of the platform are not modelled. *)

From Stdlib Require Import String Ascii List ZArith Lia Bool.
Import ListNotations.

#[local] Set Warnings "-register-all".

Open Scope string_scope.

(** ** The platform's string primitives *)

Module JS.

(** The class [\s] of regular expressions, on ASCII: TAB, LF, VT, FF, CR
    and the space. *)
Definition is_space (c : ascii) : bool :=
  let n := nat_of_ascii c in
  ((9 <=? n)%nat && (n <=? 13)%nat) || (n =? 32)%nat.

Definition lower_char (c : ascii) : ascii :=
  let n := nat_of_ascii c in
  if (65 <=? n)%nat && (n <=? 90)%nat then ascii_of_nat (n + 32) else c.

Definition upper_char (c : ascii) : ascii :=
  let n := nat_of_ascii c in
  if (97 <=? n)%nat && (n <=? 122)%nat then ascii_of_nat (n - 32) else c.

Fixpoint map_chars (f : ascii -> ascii) (s : string) : string :=
  match s with
  | EmptyString => EmptyString
  | String c r => String (f c) (map_chars f r)
  end.

(** [String.prototype.toLowerCase] and [toUpperCase] on ASCII text, where
    only the letters change. *)
Definition toLowerCase : string -> string := map_chars lower_char.
Definition toUpperCase : string -> string := map_chars upper_char.

Definition len (s : string) : Z := Z.of_nat (String.length s).

(** [s.slice(start, stop)]: a negative bound counts from the end, both
    bounds are clamped to the string, an empty span gives [""]. *)
Definition clamp (n : Z) (i : Z) : Z :=
  if (i <? 0)%Z then Z.max (n + i) 0 else Z.min i n.

Definition slice (s : string) (start stop : Z) : string :=
  let from := clamp (len s) start in
  let to := clamp (len s) stop in
  substring (Z.to_nat from) (Z.to_nat (Z.max (to - from) 0)) s.

(** [s.slice(start)]. *)
Definition slice_from (s : string) (start : Z) : string :=
  slice s start (len s).

(** [s.charAt(i)] for a non-negative [i]. *)
Definition charAt (s : string) (i : nat) : string := substring i 1 s.

(** [s.split(/\s+/)]: the pieces between maximal runs of white space; a
    run at either end leaves an empty piece there. [cur] is the piece
    being read, [in_run] tells that the previous character was white
    space. *)
Fixpoint split_ws_from (cur : string) (in_run : bool) (s : string)
  : list string :=
  match s with
  | EmptyString => [cur]
  | String c r =>
      if is_space c
      then if in_run then split_ws_from "" true r
           else cur :: split_ws_from "" true r
      else split_ws_from (cur ++ String c "") false r
  end.

Definition split_ws (s : string) : list string := split_ws_from "" false s.

(** The double quote, a text between double quotes, the line feed. *)
Definition dquote : ascii := "034"%char.

Definition quoted (s : string) : string :=
  String dquote (s ++ String dquote "").

Definition newline : string := String "010"%char "".

(** The character [c] occurs in [s]. *)
Definition has_char (c : ascii) (s : string) : Prop :=
  In c (list_ascii_of_string s).

(** [arr.includes(w)] on an array of strings. *)
Definition includes (arr : list string) (w : string) : bool :=
  existsb (String.eqb w) arr.

(** [arr[i]]: [undefined] ([None]) outside the array. *)
Definition index {A} (arr : list A) (i : Z) : option A :=
  if (i <? 0)%Z then None else nth_error arr (Z.to_nat i).

(** [s.trim()]: white space dropped at both ends. *)
Fixpoint trimStart (s : string) : string :=
  match s with
  | String c r => if is_space c then trimStart r else s
  | EmptyString => EmptyString
  end.

Fixpoint trimEnd (s : string) : string :=
  match s with
  | EmptyString => EmptyString
  | String c r =>
      match trimEnd r with
      | EmptyString => if is_space c then EmptyString else String c EmptyString
      | r' => String c r'
      end
  end.

Definition trim (s : string) : string := trimEnd (trimStart s).

(** [s.indexOf(c)] and [s.lastIndexOf(c)] for a one-character pattern:
    the position of the first (last) occurrence, [-1] when there is
    none. *)
Fixpoint indexOf (c : ascii) (s : string) : Z :=
  match s with
  | EmptyString => (-1)%Z
  | String d r =>
      if Ascii.eqb d c then 0%Z
      else let i := indexOf c r in
           if (i <? 0)%Z then (-1)%Z else (i + 1)%Z
  end.

Fixpoint lastIndexOf (c : ascii) (s : string) : Z :=
  match s with
  | EmptyString => (-1)%Z
  | String d r =>
      let i := lastIndexOf c r in
      if (0 <=? i)%Z then (i + 1)%Z
      else if Ascii.eqb d c then 0%Z else (-1)%Z
  end.

(** [s.includes(sub)] on strings. *)
Fixpoint str_includes (sub s : string) : bool :=
  String.prefix sub s ||
  match s with
  | EmptyString => false
  | String _ r => str_includes sub r
  end.

(** [s.replace(/(a1|a2|...)/g, "")] for literal alternatives: at every
    position, from left to right, the first alternative that matches
    there is dropped and the scan resumes after it; a character where
    none matches is kept.  [skip] counts the characters of the current
    match still to drop. *)
Definition first_match (alts : list string) (s : string) : option string :=
  find (fun a => String.prefix a s) alts.

Fixpoint remove_from (alts : list string) (skip : nat) (s : string)
  : string :=
  match s with
  | EmptyString => EmptyString
  | String c r =>
      match skip with
      | S k => remove_from alts k r
      | O =>
          match first_match alts s with
          | Some a => remove_from alts (String.length a - 1) r
          | None => String c (remove_from alts 0 r)
          end
      end
  end.

Definition remove_all (alts : list string) (s : string) : string :=
  remove_from alts 0 s.

End JS.

(** ** [JSON.parse]

    The grammar of JSON texts is read one character at a time by a
    push-down automaton: [mode] is the lexical position, the stack holds
    the arrays and objects that are still open.  A string value is a
    sequence of UTF-16 code units, since an escape [\uXXXX] denotes any of
    them.  A number keeps the exact decimal value of its literal; the
    rounding to a double is not modelled.  An object keeps its members in
    the order of their first occurrence, a repeated key overwrites. *)

Module JSON.

Definition jstr := list N.

Definition units (s : string) : jstr :=
  map N_of_ascii (list_ascii_of_string s).

(** [negative], [digits] and [exponent] stand for
    [(-1)^negative * digits * 10^exponent]. *)
Record number := mkNumber { negative : bool; digits : N; exponent : Z }.

Inductive value :=
| JNull
| JBool (b : bool)
| JNumber (n : number)
| JString (s : jstr)
| JArray (items : list value)
| JObject (members : list (jstr * value)).

Definition jstr_eqb (a b : jstr) : bool :=
  if list_eq_dec N.eq_dec a b then true else false.

Fixpoint obj_set (k : jstr) (v : value) (ms : list (jstr * value))
  : list (jstr * value) :=
  match ms with
  | [] => [(k, v)]
  | (k', v') :: r =>
      if jstr_eqb k' k then (k', v) :: r else (k', v') :: obj_set k v r
  end.

Fixpoint obj_get (k : jstr) (ms : list (jstr * value)) : option value :=
  match ms with
  | [] => None
  | (k', v') :: r => if jstr_eqb k' k then Some v' else obj_get k r
  end.

(** [v[k]] for a parsed value: [undefined] ([None]) when [v] is not an
    object or has no such member. *)
Definition get (v : value) (k : string) : option value :=
  match v with
  | JObject ms => obj_get (units k) ms
  | _ => None
  end.

(** An open container: an array with the items read so far (last
    first), or an object with its members and the key whose value is
    being read. *)
Inductive frame :=
| FArr (acc : list value)
| FObj (members : list (jstr * value)) (key : option jstr).

Inductive numstate :=
| NMinus | NZero | NInt | NDot | NFrac | NExp | NExpSign | NExpDigits.

Record numacc := mkNumacc
  { n_neg : bool; n_digits : N; n_frac : N; n_eneg : bool; n_exp : N }.

Inductive mode :=
| MValue                       (* a value must follow *)
| MArrStart                    (* after [: a value or ] *)
| MObjStart                    (* after {: a key or } *)
| MKey                         (* after a comma in an object: a key *)
| MColon                       (* after a key: the colon *)
| MAfter                       (* after a value inside a container *)
| MEnd (v : value)             (* after the value of the text *)
| MStr (iskey : bool) (acc : jstr)
| MEsc (iskey : bool) (acc : jstr)
| MHex (iskey : bool) (acc : jstr) (todo : nat) (v : N)
| MLit (rest : string) (v : value)
| MNum (st : numstate) (a : numacc).

Definition pstate : Type := mode * list frame.

(** JSON white space: TAB, LF, CR and the space. *)
Definition is_ws (c : ascii) : bool :=
  let n := nat_of_ascii c in
  (n =? 9)%nat || (n =? 10)%nat || (n =? 13)%nat || (n =? 32)%nat.

Definition digit_of (c : ascii) : option N :=
  let n := N_of_ascii c in
  if (48 <=? n)%N && (n <=? 57)%N then Some (n - 48)%N else None.

Definition hex_of (c : ascii) : option N :=
  let n := N_of_ascii c in
  if (48 <=? n)%N && (n <=? 57)%N then Some (n - 48)%N
  else if (97 <=? n)%N && (n <=? 102)%N then Some (n - 87)%N
  else if (65 <=? n)%N && (n <=? 70)%N then Some (n - 55)%N
  else None.

(** A finished value goes to the innermost open container, or ends the
    text. *)
Definition deliver (v : value) (stack : list frame) : option pstate :=
  match stack with
  | [] => Some (MEnd v, [])
  | FArr acc :: st => Some (MAfter, FArr (v :: acc) :: st)
  | FObj ms (Some k) :: st => Some (MAfter, FObj (obj_set k v ms) None :: st)
  | FObj _ None :: _ => None
  end.

Definition number_of (a : numacc) : value :=
  JNumber (mkNumber (n_neg a) (n_digits a)
             ((if n_eneg a then - Z.of_N (n_exp a) else Z.of_N (n_exp a))
              - Z.of_N (n_frac a))%Z).

(** What may follow a value. *)
Definition step_after (m : mode) (stack : list frame) (c : ascii)
  : option pstate :=
  if is_ws c then Some (m, stack)
  else
    match m with
    | MAfter =>
        match c, stack with
        | ","%char, FArr _ :: _ => Some (MValue, stack)
        | ","%char, FObj _ None :: _ => Some (MKey, stack)
        | "]"%char, FArr acc :: st => deliver (JArray (rev acc)) st
        | "}"%char, FObj ms None :: st => deliver (JObject ms) st
        | _, _ => None
        end
    | _ => None
    end.

Definition start_value (stack : list frame) (c : ascii) : option pstate :=
  match c with
  | "["%char => Some (MArrStart, FArr [] :: stack)
  | "{"%char => Some (MObjStart, FObj [] None :: stack)
  | "034"%char => Some (MStr false [], stack)
  | "-"%char => Some (MNum NMinus (mkNumacc true 0 0 false 0), stack)
  | "0"%char => Some (MNum NZero (mkNumacc false 0 0 false 0), stack)
  | "t"%char => Some (MLit "rue" (JBool true), stack)
  | "f"%char => Some (MLit "alse" (JBool false), stack)
  | "n"%char => Some (MLit "ull" JNull, stack)
  | _ =>
      match digit_of c with
      | Some d => Some (MNum NInt (mkNumacc false d 0 false 0), stack)
      | None => None
      end
  end.

Definition is_e (c : ascii) : bool :=
  Ascii.eqb c "e" || Ascii.eqb c "E".

Definition add_digit (a : numacc) (d : N) : numacc :=
  mkNumacc (n_neg a) (10 * n_digits a + d) (n_frac a) (n_eneg a) (n_exp a).

Definition add_frac (a : numacc) (d : N) : numacc :=
  mkNumacc (n_neg a) (10 * n_digits a + d) (n_frac a + 1) (n_eneg a)
    (n_exp a).

Definition add_exp (a : numacc) (d : N) : numacc :=
  mkNumacc (n_neg a) (n_digits a) (n_frac a) (n_eneg a) (10 * n_exp a + d).

Definition set_eneg (a : numacc) (b : bool) : numacc :=
  mkNumacc (n_neg a) (n_digits a) (n_frac a) b (n_exp a).

(** The literal is complete: [c] is read after it. *)
Definition end_number (a : numacc) (stack : list frame) (c : ascii)
  : option pstate :=
  match deliver (number_of a) stack with
  | Some (m, st) => step_after m st c
  | None => None
  end.

Definition step_number (st : numstate) (a : numacc) (stack : list frame)
  (c : ascii) : option pstate :=
  match st, digit_of c with
  | NMinus, Some d =>
      Some (MNum (if (d =? 0)%N then NZero else NInt) (add_digit a d), stack)
  | NMinus, None => None
  | NZero, _ =>
      if Ascii.eqb c "." then Some (MNum NDot a, stack)
      else if is_e c then Some (MNum NExp a, stack)
      else end_number a stack c
  | NInt, Some d => Some (MNum NInt (add_digit a d), stack)
  | NInt, None =>
      if Ascii.eqb c "." then Some (MNum NDot a, stack)
      else if is_e c then Some (MNum NExp a, stack)
      else end_number a stack c
  | NDot, Some d => Some (MNum NFrac (add_frac a d), stack)
  | NDot, None => None
  | NFrac, Some d => Some (MNum NFrac (add_frac a d), stack)
  | NFrac, None =>
      if is_e c then Some (MNum NExp a, stack) else end_number a stack c
  | NExp, Some d => Some (MNum NExpDigits (add_exp a d), stack)
  | NExp, None =>
      if Ascii.eqb c "+" then Some (MNum NExpSign a, stack)
      else if Ascii.eqb c "-" then Some (MNum NExpSign (set_eneg a true), stack)
      else None
  | NExpSign, Some d => Some (MNum NExpDigits (add_exp a d), stack)
  | NExpSign, None => None
  | NExpDigits, Some d => Some (MNum NExpDigits (add_exp a d), stack)
  | NExpDigits, None => end_number a stack c
  end.

(** The closing quote of a string: a key waits for its colon, a value
    is delivered. *)
Definition end_string (iskey : bool) (acc : jstr) (stack : list frame)
  : option pstate :=
  if iskey then
    match stack with
    | FObj ms None :: st => Some (MColon, FObj ms (Some acc) :: st)
    | _ => None
    end
  else deliver (JString acc) stack.

Definition escape_of (c : ascii) : option N :=
  match c with
  | "034"%char => Some 34%N
  | "\"%char => Some 92%N
  | "/"%char => Some 47%N
  | "b"%char => Some 8%N
  | "f"%char => Some 12%N
  | "n"%char => Some 10%N
  | "r"%char => Some 13%N
  | "t"%char => Some 9%N
  | _ => None
  end.

Definition step (s : pstate) (c : ascii) : option pstate :=
  let '(m, stack) := s in
  match m with
  | MValue =>
      if is_ws c then Some s else start_value stack c
  | MArrStart =>
      if is_ws c then Some s
      else if Ascii.eqb c "]" then
        match stack with
        | FArr acc :: st => deliver (JArray (rev acc)) st
        | _ => None
        end
      else start_value stack c
  | MObjStart =>
      if is_ws c then Some s
      else if Ascii.eqb c "}" then
        match stack with
        | FObj ms None :: st => deliver (JObject ms) st
        | _ => None
        end
      else if Ascii.eqb c "034" then Some (MStr true [], stack)
      else None
  | MKey =>
      if is_ws c then Some s
      else if Ascii.eqb c "034" then Some (MStr true [], stack)
      else None
  | MColon =>
      if is_ws c then Some s
      else if Ascii.eqb c ":" then Some (MValue, stack)
      else None
  | MAfter | MEnd _ => step_after m stack c
  | MStr iskey acc =>
      if Ascii.eqb c "034" then end_string iskey acc stack
      else if Ascii.eqb c "\" then Some (MEsc iskey acc, stack)
      else if (N_of_ascii c <? 32)%N then None
      else Some (MStr iskey (acc ++ [N_of_ascii c])%list, stack)
  | MEsc iskey acc =>
      if Ascii.eqb c "u" then Some (MHex iskey acc 4 0%N, stack)
      else
        match escape_of c with
        | Some u => Some (MStr iskey (acc ++ [u])%list, stack)
        | None => None
        end
  | MHex iskey acc todo v =>
      match hex_of c with
      | Some d =>
          let v' := (16 * v + d)%N in
          match todo with
          | S (S k) => Some (MHex iskey acc (S k) v', stack)
          | _ => Some (MStr iskey (acc ++ [v'])%list, stack)
          end
      | None => None
      end
  | MLit rest v =>
      match rest with
      | String d EmptyString =>
          if Ascii.eqb c d then deliver v stack else None
      | String d rest' =>
          if Ascii.eqb c d then Some (MLit rest' v, stack) else None
      | EmptyString => None
      end
  | MNum st a => step_number st a stack c
  end.

Fixpoint run (s : pstate) (text : string) : option pstate :=
  match text with
  | EmptyString => Some s
  | String c r =>
      match step s c with
      | Some s' => run s' r
      | None => None
      end
  end.

(** The end of the text: the value must be complete and no container
    open; a number may end here. *)
Definition finish (s : pstate) : option value :=
  match s with
  | (MEnd v, []) => Some v
  | (MNum (NZero | NInt | NFrac | NExpDigits) a, []) => Some (number_of a)
  | _ => None
  end.

(** [JSON.parse(text)]: [None] stands for the [SyntaxError] it throws. *)
Definition parse (text : string) : option value :=
  match run (MValue, []) text with
  | Some s => finish s
  | None => None
  end.

End JSON.

(** ** Shared data and the AI chat session *)

(** A question with its reference answer. *)
Record QA := mkQA { question : string; answer : string }.

Module ChatSession.

(** What a [catch] clause receives: an [Error] object with its message,
    or any other thrown value. *)
Inductive Thrown :=
| ErrorObject (message : string)
| NotAnError.

(** The outcome of [await chatSession.sendMessage(prompt)] followed by
    [response.text()]: the text of the reply, or the value thrown. *)
Inductive Reply :=
| Responded (text : string)
| Failed (e : Thrown).

End ChatSession.

(** ** The interview flow controller *)

Module QuestionSection.

Definition fallbackPrompt : string := "Can you explain that in more detail?".

Definition stopWords : list string :=
  [ "is"; "am"; "are"; "was"; "were"; "the"; "a"; "an"; "and"; "or"; "to";
    "of"; "in"; "on"; "for"; "with"; "this"; "that"; "it"; "as"; "by";
    "from" ].

(** The predicate of the [filter] call. *)
Definition isKeyword (word : string) : bool :=
  (2 <? JS.len word)%Z && negb (JS.includes stopWords word).

(** [generateCrossQuestion] on an answer of ASCII characters;
    [CodeUnits.generateCrossQuestion] below has it on any text. *)
Definition generateCrossQuestion (answer : string) : string :=
  if String.eqb answer "" then fallbackPrompt
  else
    let words := JS.split_ws (JS.toLowerCase answer) in
    let keywords := filter isKeyword words in
    match JS.index keywords (Z.of_nat (List.length keywords) - 1) with
    | None => fallbackPrompt
    | Some keyword =>
        if String.eqb keyword "" then fallbackPrompt
        else
          let formattedKeyword :=
            JS.toUpperCase (JS.charAt keyword 0) ++ JS.slice_from keyword 1 in
          "What is " ++ formattedKeyword ++ "?"
    end.


(** One confirmed answer of the transcript. *)
Record Answer := mkAnswer
  { a_question : string; a_answer : string; a_correct : string }.

(** The component's state variables. *)
Record State := mkState
  { isPlaying : bool;
    activeIndex : Z;
    showQuestion : bool;
    allAnswers : list Answer;
    isCrossQuestion : bool;
    crossQuestionText : string;
    tempMainAnswer : string }.

Definition initial : State := mkState false 0 false [] false "" "".

Inductive Effect :=
| SpeechCancel
| Navigate (path : string) (answers : list Answer) (questions : list QA).

(** A handler returns with the state its setters leave and the effects
    it performed, or throws a [TypeError] on reading a property of
    [undefined]. *)
Inductive Outcome :=
| Returns (s : State) (fx : list Effect)
| TypeError.

(** [handleNextQuestion] in a window that has [speechSynthesis], where
    the [cancel()] of its first statement succeeds;
    [FlowState.handleNextQuestionIn] covers a window without it. *)
Definition handleNextQuestion (questions : list QA) (s : State)
  (ans : string) : Outcome :=
  if negb (isCrossQuestion s) then
    let crossQ := generateCrossQuestion ans in
    Returns
      (mkState (isPlaying s) (activeIndex s) false (allAnswers s)
         true crossQ ans)
      [SpeechCancel]
  else
    match JS.index questions (activeIndex s) with
    | None => TypeError
    | Some q =>
        let currentAnswer :=
          mkAnswer (question q)
            (tempMainAnswer s ++ " | Follow-up: " ++ ans)
            (answer q) in
        let updatedAnswers := (allAnswers s ++ [currentAnswer])%list in
        if (activeIndex s <? Z.of_nat (List.length questions) - 1)%Z then
          Returns
            (mkState (isPlaying s) (activeIndex s + 1) false updatedAnswers
               false "" "")
            [SpeechCancel]
        else
          Returns
            (mkState (isPlaying s) (activeIndex s) false updatedAnswers
               false "" "")
            [SpeechCancel;
             Navigate "/generate/feedback/demo" updatedAnswers questions]
    end.

(** The recorder calls [onSubmit] once per confirmed answer: the handler
    runs on each submission in turn, from the state the previous one
    left.  The result lists, per submission, the state reached and the
    effects performed; [None] when a call throws. *)
Fixpoint drive (questions : list QA) (s : State) (subs : list string)
  : option (list (State * list Effect)) :=
  match subs with
  | [] => Some []
  | ans :: rest =>
      match handleNextQuestion questions s ans with
      | TypeError => None
      | Returns s' fx =>
          match drive questions s' rest with
          | Some steps => Some ((s', fx) :: steps)
          | None => None
          end
      end
  end.

(** A candidate's answers: the main answer and the follow-up answer of
    each question, submitted alternately. *)
Definition submissions (answers : list (string * string)) : list string :=
  flat_map (fun p => [fst p; snd p]) answers.

(** The words of the statements below: capitalising a word, and the
    transcript expected when every question got a main and a follow-up
    answer. *)
Definition capitalize (w : string) : string :=
  match w with
  | EmptyString => EmptyString
  | String c r => String (JS.upper_char c) r
  end.

Definition record_of (q : QA) (a : string * string) : Answer :=
  mkAnswer (question q) (fst a ++ " | Follow-up: " ++ snd a) (answer q).

Fixpoint records (qs : list QA) (answers : list (string * string))
  : list Answer :=
  match qs, answers with
  | q :: qs', a :: answers' => record_of q a :: records qs' answers'
  | _, _ => []
  end.

Definition feedbackPath : string := "/generate/feedback/demo".

(** What the two submissions for the question at position [i] leave
    behind, in a run whose steps are [steps]: [before] is the transcript
    when the question is reached, [after] the one once it is answered,
    [final] the effects expected of the second submission. *)
Definition question_cycle (steps : list (State * list Effect)) (i : nat)
  (index : Z) (main : string) (before after : list Answer)
  (final : list Effect) : Prop :=
  exists s1 s2,
    nth_error steps (2 * i) = Some (s1, [SpeechCancel])
    /\ nth_error steps (2 * i + 1) = Some (s2, final)
    /\ isCrossQuestion s1 = true
    /\ activeIndex s1 = index
    /\ crossQuestionText s1 = generateCrossQuestion main
    /\ allAnswers s1 = before
    /\ isCrossQuestion s2 = false
    /\ allAnswers s2 = after.

End QuestionSection.

(** ** The cross-question on any text

    A JavaScript string is a sequence of UTF-16 code units: [length],
    [charAt], [slice], [includes] and the class [\s] go by code units,
    while the case mappings are those of Unicode.  [generateCrossQuestion]
    is taken here on such sequences, with the case mappings of the
    platform as parameters. *)

Module CodeUnits.

(** A text as JavaScript holds it: the sequence of its UTF-16 code
    units. *)
Definition text : Type := list N.

Definition of_string (s : string) : text :=
  map N_of_ascii (list_ascii_of_string s).

(** The class [\s] of a regular expression without the [u] flag: TAB,
    LF, VT, FF, CR, the space, the no-break space, U+1680, U+2000 to
    U+200A, the line and paragraph separators, U+202F, U+205F, U+3000
    and U+FEFF. *)
Definition is_space (u : N) : bool :=
  (((9 <=? u) && (u <=? 13)) || (u =? 32) || (u =? 160) || (u =? 5760)
   || ((8192 <=? u) && (u <=? 8202)) || (u =? 8232) || (u =? 8233)
   || (u =? 8239) || (u =? 8287) || (u =? 12288) || (u =? 65279))%N.

(** [s.split(/\s+/)], as [JS.split_ws_from] has it. *)
Fixpoint split_ws_from (cur : text) (in_run : bool) (s : text)
  : list text :=
  match s with
  | [] => [cur]
  | u :: r =>
      if is_space u
      then if in_run then split_ws_from [] true r
           else cur :: split_ws_from [] true r
      else split_ws_from (cur ++ [u])%list false r
  end.

Definition split_ws (s : text) : list text := split_ws_from [] false s.

(** Two strings are the same value when their code units are. *)
Fixpoint text_eqb (a b : text) : bool :=
  match a, b with
  | [], [] => true
  | x :: a', y :: b' => (x =? y)%N && text_eqb a' b'
  | _, _ => false
  end.

Definition includes (arr : list text) (w : text) : bool :=
  existsb (text_eqb w) arr.

(** [s.charAt(i)] and [s.slice(i)] for a non-negative [i]. *)
Definition charAt (s : text) (i : nat) : text := firstn 1 (skipn i s).
Definition slice_from (s : text) (i : nat) : text := skipn i s.

Definition fallbackPrompt : text :=
  of_string QuestionSection.fallbackPrompt.

Definition stopWords : list text :=
  map of_string QuestionSection.stopWords.

Definition isKeyword (word : text) : bool :=
  (2 <? Z.of_nat (List.length word))%Z && negb (includes stopWords word).

Section Platform.

(** [String.prototype.toLowerCase] and [toUpperCase]: the case mappings
    of Unicode as the platform has them.  They work on code points and
    may change the number of code units. *)
Variable toLowerCase : text -> text.
Variable toUpperCase : text -> text.

Definition generateCrossQuestion (answer : text) : text :=
  match answer with
  | [] => fallbackPrompt
  | _ =>
      let words := split_ws (toLowerCase answer) in
      let keywords := filter isKeyword words in
      match JS.index keywords (Z.of_nat (List.length keywords) - 1) with
      | None | Some [] => fallbackPrompt
      | Some keyword =>
          let formattedKeyword :=
            (toUpperCase (charAt keyword 0) ++ slice_from keyword 1)%list in
          (of_string "What is " ++ formattedKeyword ++ of_string "?")%list
      end
  end.

End Platform.

(** The case mappings on ASCII: only the letters change. *)
Definition lower_unit (u : N) : N :=
  if ((65 <=? u) && (u <=? 90))%N then (u + 32)%N else u.

Definition upper_unit (u : N) : N :=
  if ((97 <=? u) && (u <=? 122))%N then (u - 32)%N else u.

Definition is_ascii (t : text) : bool := forallb (fun u => (u <? 128)%N) t.

(** What is used of the platform: on a text of ASCII characters its
    case mappings are those of the letters. *)
Definition ascii_case (toLowerCase toUpperCase : text -> text) : Prop :=
  (forall t, is_ascii t = true -> toLowerCase t = map lower_unit t)
  /\ (forall t, is_ascii t = true -> toUpperCase t = map upper_unit t).

(** The word with its first code unit in upper case. *)
Definition capitalize (toUpperCase : text -> text) (w : text) : text :=
  (toUpperCase (firstn 1 w) ++ skipn 1 w)%list.

(** The case mappings of Unicode on the code units below 256, the other
    code units left as they are: a platform for the examples. *)
Definition latin1_lower (u : N) : N :=
  if (((65 <=? u) && (u <=? 90))
      || ((192 <=? u) && (u <=? 222) && negb (u =? 215)))%N
  then (u + 32)%N else u.

Definition latin1_upper (u : N) : text :=
  if (((97 <=? u) && (u <=? 122))
      || ((224 <=? u) && (u <=? 254) && negb (u =? 247)))%N
  then [(u - 32)%N]
  else if (u =? 223)%N then [83; 83]%N
  else if (u =? 181)%N then [924%N]
  else if (u =? 255)%N then [376%N]
  else [u].

Definition latin1_toLowerCase (t : text) : text := map latin1_lower t.
Definition latin1_toUpperCase (t : text) : text := flat_map latin1_upper t.

(** The code units of "école". *)
Definition ecole : text := [233; 99; 111; 108; 101]%N.

End CodeUnits.

(** ** The answer recorder *)

Module RecordAnswer.
Import ChatSession.

Definition MIN_RECORD_TIME : Z := 30.

Record Props := mkProps
  { p_question : QA;
    questions : list QA;
    currentIndex : Z;
    totalQuestions : Z;
    interviewId : option string;
    userId : option string }.

Definition isLastQuestion (p : Props) : bool :=
  (currentIndex p =? totalQuestions p - 1)%Z.

(** The state variables, the timer ref and the [isRecording] flag of the
    speech-to-text hook. *)
Record State := mkState
  { userAnswer : string;
    allAnswers : list string;
    isAiGenerating : bool;
    aiResult : option JSON.value;
    open : bool;
    loading : bool;
    recordingTime : Z;
    timerRef : option nat;
    isRecording : bool }.

Definition initial : State :=
  mkState "" [] false None false false 0 None false.

Inductive Toast :=
| ToastError (msg : string)
| ToastSuccess (msg : string).

(** A document of the [userAnswers] collection (the two server time
    stamps are left out). *)
Record Doc := mkDoc
  { mockIdRef : option string;
    d_question : string;
    correct_ans : string;
    user_ans : string;
    overall_feedback : JSON.value;
    overall_rating : JSON.value;
    d_userId : option string }.

(** What the component acts on: the interval timers that are running
    (ids are positive, as [setInterval] gives them), the documents
    stored, the toasts shown and the [onSubmit] calls scheduled. *)
Record World := mkWorld
  { timers : list nat;
    nextTimer : nat;
    docs : list Doc;
    toasts : list Toast;
    submitted : list string }.

Definition world0 : World := mkWorld [] 1 [] [] [].

Definition toast (t : Toast) (w : World) : World :=
  mkWorld (timers w) (nextTimer w) (docs w) (toasts w ++ [t]) (submitted w).

Definition setInterval (w : World) : nat * World :=
  (nextTimer w,
   mkWorld (timers w ++ [nextTimer w]) (S (nextTimer w)) (docs w) (toasts w)
     (submitted w)).

Definition clearInterval (id : nat) (w : World) : World :=
  mkWorld (filter (fun t => negb (t =? id)%nat) (timers w)) (nextTimer w)
    (docs w) (toasts w) (submitted w).

Definition addDoc (d : Doc) (w : World) : World :=
  mkWorld (timers w) (nextTimer w) (docs w ++ [d]) (toasts w) (submitted w).

Definition scheduleSubmit (a : string) (w : World) : World :=
  mkWorld (timers w) (nextTimer w) (docs w) (toasts w) (submitted w ++ [a]).

Definition set_userAnswer (v : string) (s : State) : State :=
  mkState v (allAnswers s) (isAiGenerating s) (aiResult s) (open s)
    (loading s) (recordingTime s) (timerRef s) (isRecording s).
Definition set_allAnswers (v : list string) (s : State) : State :=
  mkState (userAnswer s) v (isAiGenerating s) (aiResult s) (open s)
    (loading s) (recordingTime s) (timerRef s) (isRecording s).
Definition set_isAiGenerating (v : bool) (s : State) : State :=
  mkState (userAnswer s) (allAnswers s) v (aiResult s) (open s)
    (loading s) (recordingTime s) (timerRef s) (isRecording s).
Definition set_aiResult (v : option JSON.value) (s : State) : State :=
  mkState (userAnswer s) (allAnswers s) (isAiGenerating s) v (open s)
    (loading s) (recordingTime s) (timerRef s) (isRecording s).
Definition set_open (v : bool) (s : State) : State :=
  mkState (userAnswer s) (allAnswers s) (isAiGenerating s) (aiResult s) v
    (loading s) (recordingTime s) (timerRef s) (isRecording s).
Definition set_loading (v : bool) (s : State) : State :=
  mkState (userAnswer s) (allAnswers s) (isAiGenerating s) (aiResult s)
    (open s) v (recordingTime s) (timerRef s) (isRecording s).
Definition set_recordingTime (v : Z) (s : State) : State :=
  mkState (userAnswer s) (allAnswers s) (isAiGenerating s) (aiResult s)
    (open s) (loading s) v (timerRef s) (isRecording s).
Definition set_timerRef (v : option nat) (s : State) : State :=
  mkState (userAnswer s) (allAnswers s) (isAiGenerating s) (aiResult s)
    (open s) (loading s) (recordingTime s) v (isRecording s).
Definition set_isRecording (v : bool) (s : State) : State :=
  mkState (userAnswer s) (allAnswers s) (isAiGenerating s) (aiResult s)
    (open s) (loading s) (recordingTime s) (timerRef s) v.

(** The value returned when the evaluation fails. *)
Definition fallbackResult : JSON.value :=
  JSON.JObject
    [ (JSON.units "ratings", JSON.JNumber (JSON.mkNumber false 0 0));
      (JSON.units "feedback",
       JSON.JString (JSON.units "Unable to generate feedback")) ].

(** [.replace(/(json|```|`)/g, "").trim()] *)
Definition markup : list string := ["json"; "```"; "`"].

Definition cleanText (text : string) : string :=
  JS.trim (JS.remove_all markup text).

(** [generateOverallResult]: [reply] is the outcome of the request sent
    with the prompt built from all questions and answers.  The function
    returns in every case; [isAiGenerating] is set while it runs and
    reset by the [finally] clause. *)
Definition generateOverallResult (reply : Reply) (s : State) (w : World)
  : JSON.value * State * World :=
  let s1 := set_isAiGenerating true s in
  let failed :=
    (fallbackResult, set_isAiGenerating false s1,
     toast (ToastError "Error generating overall feedback") w) in
  match reply with
  | Responded text =>
      match JSON.parse (cleanText text) with
      | Some v => (v, set_isAiGenerating false s1, w)
      | None => failed
      end
  | Failed _ => failed
  end.

(** [if (timerRef.current) { clearInterval(...); timerRef.current = null }] *)
Definition stopTimer (s : State) (w : World) : State * World :=
  match timerRef s with
  | Some id =>
      if (id =? 0)%nat then (s, w)
      else (set_timerRef None s, clearInterval id w)
  | None => (s, w)
  end.

(** [recordUserAnswer]: the handler of both the record button and the
    record-again button.  Reads use the state [s] of the render the
    handler closes over. *)
Definition recordUserAnswer (p : Props) (reply : Reply) (s : State)
  (w : World) : State * World :=
  if isRecording s then
    let s1 := set_isRecording false s in
    let s1 :=
      set_userAnswer (JS.trim (JS.remove_all ["undefined"] (userAnswer s1)))
        s1 in
    let '(s1, w1) := stopTimer s1 w in
    if (recordingTime s <? MIN_RECORD_TIME)%Z then
      (s1, toast (ToastError "Minimum 30 seconds recording required") w1)
    else if (JS.len (JS.trim (userAnswer s)) <? 30)%Z then
      (s1,
       toast (ToastError "Your answer should be more than 30 characters") w1)
    else
      let updatedAnswers := (allAnswers s ++ [userAnswer s])%list in
      let s2 := set_allAnswers updatedAnswers s1 in
      if isLastQuestion p then
        let '(result, s3, w3) := generateOverallResult reply s2 w1 in
        (set_aiResult (Some result) s3, w3)
      else (s2, toast (ToastSuccess "Answer recorded") w1)
  else
    let s1 := set_recordingTime 0 (set_userAnswer "" s) in
    let s1 := set_isRecording true s1 in
    let '(id, w1) := setInterval w in
    (set_timerRef (Some id) s1, w1).

(** The callback of the interval timer [id]; it runs only while that
    timer is active. *)
Definition tick (id : nat) (s : State) (w : World) : State * World :=
  if existsb (Nat.eqb id) (timers w)
  then (set_recordingTime (recordingTime s + 1) s, w)
  else (s, w).

(** The effect that combines the finalised transcript and the interim
    result into [userAnswer]. *)
Definition combineSpeech (transcripts : list string) (interimResult : string)
  : string :=
  let transcript := String.concat " " transcripts in
  let kept :=
    filter (fun text => negb (String.eqb text "")
                        && negb (String.eqb text "undefined"))
      [transcript; interimResult] in
  JS.trim (JS.remove_all ["undefined"] (String.concat " " kept)).

Definition onSpeech (transcripts : list string) (interimResult : string)
  (s : State) : State :=
  set_userAnswer (combineSpeech transcripts interimResult) s.

(** The number [JSON.parse] returns for a literal is the double nearest
    to its value, and that double is zero exactly when the value is at
    most [2^-1075], half the least positive double. *)
Definition rounds_to_zero (n : JSON.number) : bool :=
  if (JSON.digits n =? 0)%N then true
  else if (0 <=? JSON.exponent n)%Z then false
  else (Z.of_N (JSON.digits n) * 2 ^ 1075 <=? 10 ^ (- JSON.exponent n))%Z.

(** The values that count as true in a condition. *)
Definition truthy (v : JSON.value) : bool :=
  match v with
  | JSON.JNull => false
  | JSON.JBool b => b
  | JSON.JNumber n => negb (rounds_to_zero n)
  | JSON.JString u => match u with [] => false | _ => true end
  | JSON.JArray _ | JSON.JObject _ => true
  end.

(** [aiResult?.field || dflt] *)
Definition fieldOr (r : option JSON.value) (field : string)
  (dflt : JSON.value) : JSON.value :=
  match r with
  | Some obj =>
      match JSON.get obj field with
      | Some v => if truthy v then v else dflt
      | None => dflt
      end
  | None => dflt
  end.

(** [saveUserAnswer]: [stored] tells whether the document store accepts
    the document. *)
Definition saveUserAnswer (p : Props) (stored : bool) (s : State)
  (w : World) : State * World :=
  if (recordingTime s <? MIN_RECORD_TIME)%Z then
    (s, toast (ToastError "Complete minimum recording first") w)
  else
    let s1 := set_loading true s in
    if stored then
      let d :=
        mkDoc (interviewId p) (question (p_question p))
          (answer (p_question p)) (userAnswer s)
          (fieldOr (aiResult s) "feedback" (JSON.JString []))
          (fieldOr (aiResult s) "ratings"
             (JSON.JNumber (JSON.mkNumber false 0 0)))
          (userId p) in
      let w1 := toast (ToastSuccess "Answer saved") (addDoc d w) in
      let s2 := set_recordingTime 0 (set_userAnswer "" s1) in
      let s2 := set_isRecording false s2 in
      let s2 := set_open false s2 in
      (set_loading false s2, scheduleSubmit (userAnswer s) w1)
    else
      (set_loading false s1, toast (ToastError "Error saving answer") w).

(** The clean-up of the mount effect. *)
Definition unmount (s : State) (w : World) : World :=
  match timerRef s with
  | Some id => if (id =? 0)%nat then w else clearInterval id w
  | None => w
  end.

End RecordAnswer.

(** ** The intake form's AI request *)

Module FormMockInterview.
Import ChatSession.

Section Platform.

(** The message of the [SyntaxError] that [JSON.parse] throws on a
    text; it is the platform's choice. *)
Variable syntaxErrorMessage : string -> string.

Inductive Result :=
| Ok (v : JSON.value)
| Throw (e : Thrown).

Definition cleanAiResponse (text : string) : Result :=
  let start := JS.indexOf "[" text in
  let end_ := JS.lastIndexOf "]" text in
  let json := JS.slice text start (end_ + 1) in
  match JSON.parse json with
  | Some v => Ok v
  | None => Throw (ErrorObject (syntaxErrorMessage json))
  end.

Definition maxAttempts : Z := 3.

Inductive Event :=
| Call (n : nat)
| Log (attempts : Z)
| Sleep (ms : Z).

Inductive Completion :=
| Returned (v : JSON.value)
| ReturnedUndefined
| Threw (e : Thrown)
| OutOfFuel.

(** [error instanceof Error && error.message.includes("503")] *)
Definition isBusy (e : Thrown) : bool :=
  match e with
  | ErrorObject message => JS.str_includes "503" message
  | NotAnError => false
  end.

(** The service: the reply to the request number [n]. *)
Variable sendMessage : nat -> Reply.

(** The body of the [try] block for the request number [n]. *)
Definition attempt (n : nat) : Result :=
  match sendMessage n with
  | Responded text => cleanAiResponse text
  | Failed e => Throw e
  end.

(** The [while] loop, with the events it produces; [calls] counts the
    requests sent so far, [fuel] bounds the iterations. *)
Fixpoint retryLoop (fuel : nat) (attempts : Z) (calls : nat)
  : Completion * list Event :=
  if (attempts <? maxAttempts)%Z then
    match fuel with
    | O => (OutOfFuel, [])
    | S fuel' =>
        match attempt calls with
        | Ok v => (Returned v, [Call calls])
        | Throw e =>
            if isBusy e && (attempts <? maxAttempts - 1)%Z then
              let attempts' := (attempts + 1)%Z in
              let '(r, evs) := retryLoop fuel' attempts' (S calls) in
              (r, Call calls :: Log attempts' :: Sleep 2000 :: evs)
            else (Threw e, [Call calls])
        end
    end
  else (ReturnedUndefined, []).

Definition generateQuestions : Completion * list Event :=
  retryLoop (Z.to_nat maxAttempts) 0 0.

Definition calls_of (evs : list Event) : nat :=
  List.length (filter (fun e => match e with Call _ => true | _ => false end)
                 evs).

End Platform.

End FormMockInterview.

(** ** Sessions of the recorder *)

Module Session.
Import RecordAnswer.

(** The first of two questions. *)
Definition props : Props :=
  mkProps (mkQA "Q1" "A1") [mkQA "Q1" "A1"; mkQA "Q2" "A2"] 0 2
    (Some "interview-1") (Some "user-1").

(** The reply of the AI service, should the recorder ask for it. *)
Definition reply : ChatSession.Reply := ChatSession.Failed ChatSession.NotAnError.

Fixpoint ticks (n : nat) (id : nat) (sw : State * World) : State * World :=
  match n with
  | O => sw
  | S n' => ticks n' id (tick id (fst sw) (snd sw))
  end.

Definition toggle (sw : State * World) : State * World :=
  recordUserAnswer props reply (fst sw) (snd sw).

Definition hear (text : string) (sw : State * World) : State * World :=
  (onSpeech [text] "" (fst sw), snd sw).

Definition save (sw : State * World) : State * World :=
  saveUserAnswer props true (fst sw) (snd sw).

(** The candidate records for 30 seconds and says two words. *)
Definition shortAnswer : State * World :=
  ticks 30 1 (hear "Too short" (toggle (initial, world0))).

(** The candidate records a full answer for 30 seconds and confirms the
    save while the recording still runs. *)
Definition longAnswer : string :=
  "We cache the hot keys in Redis and expire them after a minute".

Definition savedWhileRecording : State * World :=
  save (ticks 30 1 (hear longAnswer (toggle (initial, world0)))).

End Session.

(** ** Replies of the AI service used in the statements *)

Module Sample.
Import JS.

(** The evaluation [{"ratings": n, "feedback": "..."}]. *)
Definition evaluation (ratings feedback : string) : string :=
  "{" ++ quoted "ratings" ++ ": " ++ ratings ++ ", "
    ++ quoted "feedback" ++ ": " ++ quoted feedback ++ "}".

Definition evaluationValue (ratings : N) (feedback : string) : JSON.value :=
  JSON.JObject
    [ (JSON.units "ratings", JSON.JNumber (JSON.mkNumber false ratings 0));
      (JSON.units "feedback", JSON.JString (JSON.units feedback)) ].

(** The same between code fences. *)
Definition fenced (text : string) : string :=
  "```json" ++ newline ++ text ++ newline ++ "```".

(** The array [[{"question":"Q","answer":"A"}]] and the reply that holds
    it after a sentence and between code fences. *)
Definition questionArray : string :=
  "[{" ++ quoted "question" ++ ":" ++ quoted "Q" ++ ","
    ++ quoted "answer" ++ ":" ++ quoted "A" ++ "}]".

Definition questionReply : string :=
  "Here you go:" ++ newline ++ fenced questionArray.

Definition questionValue : JSON.value :=
  JSON.JArray
    [ JSON.JObject
        [ (JSON.units "question", JSON.JString (JSON.units "Q"));
          (JSON.units "answer", JSON.JString (JSON.units "A")) ] ].

End Sample.

(** ** The speech of the flow controller *)

Module QuestionSpeech.
Import QuestionSection.

Inductive SpeechEffect :=
| Cancel
| Speak (text : string).

(** [speakQuestion]: [supported] tells whether the window has
    [speechSynthesis]. *)
Definition speakQuestion (supported : bool) (text : string)
  : list SpeechEffect :=
  if negb supported then [] else [Cancel; Speak text].

(** The [onstart] and [onend] callbacks of the utterance. *)
Definition onstart (s : State) : State :=
  mkState true (activeIndex s) false (allAnswers s) (isCrossQuestion s)
    (crossQuestionText s) (tempMainAnswer s).

Definition onend (s : State) : State :=
  mkState false (activeIndex s) true (allAnswers s) (isCrossQuestion s)
    (crossQuestionText s) (tempMainAnswer s).

(** The effect that runs when the index, the cross-question state or the
    questions change. *)
Definition autoSpeak (supported : bool) (questions : list QA) (s : State)
  : list SpeechEffect :=
  if isCrossQuestion s && negb (String.eqb (crossQuestionText s) "") then
    speakQuestion supported (crossQuestionText s)
  else
    match JS.index questions (activeIndex s) with
    | None => []
    | Some q => speakQuestion supported (question q)
    end.

(** The click on the replay button; [None] stands for the [TypeError] of
    reading the question of [undefined]. *)
Definition replay (supported : bool) (questions : list QA) (s : State)
  : option (State * list SpeechEffect) :=
  if isPlaying s then
    Some (mkState false (activeIndex s) true (allAnswers s)
            (isCrossQuestion s) (crossQuestionText s) (tempMainAnswer s),
          [Cancel])
  else if isCrossQuestion s then
    Some (s, speakQuestion supported (crossQuestionText s))
  else
    match JS.index questions (activeIndex s) with
    | None => None
    | Some q => Some (s, speakQuestion supported (question q))
    end.

End QuestionSpeech.

(** ** The flow under any sequence of submissions *)

Module FlowState.
Import QuestionSection.

(** The index points into the list of questions. *)
Definition in_range (qs : list QA) (s : State) : Prop :=
  (0 <= activeIndex s < Z.of_nat (List.length qs))%Z.

(** The submissions a state accounts for: two per record of the
    transcript, one more in the cross-question state. *)
Definition accounted (s : State) : nat :=
  2 * List.length (allAnswers s) + (if isCrossQuestion s then 1 else 0).

(** The handler in a window that may lack [speechSynthesis]
    ([supported] as in [speakQuestion]).  Its first statement,
    [window.speechSynthesis.cancel()], is not guarded: where the property
    is missing it reads [cancel] of [undefined] and throws a [TypeError]
    before any setter runs.  Where the property is there the handler
    goes on as [handleNextQuestion] has it. *)
Definition handleNextQuestionIn (supported : bool) (questions : list QA)
  (s : State) (ans : string) : Outcome :=
  if negb supported then TypeError
  else handleNextQuestion questions s ans.

End FlowState.

(** ** The recorder's save button and whole recordings *)

Module Recording.
Import RecordAnswer.

(** [!aiResult] *)
Definition noResult (r : option JSON.value) : bool :=
  match r with
  | Some v => negb (truthy v)
  | None => true
  end.

(** The [disabled] attribute of the save button. *)
Definition saveDisabled (p : Props) (s : State) : bool :=
  (recordingTime s <? MIN_RECORD_TIME)%Z
  || (isLastQuestion p && noResult (aiResult s)).

(** The overall result a reply of the AI service leads to. *)
Definition evaluated (reply : ChatSession.Reply) : JSON.value :=
  match reply with
  | ChatSession.Responded text =>
      match JSON.parse (cleanText text) with
      | Some v => v
      | None => fallbackResult
      end
  | ChatSession.Failed _ => fallbackResult
  end.

(** Timer ids are positive and below the next id to give. *)
Definition World_ok (w : World) : Prop :=
  0 < nextTimer w /\ forall t, In t (timers w) -> t < nextTimer w.

(** One recording: the record button, the transcript heard, [n] ticks of
    the timer just started, the record button again. *)
Definition recording (p : Props) (reply : ChatSession.Reply)
  (transcripts : list string) (interimResult : string) (n : nat)
  (s : State) (w : World) : State * World :=
  let started := recordUserAnswer p reply s w in
  let heard := (onSpeech transcripts interimResult (fst started), snd started) in
  let timed := Session.ticks n (nextTimer w) heard in
  recordUserAnswer p reply (fst timed) (snd timed).

End Recording.

(** ** The intake form's submission *)

Module FormSubmit.
Import ChatSession FormMockInterview.

(** An item of the text content of a page: a text item carries [str]. *)
Inductive Item :=
| TextItem (str : string)
| MarkedContent.

Definition itemText (item : Item) : string :=
  match item with
  | TextItem str => str
  | MarkedContent => ""
  end.

Definition pageText (items : list Item) : string :=
  String.concat " " (map itemText items).

(** The loop over the pages: [text += ...]. *)
Fixpoint appendPages (text : string) (pages : list (list Item)) : string :=
  match pages with
  | [] => text
  | items :: rest => appendPages (text ++ pageText items) rest
  end.

(** [extractTextFromPDF], on the pages the PDF reader gives. *)
Definition extractTextFromPDF (pages : list (list Item)) : string :=
  JS.slice (appendPages "" pages) 0 4000.

Record File := mkFile { f_name : string; f_type : string }.

Record Interview := mkInterview
  { i_id : string;
    i_position : string;
    i_description : string;
    i_experience : Z;
    i_techStack : string;
    i_resumeUrl : option string }.

Record FormData := mkFormData
  { position : string;
    description : string;
    experience : Z;
    techStack : string;
    resume : option (list File) }.

(** The fields written to the [interviews] collection (the time stamp is
    left out); [questions] is [None] for [undefined]. *)
Record Fields := mkFields
  { d_position : string;
    d_description : string;
    d_experience : Z;
    d_techStack : string;
    d_resumeUrl : string;
    d_questions : option JSON.value }.

Inductive Effect :=
| SetLoading (b : bool)
| ToastPlain (msg : string)
| ToastSuccess (msg : string)
| ToastError (msg : string)
| Upload (file : File)
| ReadPdf (file : File)
| Generate (resumeText : string)
| Ai (e : Event)
| UpdateDoc (id : string) (fields : Fields)
| AddDoc (fields : Fields) (userId : string)
| ConsoleError
| Navigate (path : string).

(** [onSubmit] returns after its effects; [Diverged] stands for a
    question request that does not end. *)
Inductive Outcome :=
| Done (fx : list Effect)
| Diverged.

(** [initialData?.resumeUrl || ""] *)
Definition oldResumeUrl (initialData : option Interview) : string :=
  match initialData with
  | Some d => match i_resumeUrl d with Some u => u | None => "" end
  | None => ""
  end.

(** [data.resume?.[0]] *)
Definition firstFile (data : FormData) : option File :=
  match resume data with
  | Some (file :: _) => Some file
  | _ => None
  end.

Section Services.

(** The platform and the services: the message of a syntax error, the AI
    service, the upload (its URL, or [None] when it throws), the PDF
    reader (the pages, or [None] when it throws) and the document store
    (whether it accepts the write). *)
Variable syntaxErrorMessage : string -> string.
Variable sendMessage : nat -> Reply.
Variable uploadResumeToCloudinary : File -> option string.
Variable readPdf : File -> option (list (list Item)).
Variable storeAccepts : bool.

(** The [catch] and [finally] clauses. *)
Definition failed (fx : list Effect) : Outcome :=
  Done (fx ++ [ConsoleError; ToastError "Something went wrong";
               SetLoading false])%list.

(** From the question request to the end of the [try] block. *)
Definition generateAndSave (initialData : option Interview) (userId : string)
  (data : FormData) (resumeUrl resumeText : string) (fx : list Effect)
  : Outcome :=
  let '(completion, events) := generateQuestions syntaxErrorMessage sendMessage in
  let fx1 :=
    (fx ++ [ToastPlain "Generating questions..."; Generate resumeText]
        ++ map Ai events)%list in
  let save (questions : option JSON.value) : Outcome :=
    let fields :=
      mkFields (position data) (description data) (experience data)
        (techStack data) resumeUrl questions in
    let write :=
      match initialData with
      | Some d => UpdateDoc (i_id d) fields
      | None => AddDoc fields userId
      end in
    if storeAccepts then
      Done (fx1 ++ [write; ToastSuccess "Interview saved";
                    Navigate "/generate"; SetLoading false])%list
    else failed (fx1 ++ [write])%list in
  match completion with
  | Returned v => save (Some v)
  | ReturnedUndefined => save None
  | Threw _ => failed fx1
  | OutOfFuel => Diverged
  end.

Definition onSubmit (initialData : option Interview) (userId : option string)
  (data : FormData) : Outcome :=
  match userId with
  | None | Some EmptyString => Done [ToastError "Login required"]
  | Some uid =>
      let fx0 := [SetLoading true] in
      match firstFile data with
      | Some file =>
          let fx1 :=
            (fx0 ++ [ToastPlain "Uploading resume..."; Upload file])%list in
          match uploadResumeToCloudinary file with
          | None => failed fx1
          | Some resumeUrl =>
              if String.eqb (f_type file) "application/pdf" then
                let fx2 :=
                  (fx1 ++ [ToastPlain "Analyzing resume..."; ReadPdf file])%list
                in
                match readPdf file with
                | None => failed fx2
                | Some pages =>
                    generateAndSave initialData uid data resumeUrl
                      (extractTextFromPDF pages) fx2
                end
              else generateAndSave initialData uid data resumeUrl "" fx1
          end
      | None =>
          generateAndSave initialData uid data (oldResumeUrl initialData) ""
            fx0
      end
  end.

End Services.

(** What an outcome did: the documents it asked the store to write, and
    whether it left the form for the list of interviews. *)
Definition isWrite (e : Effect) : bool :=
  match e with
  | UpdateDoc _ _ | AddDoc _ _ => true
  | _ => false
  end.

Definition isNavigate (e : Effect) : bool :=
  match e with
  | Navigate _ => true
  | _ => false
  end.

Definition isNetwork (e : Effect) : bool :=
  match e with
  | Upload _ | ReadPdf _ | Generate _ | Ai _ | UpdateDoc _ _ | AddDoc _ _ =>
      true
  | _ => false
  end.

End FormSubmit.

(** ** Shapes of parser states and of request traces *)

Module Shape.
Import JSON FormMockInterview.

Definition is_array (v : value) : bool :=
  match v with
  | JArray _ => true
  | _ => false
  end.

(** The outermost open container is an array. *)
Fixpoint rooted (stack : list frame) : bool :=
  match stack with
  | [] => false
  | [FArr _] => true
  | [FObj _ _] => false
  | _ :: st => rooted st
  end.

(** A state of the parser on a text that opens with a bracket: an array is
    open at the bottom of the stack, or the text has ended with an
    array. *)
Definition in_array (s : pstate) : Prop :=
  match s with
  | (MEnd v, st) => st = [] /\ is_array v = true
  | (_, st) => rooted st = true
  end.

(** The time slept in a trace of the question request. *)
Fixpoint pause_of (evs : list Event) : Z :=
  match evs with
  | [] => 0
  | Sleep ms :: r => ms + pause_of r
  | _ :: r => pause_of r
  end.

End Shape.

(** ** The ends of a submission *)

Module SubmitShape.
Import FormSubmit.

(** An effect that neither writes, nor navigates, nor reports the end of
    the submission. *)
Definition quiet (e : Effect) : bool :=
  match e with
  | UpdateDoc _ _ | AddDoc _ _ | Navigate _ | ToastSuccess _ | ToastError _
  | ConsoleError | SetLoading false => false
  | _ => true
  end.

(** The write of the edit form and of the create form. *)
Definition writeOf (initialData : option Interview) (userId : string)
  (fields : Fields) : Effect :=
  match initialData with
  | Some d => UpdateDoc (i_id d) fields
  | None => AddDoc fields userId
  end.

Definition succeeded (write : Effect) : list Effect :=
  [write; ToastSuccess "Interview saved"; Navigate "/generate";
   SetLoading false].

Definition gaveUp : list Effect :=
  [ConsoleError; ToastError "Something went wrong"; SetLoading false].

(** The URL a submission stores: that of the upload when a file is given,
    the one of the interview edited otherwise. *)
Definition resumeUrlOf (upload : File -> option string)
  (initialData : option Interview) (data : FormData) : string :=
  match firstFile data with
  | Some file => match upload file with Some url => url | None => "" end
  | None => oldResumeUrl initialData
  end.

(** How a submission that reached the question request ends: the write
    is accepted, or a step before it failed, or the write is refused. *)
Definition ends (storeAccepts : bool) (initialData : option Interview)
  (uid : string) (data : FormData) (resumeUrl : string) (pre : list Effect)
  (out : Outcome) : Prop :=
  (exists items,
      storeAccepts = true
      /\ out = Done (pre ++ succeeded
                        (writeOf initialData uid
                           (mkFields (position data) (description data)
                              (experience data) (techStack data) resumeUrl
                              (Some (JSON.JArray items)))))%list)
  \/ out = Done (pre ++ gaveUp)%list
  \/ (exists fields,
         storeAccepts = false
         /\ out = Done (pre ++ writeOf initialData uid fields :: gaveUp)%list).

End SubmitShape.

(** ** A submission used in the statements *)

Module SampleSubmit.
Import ChatSession FormSubmit.

Definition resumeFile : File := mkFile "resume.pdf" "application/pdf".

Definition formData : FormData :=
  mkFormData "Backend engineer" "Builds and runs the services" 3
    "Go, Postgres" (Some [resumeFile]).

Definition pages : list (list Item) :=
  [[TextItem "Jane"; TextItem "Doe"]; [TextItem "Go"]].

(** Every service answers: the upload with a URL, the reader with the
    pages, the AI with the reply of the example. *)
Definition submitted (storeAccepts : bool) : Outcome :=
  onSubmit (fun text => "Unexpected token in " ++ text)
    (fun _ => Responded Sample.questionReply)
    (fun _ => Some "https://files.example/resume.pdf")
    (fun _ => Some pages)
    storeAccepts None (Some "user-1") formData.

End SampleSubmit.

(** ** What the cleaning of a reply deletes *)

Module Cleaning.

(** The alternatives of the pattern without the fence: the letters and
    the single back-quote. *)
Definition plain : list string := ["json"; "`"].

(** The number of characters of a text that are not white space. *)
Fixpoint ink (s : string) : nat :=
  match s with
  | EmptyString => 0
  | String c r => (if JS.is_space c then 0 else 1) + ink r
  end.

End Cleaning.

(** * Properties *)

(** ** String primitives *)

Module JSFacts.

Lemma substring_0_0 (s : string) : substring 0 0 s = "".
Proof. destruct s; reflexivity. Qed.

Lemma substring_n_0 (n : nat) (s : string) : substring n 0 s = "".
Proof.
  revert n; induction s as [|c r IH]; intros [|n]; simpl; auto.
Qed.

Lemma substring_all (s : string) : substring 0 (String.length s) s = s.
Proof. induction s as [|c r IH]; simpl; [reflexivity | now rewrite IH]. Qed.

Lemma len_cons (c : ascii) (r : string) :
  JS.len (String c r) = (JS.len r + 1)%Z.
Proof. unfold JS.len; simpl String.length; lia. Qed.

Lemma len_nonneg (s : string) : (0 <= JS.len s)%Z.
Proof. unfold JS.len; lia. Qed.

(** [w.charAt(0).toUpperCase() + w.slice(1)] turns the first character
    of [w] to upper case and keeps the rest. *)
Lemma charAt_slice (c : ascii) (r : string) :
  JS.toUpperCase (JS.charAt (String c r) 0) ++ JS.slice_from (String c r) 1
  = String (JS.upper_char c) r.
Proof.
  unfold JS.charAt, JS.slice_from, JS.slice, JS.clamp.
  rewrite len_cons. pose proof (len_nonneg r) as Hr.
  replace (1 <? 0)%Z with false by reflexivity.
  replace (JS.len r + 1 <? 0)%Z with false by (symmetry; apply Z.ltb_ge; lia).
  rewrite Z.min_id, (Z.min_l 1) by lia.
  replace (Z.max (JS.len r + 1 - 1) 0) with (JS.len r) by lia.
  change (Z.to_nat 1) with 1%nat.
  unfold JS.len; rewrite Nat2Z.id.
  simpl. rewrite substring_0_0, substring_all. reflexivity.
Qed.

Lemma append_assoc (a b c : string) : (a ++ b) ++ c = a ++ b ++ c.
Proof. induction a as [|d r IH]; simpl; [reflexivity|now rewrite IH]. Qed.

(** A character that does not occur in a given text. *)
Ltac absent_char :=
  unfold JS.has_char; cbn; intros H;
  repeat (destruct H as [H|H]; [discriminate H|]); exact H.

Lemma len_app (a b : string) : JS.len (a ++ b) = (JS.len a + JS.len b)%Z.
Proof.
  unfold JS.len. induction a as [|c r IH]; simpl String.length in *; lia.
Qed.

Lemma has_char_head (c d : ascii) (r : string) :
  ~ JS.has_char c (String d r) -> d <> c /\ ~ JS.has_char c r.
Proof. unfold JS.has_char; simpl; intuition. Qed.

Lemma indexOf_lower (c : ascii) (s : string) : (-1 <= JS.indexOf c s)%Z.
Proof.
  induction s as [|d r IH]; simpl; [lia|].
  destruct (Ascii.eqb d c); [lia|].
  destruct (Z.ltb_spec (JS.indexOf c r) 0); lia.
Qed.

Lemma indexOf_absent (c : ascii) (s : string) :
  ~ JS.has_char c s -> JS.indexOf c s = (-1)%Z.
Proof.
  induction s as [|d r IH]; intros H; simpl; [reflexivity|].
  apply has_char_head in H as [Hd Hr].
  apply Ascii.eqb_neq in Hd. rewrite Hd, (IH Hr). reflexivity.
Qed.

Lemma indexOf_first (c : ascii) (pre rest : string) :
  ~ JS.has_char c pre -> JS.indexOf c (pre ++ String c rest) = JS.len pre.
Proof.
  induction pre as [|d r IH]; intros H; simpl.
  - now rewrite Ascii.eqb_refl.
  - apply has_char_head in H as [Hd Hr].
    apply Ascii.eqb_neq in Hd. rewrite Hd, (IH Hr), len_cons.
    pose proof (len_nonneg r).
    destruct (Z.ltb_spec (JS.len r) 0); lia.
Qed.

Lemma lastIndexOf_bounds (c : ascii) (s : string) :
  (-1 <= JS.lastIndexOf c s < JS.len s)%Z.
Proof.
  induction s as [|d r IH]; [cbn; lia|].
  rewrite len_cons. simpl.
  destruct (Z.leb_spec 0 (JS.lastIndexOf c r)); [lia|].
  pose proof (len_nonneg r). destruct (Ascii.eqb d c); lia.
Qed.

Lemma lastIndexOf_absent (c : ascii) (s : string) :
  ~ JS.has_char c s -> JS.lastIndexOf c s = (-1)%Z.
Proof.
  induction s as [|d r IH]; intros H; simpl; [reflexivity|].
  apply has_char_head in H as [Hd Hr].
  apply Ascii.eqb_neq in Hd. rewrite Hd, (IH Hr). reflexivity.
Qed.

Lemma lastIndexOf_last (c : ascii) (pre post : string) :
  ~ JS.has_char c post ->
  JS.lastIndexOf c (pre ++ String c post) = JS.len pre.
Proof.
  intros H. induction pre as [|d r IH]; simpl.
  - now rewrite (lastIndexOf_absent c post H), Ascii.eqb_refl.
  - rewrite IH, len_cons. pose proof (len_nonneg r).
    destruct (Z.leb_spec 0 (JS.len r)); lia.
Qed.

(** The character at the position [lastIndexOf] returns. *)
Lemma lastIndexOf_char (c : ascii) (s : string) :
  (0 <= JS.lastIndexOf c s)%Z ->
  substring (Z.to_nat (JS.lastIndexOf c s)) 1 s = String c "".
Proof.
  induction s as [|d r IH]; simpl; [lia|].
  destruct (Z.leb_spec 0 (JS.lastIndexOf c r)) as [Hr|Hr].
  - intros _. rewrite Z2Nat.inj_add by lia.
    change (Z.to_nat 1) with 1%nat. rewrite Nat.add_1_r.
    now apply IH.
  - destruct (Ascii.eqb_spec d c) as [->|_]; [|lia].
    intros _. simpl. now rewrite substring_0_0.
Qed.

Lemma substring_middle (pre x post : string) :
  substring (String.length pre) (String.length x) (pre ++ x ++ post) = x.
Proof.
  induction pre as [|d r IH]; simpl; [|exact IH].
  induction x as [|e x' IHx]; simpl; [apply substring_0_0|now rewrite IHx].
Qed.

Lemma slice_middle (pre x post : string) :
  JS.slice (pre ++ x ++ post) (JS.len pre) (JS.len pre + JS.len x) = x.
Proof.
  unfold JS.slice, JS.clamp. rewrite !len_app.
  pose proof (len_nonneg pre). pose proof (len_nonneg x).
  pose proof (len_nonneg post).
  destruct (Z.ltb_spec (JS.len pre) 0); [lia|].
  destruct (Z.ltb_spec (JS.len pre + JS.len x) 0); [lia|].
  rewrite !Z.min_l by lia.
  replace (Z.max (JS.len pre + JS.len x - JS.len pre) 0) with (JS.len x)
    by lia.
  unfold JS.len. rewrite !Nat2Z.id. apply substring_middle.
Qed.

End JSFacts.

(** ** The cross-question generator *)

Module CrossQuestionFacts.
Import CodeUnits.

Section LastOfFilter.
Context {A : Type} (f : A -> bool).

Lemma filter_none (l : list A) :
  (forall x, In x l -> f x = false) -> filter f l = [].
Proof.
  induction l as [|a l IH]; intros H; simpl; [reflexivity|].
  rewrite (H a) by now left. apply IH; intros x Hx; apply H; now right.
Qed.

Lemma index_last (l : list A) (w : A) :
  JS.index (l ++ [w]) (Z.of_nat (List.length (l ++ [w])) - 1) = Some w.
Proof.
  unfold JS.index. rewrite length_app; simpl List.length.
  replace (Z.of_nat (List.length l + 1) - 1)%Z
    with (Z.of_nat (List.length l)) by lia.
  replace (Z.of_nat (List.length l) <? 0)%Z with false
    by (symmetry; apply Z.ltb_ge; lia).
  rewrite Nat2Z.id, nth_error_app2, Nat.sub_diag by lia. reflexivity.
Qed.

Lemma filter_last (pre post : list A) (w : A) :
  f w = true -> (forall x, In x post -> f x = false) ->
  filter f (pre ++ w :: post) = (filter f pre ++ [w])%list.
Proof.
  intros Hw Hpost. rewrite filter_app; simpl.
  now rewrite Hw, (filter_none post Hpost).
Qed.

(** A list has a last element that satisfies [f], or none at all. *)
Lemma last_or_none (l : list A) :
  (exists pre w post,
      l = (pre ++ w :: post)%list /\ f w = true /\
      forall x, In x post -> f x = false)
  \/ (forall x, In x l -> f x = false).
Proof.
  induction l as [|a l [(pre & w & post & -> & Hw & Hpost)|Hnone]].
  - right; intros x [].
  - left; exists (a :: pre), w, post; auto.
  - destruct (f a) eqn:Ha.
    + left; exists [], a, l; auto.
    + right; intros x [<-|Hx]; auto.
Qed.
End LastOfFilter.

Lemma isKeyword_short (w : text) :
  (List.length w <= 2)%nat -> isKeyword w = false.
Proof.
  intros H. unfold isKeyword.
  replace (2 <? Z.of_nat (List.length w))%Z with false; [reflexivity|].
  symmetry. apply Z.ltb_ge. lia.
Qed.

Lemma text_eqb_refl (w : text) : text_eqb w w = true.
Proof.
  induction w as [|u w IH]; [reflexivity|]. cbn. now rewrite N.eqb_refl.
Qed.

Lemma stopWord_not_keyword (w : text) :
  In w stopWords -> isKeyword w = false.
Proof.
  unfold isKeyword; intros H.
  assert (includes stopWords w = true) as ->.
  { unfold includes; apply existsb_exists; exists w; split; auto.
    apply text_eqb_refl. }
  apply andb_false_r.
Qed.

(** The platform of the examples maps ASCII as any platform does. *)
Lemma latin1_ascii_case : ascii_case latin1_toLowerCase latin1_toUpperCase.
Proof.
  split; intros t Ht; induction t as [|u t IH]; try reflexivity;
    cbn [is_ascii forallb] in Ht; apply andb_true_iff in Ht as [Hu Ht];
    apply N.ltb_lt in Hu.
  - cbn [latin1_toLowerCase map]. f_equal; [|now apply IH].
    unfold latin1_lower, lower_unit.
    replace (192 <=? u)%N with false by (symmetry; apply N.leb_gt; lia).
    cbn [andb]. now rewrite orb_false_r.
  - unfold latin1_toUpperCase. cbn [flat_map map].
    fold (latin1_toUpperCase t). rewrite (IH Ht).
    unfold latin1_upper, upper_unit.
    replace (224 <=? u)%N with false by (symmetry; apply N.leb_gt; lia).
    cbn [andb]. rewrite orb_false_r.
    destruct ((97 <=? u) && (u <=? 122))%N; [reflexivity|].
    replace (u =? 223)%N with false by (symmetry; apply N.eqb_neq; lia).
    replace (u =? 181)%N with false by (symmetry; apply N.eqb_neq; lia).
    replace (u =? 255)%N with false by (symmetry; apply N.eqb_neq; lia).
    reflexivity.
Qed.

(** C2. The cross-question is a function of the answer text alone, for
    every text, a text being any sequence of UTF-16 code units and the
    case mappings being those of the platform, of which only their
    effect on ASCII is used.  With the words of the answer being the
    pieces of its lower-case form between runs of white space, and a
    keyword being a word of more than 2 code units that is not a stop
    word: when [w] is the last keyword, the question is "What is W?"
    with [W] the word with its first code unit in upper case; when no
    word is a keyword, in particular when every word is a stop word or
    has at most 2 code units, the question is the fallback prompt; one
    of the two cases always applies; and the answer "I am building a
    scalable caching layer" gives "What is Layer?". *)
Theorem crossQuestion_last_keyword :
  forall toLowerCase toUpperCase : text -> text,
    ascii_case toLowerCase toUpperCase ->
    (forall answer : text,
        let words := split_ws (toLowerCase answer) in
        let crossQ := generateCrossQuestion toLowerCase toUpperCase answer in
        (forall pre w post,
            words = (pre ++ w :: post)%list ->
            isKeyword w = true ->
            (forall x, In x post -> isKeyword x = false) ->
            crossQ
            = (of_string "What is " ++ capitalize toUpperCase w
                 ++ of_string "?")%list)
        /\ ((forall x, In x words -> isKeyword x = false) ->
            crossQ = fallbackPrompt)
        /\ ((forall x, In x words ->
                       In x stopWords \/ (List.length x <= 2)%nat) ->
            crossQ = fallbackPrompt)
        /\ ((exists pre w post,
                words = (pre ++ w :: post)%list /\ isKeyword w = true /\
                forall x, In x post -> isKeyword x = false)
            \/ (forall x, In x words -> isKeyword x = false)))
    /\ generateCrossQuestion toLowerCase toUpperCase
         (of_string "I am building a scalable caching layer")
       = of_string "What is Layer?".
Proof.
  intros lower upper [Hlower Hupper]. split.
  - intros answer words crossQ.
    assert (Hnone : (forall x, In x words -> isKeyword x = false) ->
                    crossQ = fallbackPrompt).
    { intros H. unfold crossQ, generateCrossQuestion.
      destruct answer; [reflexivity|].
      fold words. rewrite (filter_none isKeyword words H). reflexivity. }
    split; [|split; [|split]].
    + intros pre w post Hwords Hw Hpost.
      unfold crossQ, generateCrossQuestion.
      destruct answer as [|u answer].
      * unfold words in Hwords. rewrite (Hlower [] eq_refl) in Hwords.
        destruct pre as [|a [|b pre]]; inversion Hwords; subst;
          discriminate Hw.
      * fold words.
        rewrite Hwords, (filter_last isKeyword pre post w Hw Hpost).
        rewrite index_last.
        destruct w as [|c r]; [discriminate Hw|]. reflexivity.
    + exact Hnone.
    + intros H. apply Hnone. intros x Hx.
      destruct (H x Hx) as [Hs|Hs];
        [now apply stopWord_not_keyword|now apply isKeyword_short].
    + apply last_or_none.
  - unfold generateCrossQuestion.
    rewrite (Hlower (of_string "I am building a scalable caching layer")
               eq_refl).
    vm_compute.
    rewrite (Hupper [108%N] eq_refl). reflexivity.
Qed.

Lemma crossQuestion_last_keyword_witness :
  generateCrossQuestion latin1_toLowerCase latin1_toUpperCase
    (of_string "We use Redis for it")
  = of_string "What is Redis?"
  /\ generateCrossQuestion latin1_toLowerCase latin1_toUpperCase ecole
     = (of_string "What is " ++ [201; 99; 111; 108; 101]%N
          ++ of_string "?")%list
  /\ generateCrossQuestion latin1_toLowerCase latin1_toUpperCase
       (of_string " It is THE  ")
     = fallbackPrompt.
Proof.
  split; [|split].
  - apply (proj1 (proj1 (crossQuestion_last_keyword _ _ latin1_ascii_case)
                    (of_string "We use Redis for it"))
             [of_string "we"; of_string "use"] (of_string "redis")
             [of_string "for"; of_string "it"]).
    + reflexivity.
    + reflexivity.
    + intros x [<-|[<-|[]]]; reflexivity.
  - apply (proj1 (proj1 (crossQuestion_last_keyword _ _ latin1_ascii_case)
                    ecole)
             [] ecole []).
    + reflexivity.
    + reflexivity.
    + intros x [].
  - apply (proj1 (proj2 (proj1 (crossQuestion_last_keyword _ _
                                  latin1_ascii_case)
                           (of_string " It is THE  ")))).
    intros x [<-|[<-|[<-|[<-|[<-|[]]]]]]; reflexivity.
Defined.


(** *** The ASCII model is the code-unit model on ASCII texts *)

Lemma of_string_app (a b : string) :
  of_string (a ++ b) = (of_string a ++ of_string b)%list.
Proof.
  unfold of_string. induction a as [|c a IH]; [reflexivity|].
  cbn. now rewrite <- IH.
Qed.

Lemma of_string_length (s : string) :
  List.length (of_string s) = String.length s.
Proof.
  unfold of_string. induction s as [|c s IH]; [reflexivity|].
  cbn. now rewrite IH.
Qed.

Ltac each_char c :=
  destruct c as [[] [] [] [] [] [] [] []].

Lemma lower_unit_char (c : ascii) :
  lower_unit (N_of_ascii c) = N_of_ascii (JS.lower_char c).
Proof. each_char c; reflexivity. Qed.

Lemma upper_unit_char (c : ascii) :
  upper_unit (N_of_ascii c) = N_of_ascii (JS.upper_char c).
Proof. each_char c; reflexivity. Qed.

Lemma lower_char_ascii (c : ascii) :
  (N_of_ascii c <? 128)%N = true ->
  (N_of_ascii (JS.lower_char c) <? 128)%N = true.
Proof. each_char c; intros H; try discriminate H; reflexivity. Qed.

Lemma is_space_char (c : ascii) :
  (N_of_ascii c <? 128)%N = true ->
  is_space (N_of_ascii c) = JS.is_space c.
Proof. each_char c; intros H; try discriminate H; reflexivity. Qed.

Lemma unit_eqb_char (c d : ascii) :
  (N_of_ascii c =? N_of_ascii d)%N = Ascii.eqb c d.
Proof.
  destruct (Ascii.eqb_spec c d) as [->|Hne].
  - apply N.eqb_refl.
  - apply N.eqb_neq. intros E. apply Hne.
    rewrite <- (ascii_N_embedding c), <- (ascii_N_embedding d).
    now rewrite E.
Qed.

Lemma of_string_lower (s : string) :
  map lower_unit (of_string s) = of_string (JS.toLowerCase s).
Proof.
  unfold of_string. induction s as [|c s IH]; [reflexivity|].
  cbn. now rewrite IH, lower_unit_char.
Qed.

Lemma is_ascii_lower (s : string) :
  is_ascii (of_string s) = true ->
  is_ascii (of_string (JS.toLowerCase s)) = true.
Proof.
  induction s as [|c s IH]; [reflexivity|].
  change (JS.toLowerCase (String c s))
    with (String (JS.lower_char c) (JS.toLowerCase s)).
  change (is_ascii (of_string (String c s)))
    with ((N_of_ascii c <? 128)%N && is_ascii (of_string s)).
  change (is_ascii (of_string (String (JS.lower_char c) (JS.toLowerCase s))))
    with ((N_of_ascii (JS.lower_char c) <? 128)%N
          && is_ascii (of_string (JS.toLowerCase s))).
  intros H. apply andb_true_iff in H as [Hc Hs].
  now rewrite (lower_char_ascii c Hc), (IH Hs).
Qed.

Lemma is_ascii_app (a b : text) :
  is_ascii (a ++ b)%list = is_ascii a && is_ascii b.
Proof. apply forallb_app. Qed.

Lemma split_ws_of_string (s : string) :
  is_ascii (of_string s) = true ->
  forall (cur : string) (in_run : bool),
    split_ws_from (of_string cur) in_run (of_string s)
    = map of_string (JS.split_ws_from cur in_run s).
Proof.
  induction s as [|c s IH]; intros Hs cur in_run; [reflexivity|].
  change (of_string (String c s)) with (N_of_ascii c :: of_string s) in *.
  cbn [is_ascii forallb] in Hs. apply andb_true_iff in Hs as [Hc Hs].
  cbn [split_ws_from JS.split_ws_from].
  rewrite (is_space_char c Hc).
  destruct (JS.is_space c).
  - destruct in_run; cbn [map]; f_equal; apply (IH Hs "").
  - change ([N_of_ascii c]) with (of_string (String c "")).
    rewrite <- of_string_app. apply (IH Hs).
Qed.

(** The words of an ASCII text are ASCII. *)
Lemma split_ws_ascii (s : text) :
  is_ascii s = true ->
  forall (cur : text) (in_run : bool),
    is_ascii cur = true ->
    forall w, In w (split_ws_from cur in_run s) -> is_ascii w = true.
Proof.
  induction s as [|u s IH]; intros Hs cur in_run Hcur w Hw.
  - destruct Hw as [<-|[]]. exact Hcur.
  - cbn [is_ascii forallb] in Hs. apply andb_true_iff in Hs as [Hu Hs].
    cbn [split_ws_from] in Hw. destruct (is_space u).
    + destruct in_run.
      * apply (IH Hs [] true eq_refl w Hw).
      * destruct Hw as [<-|Hw]; [exact Hcur|].
        apply (IH Hs [] true eq_refl w Hw).
    + apply (IH Hs (cur ++ [u])%list false); [|exact Hw].
      rewrite is_ascii_app, Hcur. cbn. now rewrite Hu.
Qed.

Lemma text_eqb_of_string (a b : string) :
  text_eqb (of_string a) (of_string b) = String.eqb a b.
Proof.
  revert b. induction a as [|c a IH]; intros [|d b]; try reflexivity.
  change (of_string (String c a)) with (N_of_ascii c :: of_string a).
  change (of_string (String d b)) with (N_of_ascii d :: of_string b).
  cbn [text_eqb String.eqb]. rewrite unit_eqb_char, IH.
  destruct (Ascii.eqb c d); reflexivity.
Qed.

Lemma includes_of_string (l : list string) (w : string) :
  includes (map of_string l) (of_string w) = JS.includes l w.
Proof.
  unfold includes, JS.includes. induction l as [|a l IH]; [reflexivity|].
  cbn [map existsb]. now rewrite text_eqb_of_string, IH.
Qed.

Lemma isKeyword_of_string (w : string) :
  isKeyword (of_string w) = QuestionSection.isKeyword w.
Proof.
  unfold isKeyword, QuestionSection.isKeyword, stopWords.
  now rewrite includes_of_string, of_string_length.
Qed.

Lemma filter_of_string (l : list string) :
  filter isKeyword (map of_string l)
  = map of_string (filter QuestionSection.isKeyword l).
Proof.
  induction l as [|a l IH]; [reflexivity|].
  cbn [map filter]. rewrite isKeyword_of_string, IH.
  destruct (QuestionSection.isKeyword a); reflexivity.
Qed.

Lemma index_map {A B : Type} (f : A -> B) (l : list A) (i : Z) :
  JS.index (map f l) i = option_map f (JS.index l i).
Proof.
  unfold JS.index. destruct (i <? 0)%Z; [reflexivity|].
  apply nth_error_map.
Qed.

Lemma index_In {A : Type} (l : list A) (i : Z) (x : A) :
  JS.index l i = Some x -> In x l.
Proof.
  unfold JS.index. destruct (i <? 0)%Z; [discriminate|].
  apply nth_error_In.
Qed.

(** On an answer of ASCII characters the cross-question is the one the
    ASCII model gives, whatever the platform does with other texts. *)
Lemma generateCrossQuestion_on_ascii
  (toLowerCase toUpperCase : text -> text) :
  ascii_case toLowerCase toUpperCase ->
  forall answer : string,
    is_ascii (of_string answer) = true ->
    generateCrossQuestion toLowerCase toUpperCase (of_string answer)
    = of_string (QuestionSection.generateCrossQuestion answer).
Proof.
  intros [Hlower Hupper] answer Hascii.
  unfold generateCrossQuestion, QuestionSection.generateCrossQuestion.
  destruct answer as [|c answer]; [reflexivity|].
  change (of_string (String c answer))
    with (N_of_ascii c :: of_string answer) at 1.
  cbn [String.eqb].
  rewrite (Hlower _ Hascii), of_string_lower.
  pose proof (is_ascii_lower _ Hascii) as Hlow.
  unfold split_ws, JS.split_ws.
  pose proof (split_ws_ascii _ Hlow [] false eq_refl) as Hwords.
  pose proof (split_ws_of_string _ Hlow "" false) as Hsplit.
  change (of_string "") with (@nil N) in Hsplit.
  rewrite Hsplit in Hwords |- *.
  rewrite filter_of_string, length_map, index_map.
  destruct (JS.index _ _) as [keyword|] eqn:Hk; [|reflexivity].
  cbn [option_map].
  destruct keyword as [|k r]; [reflexivity|].
  cbn [String.eqb].
  rewrite JSFacts.charAt_slice.
  assert (Hin : is_ascii (of_string (String k r)) = true).
  { apply Hwords, in_map.
    apply index_In in Hk. apply filter_In in Hk. tauto. }
  change (of_string (String k r)) with (N_of_ascii k :: of_string r) in *.
  cbn [charAt slice_from skipn firstn].
  cbn [is_ascii forallb] in Hin. apply andb_true_iff in Hin as [Hc _].
  rewrite (Hupper [N_of_ascii k]) by (cbn; now rewrite Hc).
  cbn [map]. rewrite upper_unit_char.
  rewrite !of_string_app. reflexivity.
Qed.

End CrossQuestionFacts.

(** ** The interview flow *)

Module FlowFacts.
Import QuestionSection.

Lemma index_middle (done todo : list QA) (q : QA) :
  JS.index (done ++ q :: todo) (Z.of_nat (List.length done)) = Some q.
Proof.
  unfold JS.index.
  replace (Z.of_nat (List.length done) <? 0)%Z with false
    by (symmetry; apply Z.ltb_ge; lia).
  rewrite Nat2Z.id, nth_error_app2, Nat.sub_diag by lia. reflexivity.
Qed.

Lemma records_length (qs : list QA) (answers : list (string * string)) :
  List.length answers = List.length qs ->
  List.length (records qs answers) = List.length qs.
Proof.
  revert answers; induction qs as [|q qs IH]; intros [|a answers] H;
    simpl in *; try discriminate; auto.
Qed.

(** The run from the state reached when the questions [done] are
    answered and [todo] remain. *)
Lemma drive_from (todo : list QA) :
  forall (answers : list (string * string)) (done : list QA) (s : State),
    List.length answers = List.length todo ->
    isCrossQuestion s = false ->
    activeIndex s = Z.of_nat (List.length done) ->
    exists steps,
      drive (done ++ todo) s (submissions answers) = Some steps
      /\ List.length steps = 2 * List.length todo
      /\ forall i q a,
          nth_error todo i = Some q -> nth_error answers i = Some a ->
          question_cycle steps i (Z.of_nat (List.length done + i)) (fst a)
            (allAnswers s ++ firstn i (records todo answers))
            (allAnswers s ++ firstn (S i) (records todo answers))
            (if (S i =? List.length todo)%nat
             then [SpeechCancel;
                   Navigate feedbackPath
                     (allAnswers s ++ records todo answers) (done ++ todo)]
             else [SpeechCancel]).
Proof.
  induction todo as [|q todo IH]; intros [|[m f] answers] done s Hlen Hcross Hidx;
    simpl in Hlen; try discriminate.
  - exists []; repeat split; auto. intros [|i] ? ? H; discriminate H.
  - injection Hlen as Hlen.
    cbn [submissions flat_map fst snd app drive].
    unfold handleNextQuestion at 1. rewrite Hcross. cbn [negb].
    cbn [drive]. unfold handleNextQuestion at 1.
    cbn [isCrossQuestion negb activeIndex tempMainAnswer allAnswers isPlaying].
    rewrite Hidx, index_middle, length_app. cbn [List.length].
    destruct todo as [|q' todo'].
    + destruct answers; [|discriminate Hlen].
      match goal with |- context [(?a <? ?b)%Z] =>
        replace (a <? b)%Z with false
          by (symmetry; apply Z.ltb_ge; simpl; lia) end.
      cbn [submissions flat_map app drive].
      eexists; split; [reflexivity|]. split; [reflexivity|].
      intros [|[|i]] q0 a Hq Ha; try discriminate Hq.
      injection Hq as <-. injection Ha as <-.
      rewrite Nat.add_0_r.
      eexists _, _; repeat split; simpl; now rewrite ?app_nil_r.
    + match goal with |- context [(?a <? ?b)%Z] =>
        replace (a <? b)%Z with true
          by (symmetry; apply Z.ltb_lt; simpl List.length; lia) end.
      set (s2 := mkState _ _ _ _ _ _ _).
      destruct (IH answers (done ++ [q])%list s2 Hlen eq_refl) as
        (steps & Hrun & Hsteps & Hcyc).
      { unfold s2; cbn [activeIndex]. rewrite length_app.
        cbn [List.length]. lia. }
      rewrite <- app_assoc in Hrun. cbn [app] in Hrun.
      fold (submissions answers). rewrite Hrun.
      eexists; split; [reflexivity|].
      split; [cbn [List.length] in *; lia|].
      intros [|i] q0 a Hq Ha.
      * injection Hq as <-. injection Ha as <-.
        rewrite Nat.add_0_r.
        eexists _, _; repeat split; simpl; now rewrite ?app_nil_r.
      * cbn [nth_error] in Hq, Ha.
        destruct (Hcyc i q0 a Hq Ha) as
          (s1' & s2' & H1 & H2 & H3 & H4 & H5 & H6 & H7 & H8).
        exists s1', s2'.
        replace (2 * S i)%nat with (S (S (2 * i))) by lia.
        replace (S (S (2 * i)) + 1)%nat with (S (S (2 * i + 1))) by lia.
        cbn [nth_error].
        unfold s2 in H6, H8, H2; cbn [allAnswers] in H6, H8, H2.
        rewrite <- app_assoc in H6, H8. rewrite <- !app_assoc in H2.
        cbn [app] in H2.
        rewrite length_app in H4. cbn [List.length] in H4.
        repeat split; auto.
        rewrite H4. f_equal. lia.
Qed.

(** C1. For a non-empty list of questions and a main and a follow-up
    answer for each, submitted alternately from the initial state, the
    handler never throws and takes two steps per question.  For the
    question at position [i]: the first submission enters the
    cross-question state at index [i] with the cross-question derived
    from the main answer and leaves the transcript at the [i] records of
    the earlier questions; the second leaves the cross-question state
    with one more record, the combined answer.  The last step navigates
    to the feedback view with the whole transcript, whose length is the
    number of questions, and the question list; no other step
    navigates. *)
Theorem flow_visits_each_question_once :
  forall (qs : list QA) (answers : list (string * string)),
    qs <> [] ->
    List.length answers = List.length qs ->
    exists steps,
      drive qs initial (submissions answers) = Some steps
      /\ List.length steps = 2 * List.length qs
      /\ List.length (records qs answers) = List.length qs
      /\ (forall i q a,
             nth_error qs i = Some q -> nth_error answers i = Some a ->
             question_cycle steps i (Z.of_nat i) (fst a)
               (firstn i (records qs answers))
               (firstn (S i) (records qs answers))
               (if (S i =? List.length qs)%nat
                then [SpeechCancel;
                      Navigate feedbackPath (records qs answers) qs]
                else [SpeechCancel]))
      /\ (exists s,
             nth_error steps (2 * List.length qs - 1)
             = Some (s, [SpeechCancel;
                         Navigate feedbackPath (records qs answers) qs]))
      /\ (forall k s fx,
             nth_error steps k = Some (s, fx) ->
             k <> 2 * List.length qs - 1 -> fx = [SpeechCancel]).
Proof.
  intros qs answers Hne Hlen.
  destruct (drive_from qs answers [] initial Hlen eq_refl eq_refl)
    as (steps & Hrun & Hsteps & Hcyc).
  assert (Hat : forall i, i < List.length qs ->
                          exists q a, nth_error qs i = Some q
                                      /\ nth_error answers i = Some a).
  { intros i Hi.
    destruct (nth_error qs i) as [q|] eqn:Hq;
      [|apply nth_error_None in Hq; lia].
    destruct (nth_error answers i) as [a|] eqn:Ha;
      [|apply nth_error_None in Ha; lia].
    now exists q, a. }
  exists steps. repeat split; auto using records_length.
  - destruct qs as [|q0 qs']; [contradiction|].
    destruct (Hat (List.length qs')) as (q & a & Hq & Ha);
      [simpl; lia|].
    destruct (Hcyc _ q a Hq Ha) as (s1 & s2 & _ & H2 & _).
    exists s2.
    replace (2 * List.length (q0 :: qs') - 1)
      with (2 * List.length qs' + 1) by (cbn [List.length]; lia).
    rewrite H2. cbn [List.length]. now rewrite Nat.eqb_refl.
  - intros k s fx Hk Hnot.
    assert (Hlt : k < 2 * List.length qs).
    { rewrite <- Hsteps. apply nth_error_Some. now rewrite Hk. }
    destruct (Nat.Even_or_Odd k) as [[i ->]|[i ->]].
    + destruct (Hat i) as (q & a & Hq & Ha); [lia|].
      destruct (Hcyc _ q a Hq Ha) as (s1 & s2 & H1 & _).
      rewrite H1 in Hk. now injection Hk as _ <-.
    + destruct (Hat i) as (q & a & Hq & Ha); [lia|].
      destruct (Hcyc _ q a Hq Ha) as (s1 & s2 & _ & H2 & _).
      assert (E : (S i =? List.length qs)%nat = false)
        by (apply Nat.eqb_neq; lia).
      rewrite E, Hk in H2. now injection H2 as _ ->.
Qed.

Lemma flow_visits_each_question_once_witness :
  exists steps,
    drive [mkQA "Q1" "A1"; mkQA "Q2" "A2"] initial
      (submissions [("I like Rust", "memory safety"); ("it is", "ok")])
    = Some steps
    /\ List.length steps = 4
    /\ exists s,
        nth_error steps 3
        = Some (s, [SpeechCancel;
                    Navigate feedbackPath
                      [mkAnswer "Q1"
                         "I like Rust | Follow-up: memory safety" "A1";
                       mkAnswer "Q2" "it is | Follow-up: ok" "A2"]
                      [mkQA "Q1" "A1"; mkQA "Q2" "A2"]]).
Proof.
  destruct (flow_visits_each_question_once
              [mkQA "Q1" "A1"; mkQA "Q2" "A2"]
              [("I like Rust", "memory safety"); ("it is", "ok")])
    as (steps & Hrun & Hlen & _ & _ & Hlast & _).
  - discriminate.
  - reflexivity.
  - exists steps. repeat split; [exact Hrun | exact Hlen | exact Hlast].
Defined.

End FlowFacts.

(** ** The answer recorder *)

Module RecorderFacts.
Import ChatSession RecordAnswer.

(** C4. With less than 30 seconds on the clock, whatever the transcript,
    [saveUserAnswer] shows an error, stores no document and leaves the
    state as it is; stopping the recording shows an error too, and
    neither extends the list of answers, nor asks for the overall
    result, nor stores or submits anything. *)
Theorem short_recording_is_rejected :
  forall (p : Props) (s : State) (w : World),
    (recordingTime s < MIN_RECORD_TIME)%Z ->
    (forall stored,
        saveUserAnswer p stored s w
        = (s, toast (ToastError "Complete minimum recording first") w)
        /\ docs (snd (saveUserAnswer p stored s w)) = docs w
        /\ submitted (snd (saveUserAnswer p stored s w)) = submitted w)
    /\ (forall reply,
           isRecording s = true ->
           let s' := fst (recordUserAnswer p reply s w) in
           let w' := snd (recordUserAnswer p reply s w) in
           toasts w'
           = (toasts w
                ++ [ToastError "Minimum 30 seconds recording required"])%list
           /\ allAnswers s' = allAnswers s
           /\ aiResult s' = aiResult s
           /\ docs w' = docs w
           /\ submitted w' = submitted w).
Proof.
  intros p s w Ht. apply Z.ltb_lt in Ht. split.
  - intros stored. unfold saveUserAnswer. rewrite Ht. auto.
  - intros reply Hrec. unfold recordUserAnswer. rewrite Hrec, Ht.
    unfold stopTimer. cbn [timerRef set_userAnswer set_isRecording].
    destruct (timerRef s) as [[|id]|]; cbn; auto 10.
Qed.

Lemma short_recording_is_rejected_witness :
  let s := mkState Session.longAnswer [] false None true false 29 (Some 1)
             true in
  let w := mkWorld [1] 2 [] [] [] in
  docs (snd (saveUserAnswer Session.props true s w)) = []
  /\ toasts (snd (recordUserAnswer Session.props Session.reply s w))
     = [ToastError "Minimum 30 seconds recording required"].
Proof.
  intros s w.
  destruct (short_recording_is_rejected Session.props s w eq_refl)
    as [Hsave Hstop].
  split.
  - exact (proj1 (proj2 (Hsave true))).
  - exact (proj1 (Hstop Session.reply eq_refl)).
Defined.

(** C3, on the code.  After 30 seconds of recording with the transcript
    "Too short", stopping the recording reports that the answer is too
    short; the save that follows stores the document all the same and
    schedules the submission. *)
Theorem short_transcript_is_saved :
  let stopped := Session.toggle Session.shortAnswer in
  let saved := Session.save stopped in
  userAnswer (fst stopped) = "Too short"
  /\ recordingTime (fst stopped) = 30%Z
  /\ toasts (snd stopped)
     = [ToastError "Your answer should be more than 30 characters"]
  /\ docs (snd saved)
     = [mkDoc (Some "interview-1") "Q1" "A1" "Too short" (JSON.JString [])
          (JSON.JNumber (JSON.mkNumber false 0 0)) (Some "user-1")]
  /\ submitted (snd saved) = ["Too short"].
Proof. repeat split. Qed.

(** [saveUserAnswer] never reads the length of the transcript: once 30
    seconds are on the clock, the document is stored whatever
    [userAnswer] holds. *)
Lemma saveUserAnswer_ignores_length (p : Props) (s : State) (w : World) :
  (MIN_RECORD_TIME <= recordingTime s)%Z ->
  exists d,
    user_ans d = userAnswer s
    /\ docs (snd (saveUserAnswer p true s w)) = (docs w ++ [d])%list.
Proof.
  intros H. apply Z.ltb_ge in H. unfold saveUserAnswer. rewrite H.
  eexists; split; [|reflexivity]. reflexivity.
Qed.

(** C8. When the request fails, or the cleaned reply is not JSON,
    [generateOverallResult] returns the fallback value, whose rating is
    0 and whose feedback is the generic sentence, shows an error toast
    and resets [isAiGenerating]; nothing is thrown.  On the last
    question the recorder stores that value as the overall result, so
    the flow goes on. *)
Theorem generateOverallResult_falls_back :
  forall (reply : Reply) (s : State) (w : World),
    (exists e, reply = Failed e)
    \/ (exists text, reply = Responded text
                     /\ JSON.parse (cleanText text) = None) ->
    generateOverallResult reply s w
    = (fallbackResult, set_isAiGenerating false s,
       toast (ToastError "Error generating overall feedback") w)
    /\ JSON.get fallbackResult "ratings"
       = Some (JSON.JNumber (JSON.mkNumber false 0 0))
    /\ JSON.get fallbackResult "feedback"
       = Some (JSON.JString (JSON.units "Unable to generate feedback"))
    /\ forall p,
        isRecording s = true ->
        (MIN_RECORD_TIME <= recordingTime s)%Z ->
        (30 <= JS.len (JS.trim (userAnswer s)))%Z ->
        isLastQuestion p = true ->
        aiResult (fst (recordUserAnswer p reply s w)) = Some fallbackResult.
Proof.
  intros reply s w H.
  assert (E : generateOverallResult reply s w
              = (fallbackResult, set_isAiGenerating false s,
                 toast (ToastError "Error generating overall feedback") w)).
  { destruct H as [[e ->]|(text & -> & Hp)]; unfold generateOverallResult;
      [|rewrite Hp]; reflexivity. }
  repeat split; auto.
  intros p Hrec Ht Hl Hlast.
  apply Z.ltb_ge in Ht, Hl.
  unfold recordUserAnswer. rewrite Hrec, Ht, Hl, Hlast.
  destruct (stopTimer _ w) as [s1 w1].
  destruct H as [[e ->]|(text & -> & Hp)]; unfold generateOverallResult;
    [|rewrite Hp]; reflexivity.
Qed.

Lemma generateOverallResult_falls_back_witness :
  fst (fst (generateOverallResult (Responded "Sorry, I cannot rate this.")
              initial world0))
  = fallbackResult
  /\ fst (fst (generateOverallResult (Failed (ErrorObject "503 busy"))
                 initial world0))
     = fallbackResult.
Proof.
  split.
  - rewrite (proj1 (generateOverallResult_falls_back
                      (Responded "Sorry, I cannot rate this.")
                      initial world0
                      (or_intror (ex_intro _ _ (conj eq_refl eq_refl))))).
    reflexivity.
  - rewrite (proj1 (generateOverallResult_falls_back
                      (Failed (ErrorObject "503 busy")) initial world0
                      (or_introl (ex_intro _ _ eq_refl)))).
    reflexivity.
Defined.

(** *** The recording timer *)

Lemma cleared_is_gone (id : nat) (w : World) :
  ~ In id (timers (clearInterval id w)).
Proof.
  unfold clearInterval; cbn [timers]. intros H.
  apply filter_In in H as [_ H]. now rewrite Nat.eqb_refl in H.
Qed.

Lemma toast_timers (t : Toast) (w : World) : timers (toast t w) = timers w.
Proof. reflexivity. Qed.

(** Stopping the recording with the record button clears the timer the
    ref holds. *)
Lemma stop_clears_timer (p : Props) (reply : Reply) (s : State) (w : World)
  (id : nat) :
  isRecording s = true -> timerRef s = Some (S id) ->
  timerRef (fst (recordUserAnswer p reply s w)) = None
  /\ ~ In (S id) (timers (snd (recordUserAnswer p reply s w))).
Proof.
  intros Hrec Href. unfold recordUserAnswer, stopTimer. rewrite Hrec.
  cbn [timerRef set_userAnswer set_isRecording]. rewrite Href.
  cbn [Nat.eqb].
  pose proof (cleared_is_gone (S id) w) as Hgone.
  destruct (recordingTime s <? MIN_RECORD_TIME)%Z; [now split|].
  destruct (JS.len (JS.trim (userAnswer s)) <? 30)%Z; [now split|].
  destruct (isLastQuestion p); [|now split].
  unfold generateOverallResult.
  destruct reply as [text|e]; [destruct (JSON.parse (cleanText text))|];
    now split.
Qed.

(** So does the clean-up that runs when the recorder goes away. *)
Lemma unmount_clears_timer (s : State) (w : World) (id : nat) :
  timerRef s = Some (S id) -> ~ In (S id) (timers (unmount s w)).
Proof.
  intros Href. unfold unmount. rewrite Href. apply cleared_is_gone.
Qed.

(** C9, on the code.  A save confirmed while the recording runs stops
    the speech capture and stores the document, but the interval timer
    stays active and goes on counting.  When the record button is then
    used again, the ref is given a new timer, and the first one
    survives the stop and the clean-up of the recorder. *)
Theorem timer_survives_save :
  let saved := Session.savedWhileRecording in
  let again := Session.toggle (Session.toggle saved) in
  isRecording (fst saved) = false
  /\ List.length (docs (snd saved)) = 1
  /\ timers (snd saved) = [1]
  /\ recordingTime (fst saved) = 0%Z
  /\ recordingTime (fst (tick 1 (fst saved) (snd saved))) = 1%Z
  /\ timers (snd again) = [1]
  /\ timers (unmount (fst again) (snd again)) = [1].
Proof. repeat split. Qed.

End RecorderFacts.

(** ** The clean-up of the evaluation reply *)

Module CleanTextFacts.
Import ChatSession RecordAnswer Cleaning.

Lemma has_char_cons (c d : ascii) (r : string) :
  JS.has_char c (String d r) <-> d = c \/ JS.has_char c r.
Proof. reflexivity. Qed.

Lemma trimStart_chars (c : ascii) (s : string) :
  JS.has_char c (JS.trimStart s) -> JS.has_char c s.
Proof.
  induction s as [|d r IH]; simpl; [auto|].
  destruct (JS.is_space d); [|auto].
  intros H; apply has_char_cons; right; auto.
Qed.

Lemma trimEnd_chars (c : ascii) (s : string) :
  JS.has_char c (JS.trimEnd s) -> JS.has_char c s.
Proof.
  induction s as [|d r IH]; simpl; [auto|].
  destruct (JS.trimEnd r) as [|e r'].
  - destruct (JS.is_space d); intros H; [destruct H|].
    apply has_char_cons in H as [H|[]]. now left.
  - intros H. apply has_char_cons in H as [H|H]; [now left|].
    right. now apply IH.
Qed.

Lemma trim_chars (c : ascii) (s : string) :
  JS.has_char c (JS.trim s) -> JS.has_char c s.
Proof. intros H. now apply trimStart_chars, trimEnd_chars. Qed.

(** A character that no alternative starts with is kept where it
    stands, when it is not inside a match. *)
Lemma first_match_markup (c : ascii) (r : string) :
  c <> "`"%char -> String.prefix "json" (String c r) = false ->
  JS.first_match markup (String c r) = None.
Proof.
  intros Hc Hj. unfold JS.first_match, markup. cbn [find]. rewrite Hj.
  cbn [String.prefix].
  destruct (ascii_dec "`" c) as [E|_]; [congruence|reflexivity].
Qed.

Lemma first_match_none_no_backtick (c : ascii) (r : string) :
  JS.first_match markup (String c r) = None -> c <> "`"%char.
Proof.
  intros H ->. unfold JS.first_match, markup in H. cbn [find] in H.
  destruct (String.prefix "json" _); [discriminate|].
  destruct (String.prefix "```" _); [discriminate|].
  cbn in H. destruct r; discriminate.
Qed.

Lemma remove_no_backtick (s : string) :
  forall skip, ~ JS.has_char "`" (JS.remove_from markup skip s).
Proof.
  induction s as [|c r IH]; intros skip; cbn [JS.remove_from].
  - intros [].
  - destruct skip as [|k]; [|apply IH].
    destruct (JS.first_match markup (String c r)) eqn:E; [apply IH|].
    intros H. apply has_char_cons in H as [H|H].
    + now apply first_match_none_no_backtick in E.
    + now apply IH in H.
Qed.

Lemma remove_untouched (s : string) :
  ~ JS.has_char "`" s -> JS.str_includes "json" s = false ->
  JS.remove_all markup s = s.
Proof.
  unfold JS.remove_all.
  induction s as [|c r IH]; intros Hb Hj; [reflexivity|].
  cbn [JS.str_includes] in Hj. apply orb_false_iff in Hj as [Hp Hj].
  cbn [JS.remove_from].
  rewrite first_match_markup; auto.
  - rewrite IH; auto. intros H; apply Hb; now right.
  - intros ->; apply Hb; now left.
Qed.

Lemma remove_after_prefix (a b : string) :
  ~ JS.has_char "`" a -> ~ JS.has_char "j" a ->
  JS.remove_all markup (a ++ "json" ++ b) = a ++ JS.remove_all markup b.
Proof.
  unfold JS.remove_all.
  induction a as [|c r IH]; intros Hb Hj.
  - cbn [append]. cbn. destruct b; reflexivity.
  - change (String c r ++ "json" ++ b) with (String c (r ++ "json" ++ b)).
    change (String c r ++ JS.remove_from markup 0 b)
      with (String c (r ++ JS.remove_from markup 0 b)).
    cbn [JS.remove_from].
    rewrite first_match_markup.
    + rewrite IH; auto; intros H; [apply Hb|apply Hj]; now right.
    + intros ->; apply Hb; now left.
    + cbn [String.prefix].
      destruct (ascii_dec "j" c) as [<-|_]; [|reflexivity].
      exfalso; apply Hj; now left.
Qed.

Lemma prefix_length (a s : string) :
  String.prefix a s = true -> String.length a <= String.length s.
Proof.
  revert s. induction a as [|c a IH]; intros s H; cbn; [lia|].
  destruct s as [|d s]; [discriminate H|]. cbn in H.
  destruct (ascii_dec c d); [|discriminate H].
  apply IH in H. cbn. lia.
Qed.

(** The letters are not found across the start of a later match. *)
Lemma prefix_json_app (c : ascii) (r x b : string) :
  x = "json" \/ x = "`" ->
  String.prefix "json" (String c r ++ x ++ b)
  = String.prefix "json" (String c r).
Proof.
  intros [-> | ->];
    destruct r as [|c2 [|c3 [|c4 r]]]; cbn [String.prefix append];
    repeat (destruct (ascii_dec _ _); try congruence; try reflexivity);
    destruct r; reflexivity.
Qed.

Lemma first_match_plain_app (c : ascii) (r x b : string) :
  x = "json" \/ x = "`" ->
  JS.first_match plain (String c r ++ x ++ b)
  = JS.first_match plain (String c r).
Proof.
  intros Hx. unfold JS.first_match, plain. cbn [find].
  rewrite (prefix_json_app c r x b Hx).
  change (String c r ++ x ++ b) with (String c (r ++ x ++ b)).
  destruct (String.prefix "json" (String c r)); [reflexivity|].
  cbn [String.prefix]. destruct (ascii_dec "`" c); [|reflexivity].
  destruct Hx as [-> | ->]; destruct r; reflexivity.
Qed.

Lemma first_match_plain_length (s a : string) :
  JS.first_match plain s = Some a ->
  String.length a <= String.length s.
Proof.
  intros H. apply find_some in H as [_ H]. now apply prefix_length.
Qed.

Lemma remove_plain_head (x b : string) :
  x = "json" \/ x = "`" ->
  JS.remove_from plain 0 (x ++ b) = JS.remove_from plain 0 b.
Proof. intros [-> | ->]; cbn; destruct b; reflexivity. Qed.

Lemma remove_plain_app (x b : string) :
  x = "json" \/ x = "`" ->
  forall (r : string) (k : nat),
    k <= String.length r ->
    JS.remove_from plain k (r ++ x ++ b)
    = JS.remove_from plain k r ++ JS.remove_from plain 0 b.
Proof.
  intros Hx. induction r as [|c r IH]; intros k Hk.
  - cbn in Hk. replace k with 0 by lia. cbn [append].
    now rewrite remove_plain_head.
  - change (String c r ++ x ++ b) with (String c (r ++ x ++ b)).
    cbn [JS.remove_from]. destruct k as [|k].
    + change (String c (r ++ x ++ b)) with (String c r ++ x ++ b).
      rewrite (first_match_plain_app c r x b Hx).
      destruct (JS.first_match plain (String c r)) as [a|] eqn:E.
      * apply IH. apply first_match_plain_length in E. cbn in E. lia.
      * cbn [append]. f_equal. apply IH. lia.
    + apply IH. cbn in Hk. lia.
Qed.

Lemma prefix_empty (s : string) : String.prefix "" s = true.
Proof. destruct s; reflexivity. Qed.

Lemma prefix_two_backticks (s : string) :
  String.prefix "``" s = true -> exists r, s = "``" ++ r.
Proof.
  destruct s as [|c2 [|c3 r]]; cbn [String.prefix]; intros H;
    try discriminate H;
    destruct (ascii_dec "`" c2) as [<-|]; try discriminate H;
    destruct (ascii_dec "`" c3) as [<-|]; try discriminate H.
  now exists r.
Qed.

Lemma first_match_backtick (s : string) :
  String.prefix "``" s = false ->
  JS.first_match markup (String "`" s) = Some "`".
Proof.
  intros H. unfold JS.first_match, markup. cbn [find].
  change (String.prefix "json" (String "`" s)) with false.
  change (String.prefix "```" (String "`" s)) with (String.prefix "``" s).
  rewrite H.
  change (String.prefix "`" (String "`" s)) with (String.prefix "" s).
  now rewrite prefix_empty.
Qed.

Lemma first_match_fence (r : string) :
  JS.first_match markup ("```" ++ r) = Some "```".
Proof.
  unfold JS.first_match, markup. cbn [find].
  change (String.prefix "json" ("```" ++ r)) with false.
  change (String.prefix "```" ("```" ++ r)) with (String.prefix "" r).
  now rewrite prefix_empty.
Qed.

(** A back-quote is dropped alike as one of a fence and on its own. *)
Lemma remove_backtick_bounded (n : nat) :
  forall s : string,
    String.length s <= n ->
    JS.remove_from markup 0 (String "`" s) = JS.remove_from markup 0 s.
Proof.
  induction n as [|n IH]; intros s Hn.
  - destruct s; [reflexivity|cbn in Hn; lia].
  - destruct (String.prefix "``" s) eqn:E.
    + apply prefix_two_backticks in E as [r ->].
      change (String "`" ("``" ++ r)) with ("```" ++ r).
      cbn in Hn.
      transitivity (JS.remove_from markup 0 r).
      * change ("```" ++ r) with (String "`" (String "`" (String "`" r))).
        cbn [JS.remove_from].
        change (String "`" (String "`" (String "`" r))) with ("```" ++ r).
        rewrite first_match_fence. reflexivity.
      * change ("``" ++ r) with (String "`" (String "`" r)).
        rewrite (IH (String "`" r)) by (cbn; lia).
        now rewrite (IH r) by lia.
    + cbn [JS.remove_from]. now rewrite (first_match_backtick s E).
Qed.

Lemma first_match_other (c : ascii) (r : string) :
  c <> "`"%char ->
  JS.first_match markup (String c r) = JS.first_match plain (String c r).
Proof.
  intros Hc. unfold JS.first_match, markup, plain. cbn [find].
  destruct (String.prefix "json" (String c r)); [reflexivity|].
  cbn [String.prefix].
  destruct (ascii_dec "`" c) as [E|_]; [congruence|reflexivity].
Qed.

(** The fence alternative is redundant. *)
Lemma remove_plain_bounded (n : nat) :
  forall (s : string) (k : nat),
    String.length s <= n ->
    JS.remove_from markup k s = JS.remove_from plain k s.
Proof.
  induction n as [|n IH]; intros s k Hn.
  - destruct s; [reflexivity|cbn in Hn; lia].
  - destruct s as [|c r]; [reflexivity|]. cbn in Hn.
    destruct k as [|k]; [|cbn [JS.remove_from]; apply IH; lia].
    destruct (ascii_dec c "`") as [->|Hc].
    + rewrite (remove_backtick_bounded (String.length r)) by lia.
      rewrite (IH r 0) by lia.
      symmetry. apply (remove_plain_head "`" r). now right.
    + cbn [JS.remove_from]. rewrite (first_match_other c r Hc).
      destruct (JS.first_match plain (String c r));
        [|f_equal]; apply IH; lia.
Qed.

Lemma remove_plain (s : string) :
  JS.remove_all markup s = JS.remove_all plain s.
Proof. apply (remove_plain_bounded (String.length s)). lia. Qed.

Lemma remove_at (x a b : string) :
  x = "json" \/ x = "`" ->
  JS.remove_all markup (a ++ x ++ b)
  = JS.remove_all markup a ++ JS.remove_all markup b.
Proof.
  intros Hx. rewrite !remove_plain. unfold JS.remove_all.
  apply remove_plain_app; [exact Hx|lia].
Qed.

Lemma ink_trimStart (s : string) : ink (JS.trimStart s) = ink s.
Proof.
  induction s as [|c r IH]; [reflexivity|]. cbn [JS.trimStart].
  destruct (JS.is_space c) eqn:E; [|reflexivity].
  cbn [ink]. rewrite E. exact IH.
Qed.

Lemma ink_trimEnd (s : string) : ink (JS.trimEnd s) = ink s.
Proof.
  induction s as [|c r IH]; [reflexivity|]. cbn [JS.trimEnd ink].
  destruct (JS.trimEnd r) as [|d r'].
  - rewrite <- IH. destruct (JS.is_space c) eqn:E; cbn [ink]; [|rewrite E];
      reflexivity.
  - cbn [ink] in *. lia.
Qed.

Lemma ink_trim (s : string) : ink (JS.trim s) = ink s.
Proof. unfold JS.trim. now rewrite ink_trimEnd, ink_trimStart. Qed.

Lemma ink_remove_le (s : string) :
  forall k, ink (JS.remove_from markup k s) <= ink s.
Proof.
  induction s as [|c r IH]; intros k; [cbn; lia|].
  cbn [JS.remove_from ink]. destruct k as [|k].
  - destruct (JS.first_match markup (String c r)) as [a|].
    + specialize (IH (String.length a - 1)). lia.
    + cbn [ink]. specialize (IH 0). lia.
  - specialize (IH k). lia.
Qed.

(** A match starts with a character that is not white space. *)
Lemma first_match_ink (c : ascii) (r a : string) :
  JS.first_match markup (String c r) = Some a -> JS.is_space c = false.
Proof.
  intros H. apply find_some in H as [Hin H].
  cbn [In markup] in Hin.
  destruct Hin as [<-|[<-|[<-|[]]]]; cbn [String.prefix] in H;
    destruct (ascii_dec _ c) as [<-|]; try discriminate H; reflexivity.
Qed.

Lemma first_match_none (c : ascii) (r : string) :
  JS.first_match markup (String c r) = None ->
  c <> "`"%char /\ String.prefix "json" (String c r) = false.
Proof.
  intros H. split; [now apply first_match_none_no_backtick in H|].
  apply (find_none _ _ H "json"). now left.
Qed.

Lemma ink_remove_lt (s : string) :
  JS.has_char "`" s \/ JS.str_includes "json" s = true ->
  ink (JS.remove_all markup s) < ink s.
Proof.
  unfold JS.remove_all.
  induction s as [|c r IH]; intros H.
  - destruct H as [[]|H]; discriminate H.
  - cbn [JS.remove_from ink].
    destruct (JS.first_match markup (String c r)) as [a|] eqn:E.
    + rewrite (first_match_ink c r a E).
      pose proof (ink_remove_le r (String.length a - 1)). lia.
    + apply first_match_none in E as [Hc Hj]. cbn [ink].
      assert (Hr : JS.has_char "`" r \/ JS.str_includes "json" r = true).
      { destruct H as [H|H].
        - apply has_char_cons in H as [H|H]; [congruence|now left].
        - right. cbn [JS.str_includes] in H. rewrite Hj in H. exact H. }
      specialize (IH Hr). lia.
Qed.

Lemma cleanText_changes (text : string) :
  JS.has_char "`" text \/ JS.str_includes "json" text = true ->
  cleanText text <> JS.trim text.
Proof.
  intros H E. apply ink_remove_lt in H.
  assert (E' : ink (cleanText text) = ink (JS.trim text)) by now rewrite E.
  unfold cleanText in E'. rewrite !ink_trim in E'. lia.
Qed.

(** Nothing is added. *)
Lemma remove_chars (c : ascii) (s : string) :
  forall k, JS.has_char c (JS.remove_from markup k s) -> JS.has_char c s.
Proof.
  induction s as [|d r IH]; intros k; cbn [JS.remove_from]; [auto|].
  destruct k as [|k].
  - destruct (JS.first_match markup (String d r)).
    + intros H. right. now apply IH in H.
    + intros H. apply has_char_cons in H as [H|H]; [now left|].
      right. now apply IH in H.
  - intros H. right. now apply IH in H.
Qed.

(** C7, as the claim states it, fails: a reply without any back-quote
    holds no code-fence markup, yet its payload is altered before it is
    parsed, and the feedback returned is not the one the service
    sent. *)
Lemma cleanText_alters_payload :
  let text := Sample.evaluation "7" "Good grasp of json" in
  ~ JS.has_char "`" text
  /\ cleanText text = Sample.evaluation "7" "Good grasp of "
  /\ cleanText text <> JS.trim text
  /\ JSON.parse text = Some (Sample.evaluationValue 7 "Good grasp of json")
  /\ fst (fst (generateOverallResult (Responded text) initial world0))
     = Sample.evaluationValue 7 "Good grasp of ".
Proof.
  cbv zeta. split; [|repeat split].
  - JSFacts.absent_char.
  - discriminate.
Qed.

(** C7, amended.  The reply loses every back-quote, and with them the
    code fences, and every occurrence of the letters "json" that one scan
    from left to right meets, wherever it stands, inside the payload as
    well: a reply is cleaned at an occurrence of either by cleaning what
    comes before it and what comes after it.  Nothing is added, and the
    deletion leaves the reply as it is exactly when it holds neither a
    back-quote nor "json"; such a reply is only trimmed, any other is
    changed beyond the trimming.  What is left is parsed as JSON and the
    value, whatever its shape, is returned as it is, as for a fenced
    evaluation; the scan is not repeated, so that "json" can be left
    where a deletion joins two pieces. *)
Theorem cleanText_strips_backquotes_and_json :
  (forall text, ~ JS.has_char "`" (cleanText text))
  /\ (forall a b,
         ~ JS.has_char "`" a -> ~ JS.has_char "j" a ->
         cleanText (a ++ "json" ++ b)
         = JS.trim (a ++ JS.remove_all markup b))
  /\ (forall text,
         ~ JS.has_char "`" text -> JS.str_includes "json" text = false ->
         cleanText text = JS.trim text)
  /\ (forall text v s w,
         JSON.parse (cleanText text) = Some v ->
         generateOverallResult (Responded text) s w
         = (v, set_isAiGenerating false s, w))
  /\ JSON.parse
       (cleanText (Sample.fenced (Sample.evaluation "8" "Clear answers")))
     = Some (Sample.evaluationValue 8 "Clear answers")
  /\ (forall a b,
         cleanText (a ++ "json" ++ b)
         = JS.trim (JS.remove_all markup a ++ JS.remove_all markup b))
  /\ (forall a b,
         cleanText (a ++ "`" ++ b)
         = JS.trim (JS.remove_all markup a ++ JS.remove_all markup b))
  /\ (forall text c,
         JS.has_char c (cleanText text) -> JS.has_char c text)
  /\ (forall text,
         JS.remove_all markup text = text
         <-> ~ JS.has_char "`" text /\ JS.str_includes "json" text = false)
  /\ (forall text,
         JS.has_char "`" text \/ JS.str_includes "json" text = true ->
         cleanText text <> JS.trim text)
  /\ cleanText "{feedback: jolly good json}" = "{feedback: jolly good }"
  /\ cleanText "jsjsonon" = "json".
Proof.
  split; [|split; [|split; [|split; [|split; [|split; [|split; [|split;
    [|split; [|split; [|split]]]]]]]]]].
  - intros text H. apply trim_chars in H.
    now apply (remove_no_backtick text 0) in H.
  - intros a b Ha Hj. unfold cleanText.
    now rewrite (remove_after_prefix a b Ha Hj).
  - intros text Hb Hj. unfold cleanText.
    now rewrite (remove_untouched text Hb Hj).
  - intros text v s w Hp. unfold generateOverallResult. now rewrite Hp.
  - reflexivity.
  - intros a b. unfold cleanText. rewrite remove_at; [reflexivity|now left].
  - intros a b. unfold cleanText. rewrite remove_at; [reflexivity|now right].
  - intros text c H. apply trim_chars in H.
    now apply (remove_chars c text 0) in H.
  - intros text. split.
    + intros E.
      destruct (JS.str_includes "json" text) eqn:Hj.
      * pose proof (ink_remove_lt text (or_intror Hj)) as Hlt.
        rewrite E in Hlt. lia.
      * split; [|reflexivity]. intros Hb.
        pose proof (ink_remove_lt text (or_introl Hb)) as Hlt.
        rewrite E in Hlt. lia.
    + intros [Hb Hj]. now apply remove_untouched.
  - exact cleanText_changes.
  - reflexivity.
  - reflexivity.
Qed.

Lemma cleanText_strips_backquotes_and_json_witness :
  cleanText ("{feedback: knows " ++ "json" ++ " well}")
  = "{feedback: knows  well}"
  /\ cleanText "  {feedback: 3}  " = "{feedback: 3}"
  /\ cleanText "```{feedback: 3}```" <> JS.trim "```{feedback: 3}```".
Proof.
  split; [|split].
  - rewrite (proj1 (proj2 cleanText_strips_backquotes_and_json)
               "{feedback: knows " " well}").
    + reflexivity.
    + JSFacts.absent_char.
    + JSFacts.absent_char.
  - rewrite (proj1 (proj2 (proj2 cleanText_strips_backquotes_and_json))
               "  {feedback: 3}  ").
    + reflexivity.
    + JSFacts.absent_char.
    + reflexivity.
  - apply (proj1 (proj2 (proj2 (proj2 (proj2 (proj2 (proj2 (proj2 (proj2
             (proj2 cleanText_strips_backquotes_and_json)))))))))
             "```{feedback: 3}```").
    left. cbn. auto.
Defined.

End CleanTextFacts.

(** ** The intake form's AI request *)

Module IntakeFacts.
Import ChatSession FormMockInterview.

Section Platform.
Variable syntaxErrorMessage : string -> string.

(** C6. When the text holds a "[" and, after it, a "]", so that it
    reads [pre ++ "[" ++ mid ++ "]" ++ post] with no "[" in [pre] and
    no "]" in [post], the two indices found are those of these
    brackets, and the function returns what [JSON.parse] gives for
    the piece from the one to the other, both included, or throws its
    syntax error.  The reply of the example gives the array with the
    one question. *)
Theorem cleanAiResponse_parses_bracketed_piece :
  (forall pre mid post : string,
      ~ JS.has_char "[" pre -> ~ JS.has_char "]" post ->
      let text := pre ++ "[" ++ mid ++ "]" ++ post in
      JS.indexOf "[" text = JS.len pre
      /\ JS.lastIndexOf "]" text = (JS.len pre + JS.len mid + 1)%Z
      /\ cleanAiResponse syntaxErrorMessage text
         = match JSON.parse ("[" ++ mid ++ "]") with
           | Some v => Ok v
           | None =>
               Throw (ErrorObject
                        (syntaxErrorMessage ("[" ++ mid ++ "]")))
           end)
  /\ cleanAiResponse syntaxErrorMessage Sample.questionReply = Ok Sample.questionValue.
Proof.
  split; [|reflexivity].
  intros pre mid post Hpre Hpost text.
  assert (Hstart : JS.indexOf "[" text = JS.len pre).
  { unfold text. change ("[" ++ mid ++ "]" ++ post)
      with (String "[" (mid ++ "]" ++ post)).
    now apply JSFacts.indexOf_first. }
  assert (Hend : JS.lastIndexOf "]" text
                 = (JS.len pre + JS.len mid + 1)%Z).
  { unfold text.
    replace (pre ++ "[" ++ mid ++ "]" ++ post)
      with ((pre ++ "[" ++ mid) ++ String "]" post).
    - rewrite JSFacts.lastIndexOf_last by assumption.
      rewrite !JSFacts.len_app. change (JS.len "[") with 1%Z. lia.
    - now rewrite !JSFacts.append_assoc. }
  repeat split; auto.
  unfold cleanAiResponse. rewrite Hstart, Hend.
  assert (Hslice : JS.slice text (JS.len pre)
                     (JS.len pre + JS.len mid + 1 + 1)
                   = "[" ++ mid ++ "]").
  { unfold text.
    replace (pre ++ "[" ++ mid ++ "]" ++ post)
      with (pre ++ ("[" ++ mid ++ "]") ++ post)
      by (now rewrite !JSFacts.append_assoc).
    replace (JS.len pre + JS.len mid + 1 + 1)%Z
      with (JS.len pre + JS.len ("[" ++ mid ++ "]"))%Z.
    - apply JSFacts.slice_middle.
    - rewrite !JSFacts.len_app.
      change (JS.len "[") with 1%Z. change (JS.len "]") with 1%Z. lia. }
  rewrite Hslice. reflexivity.
Qed.

(** C10. On a text without "[" or without "]" the index found for the
    missing bracket is -1, the piece cut out is empty or the single
    character "]", which is not JSON, and the function throws the
    syntax error of [JSON.parse]; so it does on the empty text. *)
Theorem cleanAiResponse_throws_without_brackets :
  (forall text : string,
      ~ JS.has_char "[" text \/ ~ JS.has_char "]" text ->
      (~ JS.has_char "[" text -> JS.indexOf "[" text = (-1)%Z)
      /\ (~ JS.has_char "]" text -> JS.lastIndexOf "]" text = (-1)%Z)
      /\ exists piece,
          JS.slice text (JS.indexOf "[" text)
            (JS.lastIndexOf "]" text + 1)
          = piece
          /\ (piece = "" \/ piece = "]")
          /\ JSON.parse piece = None
          /\ cleanAiResponse syntaxErrorMessage text
             = Throw (ErrorObject (syntaxErrorMessage piece)))
  /\ cleanAiResponse syntaxErrorMessage "" = Throw (ErrorObject (syntaxErrorMessage "")).
Proof.
  split; [|reflexivity].
  intros text H.
  split; [apply JSFacts.indexOf_absent|].
  split; [apply JSFacts.lastIndexOf_absent|].
  assert (Hpiece :
            JS.slice text (JS.indexOf "[" text)
              (JS.lastIndexOf "]" text + 1) = ""
            \/ JS.slice text (JS.indexOf "[" text)
                 (JS.lastIndexOf "]" text + 1) = "]").
  { pose proof (JSFacts.lastIndexOf_bounds "]" text) as Hb.
    pose proof (JSFacts.indexOf_lower "[" text) as Hi.
    pose proof (JSFacts.len_nonneg text) as Hn.
    unfold JS.slice, JS.clamp.
    destruct (Z.ltb_spec (JS.lastIndexOf "]" text + 1) 0); [lia|].
    destruct (Z.eq_dec (JS.lastIndexOf "]" text) (-1)) as [E|E].
    - left. rewrite E. cbn [Z.add Z.opp Z.pos_sub].
      rewrite (Z.min_l 0) by lia.
      match goal with |- context [Z.max (0 - ?from) 0] =>
        replace (Z.max (0 - from) 0) with 0%Z
          by (destruct (Z.ltb_spec (JS.indexOf "[" text) 0); lia) end.
      apply JSFacts.substring_n_0.
    - destruct H as [H|H];
        [|apply JSFacts.lastIndexOf_absent in H; contradiction].
      rewrite (JSFacts.indexOf_absent _ _ H).
      replace (-1 <? 0)%Z with true by reflexivity.
      rewrite Z.min_l, Z.max_l by lia.
      destruct (Z.eq_dec (JS.lastIndexOf "]" text) (JS.len text - 1))
        as [L|L].
      + right.
        replace (Z.max (JS.lastIndexOf "]" text + 1 - (JS.len text + -1)) 0)
          with 1%Z by lia.
        replace (JS.len text + -1)%Z with (JS.lastIndexOf "]" text) by lia.
        apply JSFacts.lastIndexOf_char. lia.
      + left.
        replace (Z.max (JS.lastIndexOf "]" text + 1 - (JS.len text + -1)) 0)
          with 0%Z by lia.
        apply JSFacts.substring_n_0. }
  unfold cleanAiResponse.
  destruct Hpiece as [E|E]; rewrite E; eexists; repeat split; auto.
Qed.

End Platform.

(** *** The retry loop *)

(** Three iterations of the loop, with its tests on [attempts] decided. *)
Ltac unroll_retryLoop :=
  cbn [retryLoop];
  change (0 <? maxAttempts)%Z with true;
  change (0 <? maxAttempts - 1)%Z with true;
  change (0 + 1 <? maxAttempts)%Z with true;
  change (0 + 1 <? maxAttempts - 1)%Z with true;
  change (0 + 1 + 1 <? maxAttempts)%Z with true;
  change (0 + 1 + 1 <? maxAttempts - 1)%Z with false;
  cbv iota.

(** The loop needs no more than its three iterations: more fuel
    changes nothing. *)
Lemma retryLoop_fuel (syntaxErrorMessage : string -> string)
  (sendMessage : nat -> Reply) (fuel : nat) :
  3 <= fuel ->
  retryLoop syntaxErrorMessage sendMessage fuel 0 0
  = generateQuestions syntaxErrorMessage sendMessage.
Proof.
  intros H. destruct fuel as [|[|[|fuel]]]; try lia.
  unfold generateQuestions. change (Z.to_nat maxAttempts) with 3.
  unroll_retryLoop.
  destruct (attempt _ _ 0) as [|e0]; [reflexivity|].
  destruct (isBusy e0); [|reflexivity].
  destruct (attempt _ _ 1) as [|e1]; [reflexivity|].
  destruct (isBusy e1); [|reflexivity].
  destruct (attempt _ _ 2) as [|e2]; [reflexivity|].
  now rewrite !andb_false_r.
Qed.

(** C5. Whatever the service replies, [generateQuestions] sends at most
    3 requests and ends by returning a parsed value or throwing.  An
    attempt that succeeds returns its value at once.  An attempt that
    fails with an [Error] whose message holds "503" is followed, when it
    is the first or the second, by a log line, a pause of 2000 ms and
    the next attempt: two such failures and a success return the value
    of the third attempt.  The failure of the third attempt, of
    whatever kind, and any other failure of an earlier attempt are
    thrown at once, with no further request. *)
Theorem generateQuestions_retry_policy :
  forall (syntaxErrorMessage : string -> string)
         (sendMessage : nat -> Reply),
    let attempt := attempt syntaxErrorMessage sendMessage in
    let result := generateQuestions syntaxErrorMessage sendMessage in
    let retried :=
      [Call 0; Log 1; Sleep 2000; Call 1; Log 2; Sleep 2000; Call 2] in
    calls_of (snd result) <= 3
    /\ ((exists v, fst result = Returned v)
        \/ (exists e, fst result = Threw e))
    /\ (forall v, attempt 0 = Ok v -> result = (Returned v, [Call 0]))
    /\ (forall e0,
           attempt 0 = Throw e0 -> isBusy e0 = false ->
           result = (Threw e0, [Call 0]))
    /\ (forall e0 v,
           attempt 0 = Throw e0 -> isBusy e0 = true ->
           attempt 1 = Ok v ->
           result = (Returned v, [Call 0; Log 1; Sleep 2000; Call 1]))
    /\ (forall e0 e1,
           attempt 0 = Throw e0 -> isBusy e0 = true ->
           attempt 1 = Throw e1 -> isBusy e1 = false ->
           result = (Threw e1, [Call 0; Log 1; Sleep 2000; Call 1]))
    /\ (forall e0 e1 v,
           attempt 0 = Throw e0 -> isBusy e0 = true ->
           attempt 1 = Throw e1 -> isBusy e1 = true ->
           attempt 2 = Ok v ->
           result = (Returned v, retried))
    /\ (forall e0 e1 e2,
           attempt 0 = Throw e0 -> isBusy e0 = true ->
           attempt 1 = Throw e1 -> isBusy e1 = true ->
           attempt 2 = Throw e2 ->
           result = (Threw e2, retried)).
Proof.
  intros msg send attempt result retried.
  unfold result, retried, generateQuestions.
  change (Z.to_nat maxAttempts) with 3.
  unroll_retryLoop. fold attempt.
  change (0 + 1)%Z with 1%Z. change (1 + 1)%Z with 2%Z.
  destruct (attempt 0) as [v0|e0] eqn:A0.
  { cbn. repeat split; eauto 6; intros; congruence. }
  destruct (isBusy e0) eqn:B0.
  2:{ cbn. repeat split; eauto 6; intros; congruence. }
  destruct (attempt 1) as [v1|e1] eqn:A1.
  { cbn. repeat split; eauto 6; intros; congruence. }
  destruct (isBusy e1) eqn:B1.
  2:{ cbn. repeat split; eauto 6; intros; congruence. }
  destruct (attempt 2) as [v2|e2] eqn:A2.
  - cbn. repeat split; eauto 6; intros; congruence.
  - rewrite andb_false_r. cbn. repeat split; eauto 6; intros; congruence.
Qed.

(** The platform and the services of the examples: the syntax error
    quotes the text, the service is busy twice and then replies. *)
Lemma generateQuestions_retry_policy_witness :
  generateQuestions (fun text => "Unexpected token in " ++ text)
    (fun n => match n with
              | 0 | 1 => Failed (ErrorObject "[503 Service Unavailable]")
              | _ => Responded Sample.questionReply
              end)
  = (Returned Sample.questionValue,
     [Call 0; Log 1; Sleep 2000; Call 1; Log 2; Sleep 2000; Call 2]).
Proof.
  apply (proj1 (proj2 (proj2 (proj2 (proj2 (proj2 (proj2
           (generateQuestions_retry_policy
              (fun text => "Unexpected token in " ++ text)
              (fun n => match n with
                        | 0 | 1 =>
                            Failed (ErrorObject "[503 Service Unavailable]")
                        | _ => Responded Sample.questionReply
                        end))))))))
           (ErrorObject "[503 Service Unavailable]")
           (ErrorObject "[503 Service Unavailable]")
           Sample.questionValue);
    reflexivity.
Defined.

Lemma cleanAiResponse_parses_bracketed_piece_witness :
  cleanAiResponse (fun text => "Unexpected token in " ++ text)
    ("Sure: " ++ "[" ++ "true, null" ++ "]" ++ " Good luck!")
  = Ok (JSON.JArray [JSON.JBool true; JSON.JNull]).
Proof.
  assert (Hpre : ~ JS.has_char "[" "Sure: ").
  { JSFacts.absent_char. }
  assert (Hpost : ~ JS.has_char "]" " Good luck!").
  { JSFacts.absent_char. }
  rewrite (proj2 (proj2 (proj1 (cleanAiResponse_parses_bracketed_piece
                                  (fun text => "Unexpected token in " ++ text))
                           "Sure: " "true, null" " Good luck!" Hpre Hpost))).
  reflexivity.
Defined.

Lemma cleanAiResponse_throws_without_brackets_witness :
  cleanAiResponse (fun text => "Unexpected token in " ++ text)
    "I cannot help with that]"
  = Throw (ErrorObject "Unexpected token in ]").
Proof.
  destruct (proj1 (cleanAiResponse_throws_without_brackets
                     (fun text => "Unexpected token in " ++ text))
              "I cannot help with that]") as (_ & _ & piece & Hs & _ & _ & Hc).
  - left. JSFacts.absent_char.
  - rewrite Hc, <- Hs. reflexivity.
Defined.

End IntakeFacts.

(** * Further properties *)

(** ** The cross-question and the speech of the flow *)

Module SpeechFacts.
Import QuestionSection QuestionSpeech.

Lemma generateCrossQuestion_nonempty (ans : string) :
  String.eqb (generateCrossQuestion ans) "" = false.
Proof.
  unfold generateCrossQuestion.
  destruct (String.eqb ans ""); [reflexivity|].
  destruct (JS.index _ _) as [keyword|]; [|reflexivity].
  destruct (String.eqb keyword ""); reflexivity.
Qed.

Lemma index_succ (qs : list QA) (i : nat) (q : QA) :
  nth_error qs i = Some q -> JS.index qs (Z.of_nat i) = Some q.
Proof.
  intros H. unfold JS.index.
  destruct (Z.ltb_spec (Z.of_nat i) 0); [lia|]. now rewrite Nat2Z.id.
Qed.

(** After a main answer the controller reads the cross-question derived
    from it, never the main question again; after the follow-up answer of
    a question that is not the last it reads the next question. *)
Theorem autoSpeak_after_submission :
  forall (supported : bool) (qs : list QA) (s s' : State) (ans : string)
         (fx : list Effect),
    handleNextQuestion qs s ans = Returns s' fx ->
    (isCrossQuestion s = false ->
     autoSpeak supported qs s'
     = speakQuestion supported (generateCrossQuestion ans))
    /\ (forall i q',
           isCrossQuestion s = true ->
           activeIndex s = Z.of_nat i ->
           nth_error qs (S i) = Some q' ->
           autoSpeak supported qs s' = speakQuestion supported (question q')).
Proof.
  intros supported qs s s' ans fx H. split.
  - intros Hc. unfold handleNextQuestion in H. rewrite Hc in H.
    injection H as <- _. unfold autoSpeak. cbn [isCrossQuestion crossQuestionText].
    now rewrite generateCrossQuestion_nonempty.
  - intros i q' Hc Hi Hq'. unfold handleNextQuestion in H.
    rewrite Hc, Hi in H. cbn [negb] in H.
    assert (Hlen : S i < List.length qs)
      by (apply nth_error_Some; now rewrite Hq').
    destruct (nth_error qs i) as [q|] eqn:Hq;
      [|apply nth_error_None in Hq; lia].
    rewrite (index_succ qs i q Hq) in H.
    destruct (Z.ltb_spec (Z.of_nat i) (Z.of_nat (List.length qs) - 1));
      [|lia].
    injection H as <- _. unfold autoSpeak.
    cbn [isCrossQuestion crossQuestionText activeIndex andb].
    replace (Z.of_nat i + 1)%Z with (Z.of_nat (S i)) by lia.
    now rewrite (index_succ qs (S i) q' Hq').
Qed.

Lemma autoSpeak_after_submission_witness :
  autoSpeak true [mkQA "Q1" "A1"; mkQA "Q2" "A2"]
    (mkState false 0 false [] true "What is Rust?" "I like Rust")
  = [Cancel; Speak "What is Rust?"].
Proof.
  apply (proj1 (autoSpeak_after_submission true
                  [mkQA "Q1" "A1"; mkQA "Q2" "A2"] initial
                  (mkState false 0 false [] true "What is Rust?" "I like Rust")
                  "I like Rust" [SpeechCancel] eq_refl) eq_refl).
Defined.

Lemma lower_upper (c : ascii) :
  JS.lower_char (JS.upper_char c) = JS.lower_char c.
Proof. destruct c as [[] [] [] [] [] [] [] []]; reflexivity. Qed.

Lemma lower_lower (c : ascii) :
  JS.lower_char (JS.lower_char c) = JS.lower_char c.
Proof. destruct c as [[] [] [] [] [] [] [] []]; reflexivity. Qed.

Lemma map_chars_empty (f : ascii -> ascii) (s : string) :
  String.eqb (JS.map_chars f s) "" = String.eqb s "".
Proof. destruct s; reflexivity. Qed.

Lemma lower_of_upper (s : string) :
  JS.map_chars JS.lower_char (JS.map_chars JS.upper_char s)
  = JS.map_chars JS.lower_char s.
Proof.
  induction s as [|c r IH]; cbn [JS.map_chars]; [reflexivity|].
  now rewrite lower_upper, IH.
Qed.

Lemma lower_of_lower (s : string) :
  JS.map_chars JS.lower_char (JS.map_chars JS.lower_char s)
  = JS.map_chars JS.lower_char s.
Proof.
  induction s as [|c r IH]; cbn [JS.map_chars]; [reflexivity|].
  now rewrite lower_lower, IH.
Qed.

(** The cross-question does not depend on the case of the letters of the
    answer. *)
Theorem generateCrossQuestion_ignores_case :
  forall ans : string,
    generateCrossQuestion (JS.toUpperCase ans) = generateCrossQuestion ans
    /\ generateCrossQuestion (JS.toLowerCase ans) = generateCrossQuestion ans.
Proof.
  intros ans. unfold generateCrossQuestion, JS.toUpperCase, JS.toLowerCase.
  rewrite !map_chars_empty.
  now rewrite lower_of_upper, lower_of_lower.
Qed.

End SpeechFacts.

(** ** The flow under any sequence of submissions *)

Module FlowInvariant.
Import QuestionSection FlowState.

Lemma index_in_range (qs : list QA) (i : Z) :
  (0 <= i < Z.of_nat (List.length qs))%Z -> exists q, JS.index qs i = Some q.
Proof.
  intros H. unfold JS.index. destruct (Z.ltb_spec i 0); [lia|].
  destruct (nth_error qs (Z.to_nat i)) as [q|] eqn:E; [now exists q|].
  apply nth_error_None in E. lia.
Qed.

Lemma index_out_of_range (qs : list QA) (i : Z) :
  (i < 0 \/ Z.of_nat (List.length qs) <= i)%Z -> JS.index qs i = None.
Proof.
  intros H. unfold JS.index. destruct (Z.ltb_spec i 0); [reflexivity|].
  apply nth_error_None. lia.
Qed.

Lemma throws_past_cancel (qs : list QA) (s : State) (ans : string) :
  handleNextQuestion qs s ans = TypeError
  <-> isCrossQuestion s = true
      /\ (activeIndex s < 0
          \/ Z.of_nat (List.length qs) <= activeIndex s)%Z.
Proof.
  unfold handleNextQuestion. split.
  - destruct (isCrossQuestion s); cbn [negb]; [|discriminate].
    intros H. split; [reflexivity|].
    destruct (Z.lt_ge_cases (activeIndex s) 0) as [|Hlo]; [now left|].
    destruct (Z.lt_ge_cases (activeIndex s) (Z.of_nat (List.length qs)))
      as [Hhi|]; [|now right].
    destruct (index_in_range qs (activeIndex s) (conj Hlo Hhi)) as [q Hq].
    rewrite Hq in H.
    destruct (activeIndex s <? Z.of_nat (List.length qs) - 1)%Z; discriminate.
  - intros [-> H]. cbn [negb]. now rewrite (index_out_of_range qs _ H).
Qed.

(** The handler throws in exactly two cases: in a window without
    [speechSynthesis], whatever the state and the answer, at its first
    statement; and, in a window that has it, on a follow-up answer when
    the index points outside the list of questions, as it does for an
    empty list.  So with speech synthesis a main answer never throws,
    and without it every answer does. *)
Theorem handleNextQuestion_throws_iff :
  forall (supported : bool) (qs : list QA) (s : State) (ans : string),
    handleNextQuestionIn supported qs s ans = TypeError
    <-> supported = false
        \/ (isCrossQuestion s = true
            /\ (activeIndex s < 0
                \/ Z.of_nat (List.length qs) <= activeIndex s)%Z).
Proof.
  intros supported qs s ans. unfold handleNextQuestionIn.
  destruct supported; cbn [negb].
  - rewrite throws_past_cancel. split; [now right|].
    intros [H|H]; [discriminate H|exact H].
  - split; [now left|reflexivity].
Qed.

Lemma handleNextQuestion_step (qs : list QA) (s : State) (ans : string) :
  in_range qs s ->
  exists s' fx,
    handleNextQuestion qs s ans = Returns s' fx
    /\ in_range qs s' /\ accounted s' = S (accounted s)
    /\ (activeIndex s <= activeIndex s')%Z.
Proof.
  intros H. unfold handleNextQuestion, accounted, in_range in *.
  destruct (isCrossQuestion s); cbn [negb].
  - destruct (index_in_range qs _ H) as [q ->].
    destruct (Z.ltb_spec (activeIndex s) (Z.of_nat (List.length qs) - 1));
      eexists _, _; (split; [reflexivity|]);
      cbn [activeIndex allAnswers isCrossQuestion];
      rewrite length_app; cbn [List.length];
      (split; [lia|]); split; lia.
  - eexists _, _; split; [reflexivity|].
    cbn [activeIndex allAnswers isCrossQuestion].
    split; [lia|]. split; lia.
Qed.

Lemma drive_in_range (qs : list QA) (subs : list string) :
  forall s,
    in_range qs s ->
    exists steps,
      drive qs s subs = Some steps
      /\ List.length steps = List.length subs
      /\ forall k s' fx,
          nth_error steps k = Some (s', fx) ->
          in_range qs s' /\ accounted s' = accounted s + S k
          /\ (activeIndex s <= activeIndex s')%Z.
Proof.
  induction subs as [|ans rest IH]; intros s Hs.
  - exists []. repeat split; auto; destruct k; discriminate.
  - destruct (handleNextQuestion_step qs s ans Hs)
      as (s1 & fx1 & Hstep & Hr & Hacc & Hmono).
    destruct (IH s1 Hr) as (steps & Hrun & Hlen & Hall).
    exists ((s1, fx1) :: steps). cbn [drive]. rewrite Hstep, Hrun.
    split; [reflexivity|]. split; [cbn [List.length]; lia|].
    intros [|k] s' fx Hk.
    + injection Hk as <- <-. split; [exact Hr|]. split; [lia|exact Hmono].
    + destruct (Hall k s' fx Hk) as (H1 & H2 & H3).
      split; [exact H1|]. split; lia.
Qed.

(** For a non-empty list of questions the handler never throws, whatever
    answers are submitted and however many: the index stays inside the
    list, and after [k] submissions the transcript
    holds one record for every two of them, the controller waiting for
    the follow-up answer exactly when [k] is odd. *)
Theorem drive_never_throws :
  forall (qs : list QA) (subs : list string),
    qs <> [] ->
    exists steps,
      drive qs initial subs = Some steps
      /\ List.length steps = List.length subs
      /\ forall k s fx,
          nth_error steps k = Some (s, fx) ->
          (0 <= activeIndex s < Z.of_nat (List.length qs))%Z
          /\ 2 * List.length (allAnswers s)
             + (if isCrossQuestion s then 1 else 0) = S k.
Proof.
  intros qs subs Hne.
  destruct (drive_in_range qs subs initial) as (steps & Hrun & Hlen & Hall).
  { unfold in_range; cbn. destruct qs; [contradiction|cbn [List.length]; lia]. }
  exists steps. split; [exact Hrun|]. split; [exact Hlen|].
  intros k s fx Hk. destruct (Hall k s fx Hk) as (H1 & H2 & _).
  split; [exact H1|exact H2].
Qed.

Lemma drive_never_throws_witness :
  exists steps,
    drive [mkQA "Q1" "A1"] initial ["a"; "b"; "c"] = Some steps
    /\ List.length steps = 3.
Proof.
  destruct (drive_never_throws [mkQA "Q1" "A1"] ["a"; "b"; "c"])
    as (steps & Hrun & Hlen & _).
  - discriminate.
  - exists steps. split; [exact Hrun|exact Hlen].
Defined.

(** Once the speech has ended, the replay button reads again exactly what
    the controller read by itself after the last submission. *)
Theorem replay_repeats_autoSpeak :
  forall (supported : bool) (qs : list QA) (s s' : State) (ans : string)
         (fx : list Effect),
    (0 <= activeIndex s < Z.of_nat (List.length qs))%Z ->
    handleNextQuestion qs s ans = Returns s' fx ->
    QuestionSpeech.replay supported qs (QuestionSpeech.onend s')
    = Some (QuestionSpeech.onend s', QuestionSpeech.autoSpeak supported qs s').
Proof.
  intros supported qs s s' ans fx Hr H.
  destruct (handleNextQuestion_step qs s ans Hr)
    as (s1 & fx1 & Hstep & Hr1 & _).
  rewrite Hstep in H. injection H as <- <-.
  unfold QuestionSpeech.replay, QuestionSpeech.autoSpeak, QuestionSpeech.onend.
  cbn [isPlaying isCrossQuestion crossQuestionText activeIndex].
  destruct (isCrossQuestion s1) eqn:Hc.
  - assert (E : String.eqb (crossQuestionText s1) "" = false).
    { unfold handleNextQuestion in Hstep.
      destruct (isCrossQuestion s); cbn [negb] in Hstep.
      - destruct (JS.index qs (activeIndex s)); [|discriminate].
        destruct (_ <? _)%Z; injection Hstep as <- _; discriminate Hc.
      - injection Hstep as <- _.
        apply SpeechFacts.generateCrossQuestion_nonempty. }
    now rewrite E.
  - cbn [andb]. destruct (index_in_range qs _ Hr1) as [q ->]. reflexivity.
Qed.

Lemma replay_repeats_autoSpeak_witness :
  QuestionSpeech.replay true [mkQA "Q1" "A1"]
    (QuestionSpeech.onend
       (mkState false 0 false [] true "What is Rust?" "I like Rust"))
  = Some (QuestionSpeech.onend
            (mkState false 0 false [] true "What is Rust?" "I like Rust"),
          [QuestionSpeech.Cancel; QuestionSpeech.Speak "What is Rust?"]).
Proof.
  apply (replay_repeats_autoSpeak true [mkQA "Q1" "A1"] initial
           (mkState false 0 false [] true "What is Rust?" "I like Rust")
           "I like Rust" [SpeechCancel]).
  - cbn. lia.
  - reflexivity.
Defined.

End FlowInvariant.

(** ** Whole recordings and the save button *)

Module RecordingFacts.
Import ChatSession RecordAnswer Recording.

Lemma set_recordingTime_twice (a b : Z) (s : State) :
  set_recordingTime a (set_recordingTime b s) = set_recordingTime a s.
Proof. reflexivity. Qed.

Lemma ticks_active (n : nat) (id : nat) (w : World) :
  In id (timers w) ->
  forall s,
    Session.ticks n id (s, w)
    = (set_recordingTime (recordingTime s + Z.of_nat n) s, w).
Proof.
  intros Hin. assert (E : existsb (Nat.eqb id) (timers w) = true).
  { apply existsb_exists. exists id. split; [exact Hin|apply Nat.eqb_refl]. }
  induction n as [|n IH]; intros s.
  - cbn [Session.ticks]. destruct s; cbn. now rewrite Z.add_0_r.
  - cbn [Session.ticks fst snd]. unfold tick. rewrite E, IH.
    rewrite set_recordingTime_twice. cbn [recordingTime set_recordingTime].
    f_equal. f_equal. lia.
Qed.

Lemma clear_fresh (id : nat) (ts : list nat) :
  ~ In id ts ->
  filter (fun t => negb (t =? id)%nat) (ts ++ [id]) = ts.
Proof.
  intros H. rewrite filter_app. cbn [filter]. rewrite Nat.eqb_refl.
  cbn [negb]. rewrite app_nil_r.
  induction ts as [|t r IH]; [reflexivity|]. cbn [filter].
  destruct (Nat.eqb_spec t id) as [->|_].
  - exfalso; apply H; now left.
  - cbn [negb]. rewrite IH; [reflexivity|]. intros Hr; apply H; now right.
Qed.

Lemma toast_timers' (t : Toast) (w : World) :
  timers (toast t w) = timers w.
Proof. reflexivity. Qed.

Lemma start_recording (p : Props) (reply : Reply) (s : State) (w : World) :
  isRecording s = false ->
  recordUserAnswer p reply s w
  = (set_timerRef (Some (nextTimer w))
       (set_isRecording true (set_recordingTime 0 (set_userAnswer "" s))),
     snd (setInterval w)).
Proof. intros H. unfold recordUserAnswer. now rewrite H. Qed.

Lemma generateOverallResult_value (reply : Reply) (s : State) (w : World) :
  fst (fst (generateOverallResult reply s w)) = evaluated reply.
Proof.
  unfold generateOverallResult, evaluated.
  destruct reply as [text|e]; [destruct (JSON.parse (cleanText text))|];
    reflexivity.
Qed.

Lemma generateOverallResult_frame (reply : Reply) (s : State) (w : World) :
  let r := generateOverallResult reply s w in
  snd (fst r) = set_isAiGenerating false s
  /\ timers (snd r) = timers w /\ docs (snd r) = docs w
  /\ submitted (snd r) = submitted w.
Proof.
  unfold generateOverallResult.
  destruct reply as [text|e]; [destruct (JSON.parse (cleanText text))|];
    cbn; auto.
Qed.

Lemma recording_facts (p : Props) (reply : Reply) (transcripts : list string)
  (interimResult : string) (n : nat) (s : State) (w : World) :
  isRecording s = false ->
  World_ok w ->
  let r := recording p reply transcripts interimResult n s w in
  let transcript := combineSpeech transcripts interimResult in
  let accepted :=
    (30 <=? Z.of_nat n)%Z && (30 <=? JS.len (JS.trim transcript))%Z in
  allAnswers (fst r)
  = (if accepted then allAnswers s ++ [transcript] else allAnswers s)%list
  /\ isRecording (fst r) = false
  /\ timerRef (fst r) = None
  /\ timers (snd r) = timers w
  /\ recordingTime (fst r) = Z.of_nat n
  /\ docs (snd r) = docs w
  /\ submitted (snd r) = submitted w
  /\ aiResult (fst r)
     = (if accepted && isLastQuestion p then Some (evaluated reply)
        else aiResult s).
Proof.
  intros Hidle [Hpos Hlt] r transcript accepted.
  assert (Hfresh : ~ In (nextTimer w) (timers w))
    by (intros H; apply Hlt in H; lia).
  unfold accepted, r, recording.
  rewrite (start_recording p reply s w Hidle). cbn [fst snd].
  rewrite ticks_active by (cbn [timers]; apply in_or_app; right; now left).
  cbn [fst snd]. fold transcript.
  set (s3 := set_recordingTime _ _).
  set (w3 := snd (setInterval w)).
  assert (Hrec : isRecording s3 = true) by reflexivity.
  assert (Href : timerRef s3 = Some (nextTimer w)) by reflexivity.
  assert (Hans : userAnswer s3 = transcript) by reflexivity.
  assert (Htime : recordingTime s3 = Z.of_nat n) by (cbn; lia).
  assert (Hall : allAnswers s3 = allAnswers s) by reflexivity.
  assert (Hclear : timers (clearInterval (nextTimer w) w3) = timers w).
  { unfold clearInterval, w3. cbn [timers]. now apply clear_fresh. }
  unfold recordUserAnswer, stopTimer. rewrite Hrec.
  cbn [timerRef set_userAnswer set_isRecording]. rewrite Href, Hans, Htime, Hall.
  destruct (Nat.eqb_spec (nextTimer w) 0) as [E|_]; [lia|].
  unfold MIN_RECORD_TIME.
  rewrite (Z.leb_antisym (Z.of_nat n) 30), (Z.leb_antisym _ 30).
  destruct (Z.of_nat n <? 30)%Z; cbn [negb andb fst snd].
  { rewrite toast_timers', Hclear. cbn. auto 10. }
  destruct (JS.len (JS.trim transcript) <? 30)%Z; cbn [negb fst snd].
  { rewrite toast_timers', Hclear. cbn. auto 10. }
  destruct (isLastQuestion p); cbn [fst snd].
  2:{ rewrite toast_timers', Hclear. cbn. auto 10. }
  match goal with |- context [generateOverallResult ?a ?b ?c] =>
    pose proof (generateOverallResult_frame a b c) as Hf;
    pose proof (generateOverallResult_value a b c) as Hv;
    destruct (generateOverallResult a b c) as [[v s4] w4] end.
  cbn [fst snd] in Hf, Hv. destruct Hf as (-> & Ht4 & Hd4 & Hsub4).
  cbn [fst snd]. rewrite Ht4, Hd4, Hsub4, Hclear, Hv. cbn. auto 10.
Qed.

(** One recording, from the record button to the record button, extends
    the list of answers by the transcript heard exactly when the timer
    ticked 30 times or more and the trimmed transcript has 30 characters
    or more; either way the recording is stopped, the timer it started is
    cleared and no other timer is touched, nothing is stored or
    submitted, and a late tick of the cleared timer changes nothing. *)
Theorem recording_accepted_iff :
  forall (p : Props) (reply : Reply) (transcripts : list string)
         (interimResult : string) (n : nat) (s : State) (w : World),
    isRecording s = false ->
    World_ok w ->
    let r := recording p reply transcripts interimResult n s w in
    let transcript := combineSpeech transcripts interimResult in
    allAnswers (fst r)
    = (if (30 <=? Z.of_nat n)%Z && (30 <=? JS.len (JS.trim transcript))%Z
       then allAnswers s ++ [transcript]
       else allAnswers s)%list
    /\ isRecording (fst r) = false
    /\ timerRef (fst r) = None
    /\ timers (snd r) = timers w
    /\ recordingTime (fst r) = Z.of_nat n
    /\ docs (snd r) = docs w
    /\ submitted (snd r) = submitted w
    /\ tick (nextTimer w) (fst r) (snd r) = (fst r, snd r).
Proof.
  intros p reply ts interim n s w Hidle Hok r transcript.
  destruct (recording_facts p reply ts interim n s w Hidle Hok)
    as (H1 & H2 & H3 & H4 & H5 & H6 & H7 & _).
  fold r in H1, H2, H3, H4, H5, H6, H7. fold transcript in H1.
  repeat (split; [assumption|]).
  unfold tick. rewrite H4.
  destruct (existsb (Nat.eqb (nextTimer w)) (timers w)) eqn:E; [|reflexivity].
  apply existsb_exists in E as (t & Ht & Heq).
  apply Nat.eqb_eq in Heq. subst t. apply (proj2 Hok) in Ht. lia.
Qed.

Lemma recording_accepted_iff_witness :
  allAnswers
    (fst (recording Session.props Session.reply [Session.longAnswer] "" 45
            initial world0))
  = [Session.longAnswer]
  /\ allAnswers
       (fst (recording Session.props Session.reply [Session.longAnswer] "" 29
               initial world0))
     = [].
Proof.
  assert (Hok : World_ok world0).
  { split; [cbn; lia|]. intros t []. }
  split.
  - rewrite (proj1 (recording_accepted_iff Session.props Session.reply
                      [Session.longAnswer] "" 45 initial world0 eq_refl Hok)).
    reflexivity.
  - rewrite (proj1 (recording_accepted_iff Session.props Session.reply
                      [Session.longAnswer] "" 29 initial world0 eq_refl Hok)).
    reflexivity.
Defined.

(** A save the document store refuses leaves the transcript, the clock
    and the recording as they are, stores and submits nothing and shows
    an error; a save repeated on that state and accepted stores the same
    transcript. *)
Theorem failed_save_keeps_transcript :
  forall (p : Props) (s : State) (w : World),
    (MIN_RECORD_TIME <= recordingTime s)%Z ->
    let r := saveUserAnswer p false s w in
    fst r = set_loading false s
    /\ docs (snd r) = docs w
    /\ submitted (snd r) = submitted w
    /\ toasts (snd r) = (toasts w ++ [ToastError "Error saving answer"])%list
    /\ docs (snd (saveUserAnswer p true (fst r) (snd r)))
       = docs (snd (saveUserAnswer p true s w))
    /\ submitted (snd (saveUserAnswer p true (fst r) (snd r)))
       = (submitted w ++ [userAnswer s])%list.
Proof.
  intros p s w H r. apply Z.ltb_ge in H.
  assert (E : r = (set_loading false s,
                   toast (ToastError "Error saving answer") w)).
  { unfold r, saveUserAnswer. now rewrite H. }
  rewrite E. cbn [fst snd]. unfold saveUserAnswer.
  cbn [recordingTime set_loading]. rewrite H.
  repeat split.
Qed.

Lemma failed_save_keeps_transcript_witness :
  userAnswer
    (fst (saveUserAnswer Session.props false
            (mkState Session.longAnswer [] false None true false 31 None false)
            world0))
  = Session.longAnswer.
Proof.
  rewrite (proj1 (failed_save_keeps_transcript Session.props
                    (mkState Session.longAnswer [] false None true false 31
                       None false)
                    world0 ltac:(unfold MIN_RECORD_TIME; cbn [recordingTime]; lia))).
  reflexivity.
Defined.

(** An accepted save stores one document, with the question of the
    recorder and the transcript, and schedules one submission of that
    same transcript; it clears the transcript and the clock, so that a
    second save on the state it leaves is rejected and stores nothing
    more. *)
Theorem accepted_save_stores_once :
  forall (p : Props) (s : State) (w : World),
    (MIN_RECORD_TIME <= recordingTime s)%Z ->
    let r := saveUserAnswer p true s w in
    (exists d,
        docs (snd r) = (docs w ++ [d])%list
        /\ user_ans d = userAnswer s
        /\ d_question d = question (p_question p)
        /\ correct_ans d = answer (p_question p)
        /\ (aiResult s = None ->
            overall_feedback d = JSON.JString []
            /\ overall_rating d = JSON.JNumber (JSON.mkNumber false 0 0)))
    /\ submitted (snd r) = (submitted w ++ [userAnswer s])%list
    /\ userAnswer (fst r) = ""
    /\ recordingTime (fst r) = 0%Z
    /\ isRecording (fst r) = false
    /\ forall stored,
        docs (snd (saveUserAnswer p stored (fst r) (snd r))) = docs (snd r)
        /\ submitted (snd (saveUserAnswer p stored (fst r) (snd r)))
           = submitted (snd r).
Proof.
  intros p s w H r. apply Z.ltb_ge in H. unfold r, saveUserAnswer at 1 2 3 4 5 6.
  rewrite H. cbn [fst snd].
  split.
  { eexists. split; [reflexivity|].
    cbn [user_ans d_question correct_ans overall_feedback overall_rating].
    repeat split; try reflexivity;
      match goal with E : aiResult s = None |- _ => now rewrite E end. }
  repeat split.
  - unfold saveUserAnswer. rewrite H. reflexivity.
  - unfold saveUserAnswer. rewrite H. reflexivity.
Qed.

Lemma accepted_save_stores_once_witness :
  List.length
    (docs (snd (saveUserAnswer Session.props true
                  (mkState Session.longAnswer [] false None true false 31 None
                     false)
                  world0)))
  = 1.
Proof.
  destruct (proj1 (accepted_save_stores_once Session.props
                     (mkState Session.longAnswer [] false None true false 31
                        None false)
                     world0 ltac:(unfold MIN_RECORD_TIME; cbn [recordingTime]; lia))) as (d & -> & _).
  reflexivity.
Defined.

(** Whenever the save button is enabled, the save passes its own check,
    and on the last question an overall result is present. *)
Theorem enabled_save_button :
  forall (p : Props) (s : State) (w : World),
    saveDisabled p s = false ->
    (exists d, docs (snd (saveUserAnswer p true s w)) = (docs w ++ [d])%list)
    /\ (isLastQuestion p = true ->
        exists v, aiResult s = Some v /\ truthy v = true).
Proof.
  intros p s w H. unfold saveDisabled in H.
  apply orb_false_iff in H as [Ht Hl]. split.
  - unfold saveUserAnswer. rewrite Ht. eexists. reflexivity.
  - intros Hlast. rewrite Hlast in Hl. cbn [andb] in Hl.
    unfold noResult in Hl. destruct (aiResult s) as [v|]; [|discriminate].
    exists v. split; [reflexivity|]. now apply negb_false_iff.
Qed.

Lemma enabled_save_button_witness :
  exists d,
    docs (snd (saveUserAnswer Session.props true
                 (mkState Session.longAnswer [] false None true false 31 None
                    false)
                 world0))
    = [d].
Proof.
  exact (proj1 (enabled_save_button Session.props
                  (mkState Session.longAnswer [] false None true false 31 None
                     false)
                  world0 eq_refl)).
Defined.

(** On the last question, after a recording that is accepted, the save
    button is enabled exactly when the value the evaluation returned is
    truthy: it is enabled when the request failed or its reply could not
    be parsed, since the fallback result is an object, and it stays
    disabled when the reply is [null], [false], a zero or a number so
    small that it is read as the double zero. *)
Theorem last_question_button :
  forall (p : Props) (reply : Reply) (transcripts : list string)
         (interimResult : string) (n : nat) (s : State) (w : World),
    isRecording s = false ->
    World_ok w ->
    isLastQuestion p = true ->
    (30 <= Z.of_nat n)%Z ->
    (30 <= JS.len (JS.trim (combineSpeech transcripts interimResult)))%Z ->
    let r := recording p reply transcripts interimResult n s w in
    aiResult (fst r) = Some (evaluated reply)
    /\ saveDisabled p (fst r) = negb (truthy (evaluated reply))
    /\ ((exists e, reply = Failed e)
        \/ (exists text, reply = Responded text
                         /\ JSON.parse (cleanText text) = None) ->
        saveDisabled p (fst r) = false)
    /\ (In reply [Responded "null"; Responded "false"; Responded "0";
                  Responded "-0.0"; Responded "1e-400"] ->
        saveDisabled p (fst r) = true).
Proof.
  intros p reply ts interim n s w Hidle Hok Hlast Hn Hlen r.
  destruct (recording_facts p reply ts interim n s w Hidle Hok)
    as (_ & _ & _ & _ & Htime & _ & _ & Hres).
  fold r in Htime, Hres.
  apply Z.leb_le in Hlen. rewrite Hlen, Hlast in Hres.
  pose proof Hn as Hn'. apply Z.leb_le in Hn'. rewrite Hn' in Hres.
  cbn [andb] in Hres.
  assert (Hbutton : saveDisabled p (fst r) = negb (truthy (evaluated reply))).
  { unfold saveDisabled, noResult. rewrite Htime, Hres, Hlast.
    unfold MIN_RECORD_TIME. destruct (Z.ltb_spec (Z.of_nat n) 30); [lia|].
    reflexivity. }
  split; [auto|]. split; [exact Hbutton|]. split.
  - intros H. rewrite Hbutton.
    destruct H as [[e ->]|(text & -> & Hp)]; unfold evaluated;
      [|rewrite Hp]; reflexivity.
  - intros H. rewrite Hbutton. cbn [In] in H.
    destruct H as [<-|[<-|[<-|[<-|[<-|[]]]]]]; vm_compute; reflexivity.
Qed.

Lemma last_question_button_witness :
  saveDisabled
    (mkProps (mkQA "Q2" "A2") [mkQA "Q1" "A1"; mkQA "Q2" "A2"] 1 2 None None)
    (fst (recording
            (mkProps (mkQA "Q2" "A2") [mkQA "Q1" "A1"; mkQA "Q2" "A2"] 1 2
               None None)
            (Failed NotAnError) [Session.longAnswer] "" 30 initial world0))
  = false.
Proof.
  apply (proj1 (proj2 (proj2 (last_question_button
                         (mkProps (mkQA "Q2" "A2")
                            [mkQA "Q1" "A1"; mkQA "Q2" "A2"] 1 2 None None)
                         (Failed NotAnError) [Session.longAnswer] "" 30
                         initial world0 eq_refl
                         (conj (Nat.lt_0_1) (fun t (H : In t []) => match H with end))
                         eq_refl ltac:(cbn; lia) ltac:(vm_compute; discriminate))))).
  left. now exists NotAnError.
Defined.

End RecordingFacts.

(** ** Code fences around the evaluation *)

Module FenceFacts.
Import ChatSession RecordAnswer.

Lemma prefix_json_before_newline (r b : string) :
  String.prefix "json" (r ++ String "010" b) = true ->
  String.prefix "json" r = true.
Proof.
  destruct r as [|c1 [|c2 [|c3 [|c4 r]]]]; cbn [append String.prefix];
    repeat match goal with
      | |- context [ascii_dec ?a ?b] => destruct (ascii_dec a b)
      end; intros; try congruence; auto.
  now destruct r.
Qed.

Lemma remove_keeps_payload (payload b : string) :
  ~ JS.has_char "`" payload -> JS.str_includes "json" payload = false ->
  JS.remove_all markup (payload ++ String "010" b)
  = payload ++ JS.remove_all markup (String "010" b).
Proof.
  unfold JS.remove_all.
  induction payload as [|c r IH]; intros Hb Hj; [reflexivity|].
  cbn [JS.str_includes] in Hj. apply orb_false_iff in Hj as [Hp Hj].
  change (String c r ++ String "010" b) with (String c (r ++ String "010" b)).
  cbn [JS.remove_from].
  rewrite CleanTextFacts.first_match_markup.
  - rewrite IH; auto. intros H; apply Hb; now right.
  - intros ->; apply Hb; now left.
  - destruct (String.prefix "json" (String c (r ++ String "010" b))) eqn:E;
      [|reflexivity].
    apply (prefix_json_before_newline (String c r) b) in E. congruence.
Qed.

Lemma trimEnd_newline (s : string) :
  JS.trimEnd (s ++ JS.newline) = JS.trimEnd s.
Proof.
  induction s as [|c r IH]; [reflexivity|].
  change (String c r ++ JS.newline) with (String c (r ++ JS.newline)).
  cbn [JS.trimEnd]. now rewrite IH.
Qed.

Lemma trim_between_newlines (s : string) :
  JS.trim (JS.newline ++ s ++ JS.newline) = JS.trim s.
Proof.
  unfold JS.trim. change (JS.trimStart (JS.newline ++ s ++ JS.newline))
    with (JS.trimStart (s ++ JS.newline)).
  induction s as [|c r IH]; [reflexivity|].
  change (String c r ++ JS.newline) with (String c (r ++ JS.newline)).
  cbn [JS.trimStart]. destruct (JS.is_space c); [exact IH|].
  apply (trimEnd_newline (String c r)).
Qed.

(** A reply between [```json] code fences is cleaned to the trimmed
    payload, when the payload holds no back-quote and no "json"; the
    recorder then returns for the fenced reply what it returns for the
    bare payload. *)
Theorem fenced_reply_as_payload :
  forall (payload : string) (s : State) (w : World),
    ~ JS.has_char "`" payload ->
    JS.str_includes "json" payload = false ->
    cleanText (Sample.fenced payload) = JS.trim payload
    /\ cleanText payload = JS.trim payload
    /\ generateOverallResult (Responded (Sample.fenced payload)) s w
       = generateOverallResult (Responded payload) s w.
Proof.
  intros payload s w Hb Hj.
  assert (Hbare : cleanText payload = JS.trim payload).
  { unfold cleanText. now rewrite CleanTextFacts.remove_untouched. }
  assert (Hfenced : cleanText (Sample.fenced payload) = JS.trim payload).
  { unfold cleanText, Sample.fenced.
    assert (E : JS.remove_all markup
                  ("```json" ++ JS.newline ++ payload ++ JS.newline ++ "```")
                = JS.newline ++ payload ++ JS.newline).
    { change (JS.remove_all markup
                ("```json" ++ JS.newline ++ payload ++ JS.newline ++ "```"))
        with (String "010" (JS.remove_all markup
                              (payload ++ String "010" "```"))).
      rewrite (remove_keeps_payload payload "```" Hb Hj). reflexivity. }
    rewrite E. apply trim_between_newlines. }
  repeat split; auto.
  unfold generateOverallResult. now rewrite Hfenced, Hbare.
Qed.

Lemma fenced_reply_as_payload_witness :
  cleanText (Sample.fenced (Sample.evaluation "8" "Clear answers"))
  = Sample.evaluation "8" "Clear answers".
Proof.
  rewrite (proj1 (fenced_reply_as_payload (Sample.evaluation "8" "Clear answers")
                    initial world0
                    ltac:(JSFacts.absent_char) eq_refl)).
  reflexivity.
Defined.

End FenceFacts.

(** ** The value of a text that opens with a bracket *)

Module ArrayFacts.
Import JSON Shape.

Lemma rooted_cons (f : frame) (st : list frame) :
  rooted st = true -> rooted (f :: st) = true.
Proof. destruct st; [discriminate|]. destruct f; auto. Qed.

Lemma rooted_top (f g : frame) (st : list frame) :
  (match f, g with
   | FArr _, FArr _ | FObj _ _, FObj _ _ => True
   | _, _ => False
   end) ->
  rooted (f :: st) = true -> rooted (g :: st) = true.
Proof. destruct f, g, st; cbn; auto; contradiction. Qed.

Lemma deliver_in_array (v : value) (stack : list frame) (s' : pstate) :
  rooted stack = true -> deliver v stack = Some s' -> in_array s'.
Proof.
  destruct stack as [|[acc|ms [k|]] st]; cbn [deliver]; intros Hr H;
    try discriminate; injection H as <-; cbn [in_array].
  - exact (rooted_top (FArr acc) (FArr (v :: acc)) st I Hr).
  - exact (rooted_top (FObj ms (Some k)) (FObj (obj_set k v ms) None) st I Hr).
Qed.

(** Closing the innermost container. *)
Lemma close_array_in_array (acc : list value) (st : list frame) (s' : pstate) :
  rooted (FArr acc :: st) = true ->
  deliver (JArray (rev acc)) st = Some s' -> in_array s'.
Proof.
  destruct st as [|f st]; intros Hr H.
  - injection H as <-. cbn. auto.
  - eapply deliver_in_array; [|exact H]. destruct f; exact Hr.
Qed.

Lemma close_object_in_array (ms : list (jstr * value)) (k : option jstr)
  (st : list frame) (s' : pstate) :
  rooted (FObj ms k :: st) = true ->
  deliver (JObject ms) st = Some s' -> in_array s'.
Proof.
  destruct st as [|f st]; intros Hr H; [discriminate Hr|].
  eapply deliver_in_array; [|exact H]. destruct f; exact Hr.
Qed.

Lemma start_value_in_array (stack : list frame) (c : ascii) (s' : pstate) :
  rooted stack = true -> start_value stack c = Some s' -> in_array s'.
Proof.
  intros Hr. pose proof (rooted_cons (FArr []) stack Hr) as Ha.
  pose proof (rooted_cons (FObj [] None) stack Hr) as Ho.
  destruct c as [[] [] [] [] [] [] [] []]; cbn; intros H;
    try discriminate; injection H as <-; cbn [in_array]; auto.
Qed.

Lemma step_after_in_array (m : mode) (stack : list frame) (c : ascii)
  (s' : pstate) :
  in_array (m, stack) -> step_after m stack c = Some s' -> in_array s'.
Proof.
  unfold step_after. destruct (is_ws c).
  { intros H E; injection E as <-; exact H. }
  destruct m; try discriminate.
  cbn [in_array]. intros Hr.
  destruct stack as [|[acc|ms [k|]] st]; [discriminate Hr| | |].
  - destruct (Ascii.eqb_spec c ",") as [->|]; [intros E; injection E as <-; exact Hr|].
    destruct (Ascii.eqb_spec c "]") as [->|].
    + apply close_array_in_array; exact Hr.
    + destruct c as [[] [] [] [] [] [] [] []]; cbn; try discriminate;
        congruence.
  - destruct c as [[] [] [] [] [] [] [] []]; cbn; discriminate.
  - destruct (Ascii.eqb_spec c ",") as [->|]; [intros E; injection E as <-; exact Hr|].
    destruct (Ascii.eqb_spec c "}") as [->|].
    + apply (close_object_in_array ms None); exact Hr.
    + destruct c as [[] [] [] [] [] [] [] []]; cbn; try discriminate;
        congruence.
Qed.

Lemma end_number_in_array (a : numacc) (stack : list frame) (c : ascii)
  (s' : pstate) :
  rooted stack = true -> end_number a stack c = Some s' -> in_array s'.
Proof.
  intros Hr. unfold end_number.
  destruct (deliver (number_of a) stack) as [[m st]|] eqn:E; [|discriminate].
  apply step_after_in_array. exact (deliver_in_array _ _ _ Hr E).
Qed.

Lemma step_number_in_array (st : numstate) (a : numacc) (stack : list frame)
  (c : ascii) (s' : pstate) :
  rooted stack = true -> step_number st a stack c = Some s' -> in_array s'.
Proof.
  intros Hr. unfold step_number.
  destruct st, (digit_of c);
    repeat match goal with
      | |- context [if ?b then _ else _] => destruct b
      end;
    try discriminate;
    try (intros E; injection E as <-; exact Hr);
    apply end_number_in_array; exact Hr.
Qed.

Lemma end_string_in_array (iskey : bool) (acc : jstr) (stack : list frame)
  (s' : pstate) :
  rooted stack = true -> end_string iskey acc stack = Some s' -> in_array s'.
Proof.
  intros Hr. unfold end_string. destruct iskey.
  - destruct stack as [|[a|ms [k|]] st]; try discriminate.
    intros E; injection E as <-. cbn [in_array].
    exact (rooted_top (FObj ms None) (FObj ms (Some acc)) st I Hr).
  - now apply deliver_in_array.
Qed.

Lemma step_in_array (s s' : pstate) (c : ascii) :
  in_array s -> step s c = Some s' -> in_array s'.
Proof.
  destruct s as [m stack]. unfold step.
  destruct m; cbn [in_array]; intros Hr.
  - destruct (is_ws c); [intros E; injection E as <-; exact Hr|].
    now apply start_value_in_array.
  - destruct (is_ws c); [intros E; injection E as <-; exact Hr|].
    destruct (Ascii.eqb c "]").
    + destruct stack as [|[acc|ms k] st]; try discriminate.
      apply close_array_in_array; exact Hr.
    + now apply start_value_in_array.
  - destruct (is_ws c); [intros E; injection E as <-; exact Hr|].
    destruct (Ascii.eqb c "}").
    + destruct stack as [|[acc|ms [k|]] st]; try discriminate.
      apply (close_object_in_array ms None); exact Hr.
    + destruct (Ascii.eqb c "034"); [|discriminate].
      intros E; injection E as <-; exact Hr.
  - destruct (is_ws c); [intros E; injection E as <-; exact Hr|].
    destruct (Ascii.eqb c "034"); [|discriminate].
    intros E; injection E as <-; exact Hr.
  - destruct (is_ws c); [intros E; injection E as <-; exact Hr|].
    destruct (Ascii.eqb c ":"); [|discriminate].
    intros E; injection E as <-; exact Hr.
  - now apply (step_after_in_array MAfter).
  - now apply (step_after_in_array (MEnd v)).
  - destruct (Ascii.eqb c "034"); [now apply end_string_in_array|].
    destruct (Ascii.eqb c "\"); [intros E; injection E as <-; exact Hr|].
    destruct (N_of_ascii c <? 32)%N; [discriminate|].
    intros E; injection E as <-; exact Hr.
  - destruct (Ascii.eqb c "u"); [intros E; injection E as <-; exact Hr|].
    destruct (escape_of c); [|discriminate].
    intros E; injection E as <-; exact Hr.
  - destruct (hex_of c); [|discriminate].
    destruct todo as [|[|k]]; intros E; injection E as <-; exact Hr.
  - destruct rest as [|d [|d' rest']]; [discriminate| |].
    + destruct (Ascii.eqb c d); [|discriminate]. now apply deliver_in_array.
    + destruct (Ascii.eqb c d); [|discriminate].
      intros E; injection E as <-; exact Hr.
  - now apply step_number_in_array.
Qed.

Lemma run_in_array (text : string) :
  forall s s', in_array s -> run s text = Some s' -> in_array s'.
Proof.
  induction text as [|c r IH]; intros s s' Hs; cbn [run].
  - intros E; injection E as <-; exact Hs.
  - destruct (step s c) as [s1|] eqn:E; [|discriminate].
    apply IH. exact (step_in_array s s1 c Hs E).
Qed.

(** A text that opens with a bracket and is JSON is an array. *)
Lemma parse_bracket_is_array (rest : string) (v : value) :
  parse (String "[" rest) = Some v -> is_array v = true.
Proof.
  unfold parse. cbn [run].
  change (step (MValue, []) "[") with (Some (MArrStart, [FArr []])).
  destruct (run (MArrStart, [FArr []]) rest) as [[m st]|] eqn:E;
    [|discriminate].
  apply run_in_array in E; [|reflexivity].
  destruct m; cbn [in_array] in E; cbn [finish];
    try (destruct st; [discriminate E|discriminate]).
  - destruct E as [-> Hv]. intros H; injection H as <-. exact Hv.
  - destruct st; [discriminate E|]. destruct st0; discriminate.
Qed.

End ArrayFacts.

(** ** More on the intake form's AI request *)

Module RequestFacts.
Import ChatSession FormMockInterview Shape.

Lemma indexOf_split (c : ascii) (s : string) :
  (0 <= JS.indexOf c s)%Z ->
  exists pre rest,
    s = pre ++ String c rest
    /\ String.length pre = Z.to_nat (JS.indexOf c s).
Proof.
  induction s as [|d r IH]; cbn [JS.indexOf]; [lia|].
  destruct (Ascii.eqb_spec d c) as [->|Hd].
  - intros _. now exists "", r.
  - destruct (Z.ltb_spec (JS.indexOf c r) 0) as [|Hr]; [lia|].
    intros _. destruct (IH Hr) as (pre & rest & -> & Hlen).
    exists (String d pre), rest. split; [reflexivity|].
    cbn [String.length]. lia.
Qed.

Lemma substring_at (pre rest : string) (c : ascii) (n : nat) :
  substring (String.length pre) (S n) (pre ++ String c rest)
  = String c (substring 0 n rest).
Proof. induction pre as [|d r IH]; [reflexivity|exact IH]. Qed.

Lemma indexOf_present (c : ascii) (s : string) :
  JS.has_char c s -> (0 <= JS.indexOf c s)%Z.
Proof.
  induction s as [|d r IH]; [intros []|]. cbn [JS.indexOf].
  destruct (Ascii.eqb_spec d c) as [|Hd]; [lia|].
  intros [H|H]; [contradiction|]. apply IH in H.
  destruct (Z.ltb_spec (JS.indexOf c r) 0); lia.
Qed.

Lemma indexOf_after (c : ascii) (a b : string) :
  ~ JS.has_char c a -> (0 <= JS.indexOf c b)%Z ->
  JS.indexOf c (a ++ b) = (JS.len a + JS.indexOf c b)%Z.
Proof.
  intros Ha Hb. induction a as [|d r IH]; [cbn; lia|].
  apply JSFacts.has_char_head in Ha as [Hd Hr].
  change (String d r ++ b) with (String d (r ++ b)). cbn [JS.indexOf].
  apply Ascii.eqb_neq in Hd. rewrite Hd, (IH Hr), JSFacts.len_cons.
  pose proof (JSFacts.len_nonneg r).
  destruct (Z.ltb_spec (JS.len r + JS.indexOf c b) 0); lia.
Qed.

(** The piece [cleanAiResponse] cuts out of a text is empty, or the
    single character "]", or opens with the first "[" of the text. *)
Lemma piece_cases (text : string) :
  let piece :=
    JS.slice text (JS.indexOf "[" text) (JS.lastIndexOf "]" text + 1) in
  piece = "" \/ piece = "]" \/ exists rest, piece = String "[" rest.
Proof.
  cbv zeta. pose proof (JSFacts.lastIndexOf_bounds "]" text) as Hj.
  pose proof (JSFacts.indexOf_lower "[" text) as Hi.
  pose proof (JSFacts.len_nonneg text) as Hn.
  unfold JS.slice, JS.clamp.
  destruct (Z.ltb_spec (JS.lastIndexOf "]" text + 1) 0); [lia|].
  rewrite (Z.min_l (JS.lastIndexOf "]" text + 1)) by lia.
  destruct (Z.ltb_spec (JS.indexOf "[" text) 0) as [Hneg|Hpos].
  - assert (Hi' : JS.indexOf "[" text = (-1)%Z) by lia. rewrite Hi'.
    destruct (Z.eq_dec (JS.lastIndexOf "]" text) (JS.len text - 1)) as [L|L].
    + destruct (Z.eq_dec (JS.len text) 0) as [Z0|Z0].
      * left. replace (Z.max (JS.lastIndexOf "]" text + 1
                               - Z.max (JS.len text + -1) 0) 0)
          with 0%Z by lia. apply JSFacts.substring_n_0.
      * right; left. rewrite Z.max_l by lia.
        replace (Z.max (JS.lastIndexOf "]" text + 1 - (JS.len text + -1)) 0)
          with 1%Z by lia.
        replace (JS.len text + -1)%Z with (JS.lastIndexOf "]" text) by lia.
        apply JSFacts.lastIndexOf_char. lia.
    + left. replace (Z.max (JS.lastIndexOf "]" text + 1
                             - Z.max (JS.len text + -1) 0) 0)
        with 0%Z by lia. apply JSFacts.substring_n_0.
  - destruct (indexOf_split "[" text Hpos) as (pre & rest & E & Hlen).
    assert (Hle : (JS.indexOf "[" text <= JS.len text)%Z).
    { rewrite E at 2. rewrite JSFacts.len_app.
      pose proof (JSFacts.len_nonneg (String "[" rest)).
      unfold JS.len at 1. lia. }
    rewrite Z.min_l by lia. rewrite <- Hlen.
    destruct (Z.to_nat (Z.max (JS.lastIndexOf "]" text + 1
                               - JS.indexOf "[" text) 0)) as [|n].
    + left. apply JSFacts.substring_n_0.
    + right; right. rewrite E, substring_at. eauto.
Qed.

Lemma ok_is_array (syntaxErrorMessage : string -> string) (text : string)
  (v : JSON.value) :
  cleanAiResponse syntaxErrorMessage text = Ok v ->
  exists items, v = JSON.JArray items.
Proof.
  unfold cleanAiResponse.
  destruct (piece_cases text) as [E|[E|[rest E]]]; rewrite E.
  - discriminate.
  - discriminate.
  - destruct (JSON.parse (String "[" rest)) as [u|] eqn:P; [|discriminate].
    intros H; injection H as <-.
    apply ArrayFacts.parse_bracket_is_array in P.
    destruct u; try discriminate. eauto.
Qed.

(** Whatever the text, the value [cleanAiResponse] returns, when it
    returns one, is a JSON array. *)
Theorem cleanAiResponse_returns_array :
  forall (syntaxErrorMessage : string -> string) (text : string)
         (v : JSON.value),
    cleanAiResponse syntaxErrorMessage text = Ok v ->
    exists items, v = JSON.JArray items.
Proof. exact ok_is_array. Qed.

Lemma cleanAiResponse_returns_array_witness :
  exists items,
    JSON.JArray [JSON.JBool true; JSON.JNull] = JSON.JArray items.
Proof.
  exact (cleanAiResponse_returns_array
           (fun text => "Unexpected token in " ++ text)
           "Sure: [true, null] Good luck!"
           (JSON.JArray [JSON.JBool true; JSON.JNull]) eq_refl).
Defined.

(** When the last "]" of the text stands before its first "[", the piece
    cut out is empty and the function throws. *)
Theorem cleanAiResponse_throws_on_reversed_brackets :
  forall (syntaxErrorMessage : string -> string) (a b : string),
    ~ JS.has_char "[" a -> ~ JS.has_char "]" b -> JS.has_char "[" b ->
    cleanAiResponse syntaxErrorMessage (a ++ "]" ++ b)
    = Throw (ErrorObject (syntaxErrorMessage "")).
Proof.
  intros msg a b Ha Hb Hopen. unfold cleanAiResponse.
  change (a ++ "]" ++ b) with (a ++ String "]" b).
  rewrite (JSFacts.lastIndexOf_last "]" a b Hb).
  assert (Hi : JS.indexOf "[" (a ++ String "]" b)
               = (JS.len a + (JS.indexOf "[" b + 1))%Z).
  { pose proof (indexOf_present _ _ Hopen) as Hp.
    rewrite indexOf_after; [|exact Ha|].
    - cbn [JS.indexOf]. change (Ascii.eqb "]" "[") with false. cbv iota.
      destruct (Z.ltb_spec (JS.indexOf "[" b) 0); lia.
    - cbn [JS.indexOf]. change (Ascii.eqb "]" "[") with false. cbv iota.
      destruct (Z.ltb_spec (JS.indexOf "[" b) 0); lia. }
  rewrite Hi. pose proof (indexOf_present _ _ Hopen) as Hp.
  pose proof (JSFacts.len_nonneg a). pose proof (JSFacts.len_nonneg b).
  assert (Hs : JS.slice (a ++ String "]" b)
                 (JS.len a + (JS.indexOf "[" b + 1)) (JS.len a + 1) = "").
  { unfold JS.slice, JS.clamp. rewrite JSFacts.len_app, JSFacts.len_cons.
    destruct (Z.ltb_spec (JS.len a + (JS.indexOf "[" b + 1)) 0); [lia|].
    destruct (Z.ltb_spec (JS.len a + 1) 0); [lia|].
    match goal with |- substring _ (Z.to_nat ?n) _ = _ =>
      replace n with 0%Z by lia end.
    apply JSFacts.substring_n_0. }
  rewrite Hs. reflexivity.
Qed.

Lemma cleanAiResponse_throws_on_reversed_brackets_witness :
  cleanAiResponse (fun text => "Unexpected token in " ++ text)
    ("see 1] and " ++ "]" ++ " then [2")
  = Throw (ErrorObject "Unexpected token in ").
Proof.
  apply (cleanAiResponse_throws_on_reversed_brackets
           (fun text => "Unexpected token in " ++ text)
           "see 1] and " " then [2").
  - JSFacts.absent_char.
  - JSFacts.absent_char.
  - unfold JS.has_char; cbn; auto 10.
Defined.

(** The three iterations of the loop, written out. *)
Lemma generateQuestions_unrolled (syntaxErrorMessage : string -> string)
  (sendMessage : nat -> Reply) :
  let attempt := attempt syntaxErrorMessage sendMessage in
  generateQuestions syntaxErrorMessage sendMessage
  = match attempt 0 with
    | Ok v => (Returned v, [Call 0])
    | Throw e0 =>
        if isBusy e0 then
          match attempt 1 with
          | Ok v => (Returned v, [Call 0; Log 1; Sleep 2000; Call 1])
          | Throw e1 =>
              if isBusy e1 then
                (match attempt 2 with
                 | Ok v => Returned v
                 | Throw e2 => Threw e2
                 end,
                 [Call 0; Log 1; Sleep 2000; Call 1; Log 2; Sleep 2000;
                  Call 2])
              else (Threw e1, [Call 0; Log 1; Sleep 2000; Call 1])
          end
        else (Threw e0, [Call 0])
    end.
Proof.
  intros attempt. unfold generateQuestions.
  change (Z.to_nat maxAttempts) with 3.
  IntakeFacts.unroll_retryLoop. fold attempt.
  destruct (attempt 0) as [|e0]; [reflexivity|].
  destruct (isBusy e0); [|reflexivity]. cbn [andb].
  destruct (attempt 1) as [|e1]; [reflexivity|].
  destruct (isBusy e1); [|reflexivity]. cbn [andb].
  destruct (attempt 2) as [|e2]; [reflexivity|].
  now rewrite andb_false_r.
Qed.

(** A reply that is not JSON is treated like any failure of the request:
    it is thrown at once, after a single request, unless the message of
    the syntax error happens to hold "503", in which case a second
    request follows the pause. *)
Theorem malformed_reply_retried_only_on_503 :
  forall (syntaxErrorMessage : string -> string)
         (sendMessage : nat -> Reply) (text : string),
    sendMessage 0 = Responded text ->
    let piece :=
      JS.slice text (JS.indexOf "[" text) (JS.lastIndexOf "]" text + 1) in
    JSON.parse piece = None ->
    (JS.str_includes "503" (syntaxErrorMessage piece) = false ->
     generateQuestions syntaxErrorMessage sendMessage
     = (Threw (ErrorObject (syntaxErrorMessage piece)), [Call 0]))
    /\ (JS.str_includes "503" (syntaxErrorMessage piece) = true ->
        exists completion events,
          generateQuestions syntaxErrorMessage sendMessage
          = (completion,
             Call 0 :: Log 1 :: Sleep 2000 :: Call 1 :: events)).
Proof.
  intros msg send text Hsend piece Hparse.
  rewrite generateQuestions_unrolled.
  assert (E : attempt msg send 0 = Throw (ErrorObject (msg piece))).
  { unfold attempt, cleanAiResponse. rewrite Hsend. fold piece.
    now rewrite Hparse. }
  rewrite E. cbn [isBusy]. split; intros ->; [reflexivity|].
  destruct (attempt msg send 1) as [v|e1]; [eauto|].
  destruct (isBusy e1); eauto.
Qed.

Lemma malformed_reply_retried_only_on_503_witness :
  generateQuestions (fun text => "Unexpected token in " ++ text)
    (fun _ => Responded "Sorry, no questions today")
  = (Threw (ErrorObject "Unexpected token in "), [Call 0]).
Proof.
  apply (proj1 (malformed_reply_retried_only_on_503
                  (fun text => "Unexpected token in " ++ text)
                  (fun _ => Responded "Sorry, no questions today")
                  "Sorry, no questions today" eq_refl eq_refl) eq_refl).
Defined.

(** Whatever the service does, the request sleeps 2000 ms before every
    request but the first, 4000 ms at most, and sends at least one
    request. *)
Theorem generateQuestions_pauses :
  forall (syntaxErrorMessage : string -> string)
         (sendMessage : nat -> Reply),
    let events := snd (generateQuestions syntaxErrorMessage sendMessage) in
    1 <= calls_of events
    /\ pause_of events = (2000 * (Z.of_nat (calls_of events) - 1))%Z
    /\ (pause_of events <= 4000)%Z.
Proof.
  intros msg send. cbv zeta. rewrite generateQuestions_unrolled.
  destruct (attempt msg send 0) as [|e0]; [cbn; lia|].
  destruct (isBusy e0); [|cbn; lia].
  destruct (attempt msg send 1) as [|e1]; [cbn; lia|].
  destruct (isBusy e1); cbn; lia.
Qed.

(** The request always ends, with a value or with the error thrown. *)
Lemma generateQuestions_completes (syntaxErrorMessage : string -> string)
  (sendMessage : nat -> Reply) :
  (exists v,
      fst (generateQuestions syntaxErrorMessage sendMessage) = Returned v)
  \/ (exists e,
         fst (generateQuestions syntaxErrorMessage sendMessage) = Threw e).
Proof.
  rewrite generateQuestions_unrolled.
  destruct (attempt _ _ 0) as [|e0]; [cbn; eauto|].
  destruct (isBusy e0); [|cbn; eauto].
  destruct (attempt _ _ 1) as [|e1]; [cbn; eauto|].
  destruct (isBusy e1); [|cbn; eauto].
  destruct (attempt _ _ 2); cbn; eauto.
Qed.

Lemma attempt_is_array (syntaxErrorMessage : string -> string)
  (sendMessage : nat -> Reply) (n : nat) (v : JSON.value) :
  attempt syntaxErrorMessage sendMessage n = Ok v ->
  exists items, v = JSON.JArray items.
Proof.
  unfold attempt. destruct (sendMessage n); [apply ok_is_array|discriminate].
Qed.

(** The request returns arrays only, and never [undefined]. *)
Lemma generateQuestions_result (syntaxErrorMessage : string -> string)
  (sendMessage : nat -> Reply) :
  (exists items,
      fst (generateQuestions syntaxErrorMessage sendMessage)
      = Returned (JSON.JArray items))
  \/ (exists e,
         fst (generateQuestions syntaxErrorMessage sendMessage) = Threw e).
Proof.
  rewrite generateQuestions_unrolled.
  destruct (attempt _ _ 0) as [v|e0] eqn:A0.
  { apply attempt_is_array in A0 as [items ->]. cbn; eauto. }
  destruct (isBusy e0); [|cbn; eauto].
  destruct (attempt _ _ 1) as [v|e1] eqn:A1.
  { apply attempt_is_array in A1 as [items ->]. cbn; eauto. }
  destruct (isBusy e1); [|cbn; eauto].
  destruct (attempt _ _ 2) as [v|e2] eqn:A2; [|cbn; eauto].
  apply attempt_is_array in A2 as [items ->]. cbn; eauto.
Qed.

End RequestFacts.

(** ** The intake form's submission *)

Module SubmitFacts.
Import ChatSession FormMockInterview FormSubmit SubmitShape.

Lemma substring_front (n : nat) (s : string) :
  String.length (substring 0 n s) = Nat.min n (String.length s)
  /\ exists rest, s = substring 0 n s ++ rest.
Proof.
  revert n; induction s as [|c r IH]; intros [|n]; cbn; eauto.
  destruct (IH n) as (Hlen & rest & Hrest).
  split; [now rewrite Hlen|]. exists rest. now rewrite <- Hrest.
Qed.

Lemma slice_front (s : string) (k : Z) :
  (0 <= k)%Z ->
  JS.slice s 0 k = substring 0 (Z.to_nat (Z.min k (JS.len s))) s.
Proof.
  intros Hk. unfold JS.slice, JS.clamp. pose proof (JSFacts.len_nonneg s).
  destruct (Z.ltb_spec k 0); [lia|]. change (0 <? 0)%Z with false.
  rewrite (Z.min_l 0) by lia. change (Z.to_nat 0) with 0.
  f_equal. lia.
Qed.

Lemma appendPages_from (pages : list (list Item)) :
  forall text, appendPages text pages = text ++ appendPages "" pages.
Proof.
  induction pages as [|items rest IH]; intros text; cbn [appendPages].
  - induction text as [|c r IHt]; cbn; congruence.
  - rewrite IH, (IH ("" ++ pageText items)). cbn [append].
    now rewrite JSFacts.append_assoc.
Qed.

Lemma extractTextFromPDF_bounded_lemma (pages : list (list Item)) :
  JS.len (extractTextFromPDF pages)
  = Z.min 4000 (JS.len (appendPages "" pages))
  /\ exists rest,
      appendPages "" pages = extractTextFromPDF pages ++ rest.
Proof.
  unfold extractTextFromPDF. rewrite slice_front by lia.
  destruct (substring_front
              (Z.to_nat (Z.min 4000 (JS.len (appendPages "" pages))))
              (appendPages "" pages)) as (Hlen & rest & Hrest).
  pose proof (JSFacts.len_nonneg (appendPages "" pages)) as Hn.
  split; [|now exists rest].
  unfold JS.len at 1. rewrite Hlen. unfold JS.len in *. lia.
Qed.

(** The text extracted from a PDF is the front of the text of its pages,
    which follow one another with nothing between them: it is cut at
    4000 characters and kept whole below that. *)
Theorem extractTextFromPDF_bounded :
  forall pages : list (list Item),
    let full := appendPages "" pages in
    let text := extractTextFromPDF pages in
    JS.len text = Z.min 4000 (JS.len full)
    /\ (exists rest, full = text ++ rest)
    /\ ((JS.len full <= 4000)%Z -> text = full)
    /\ forall items,
        appendPages "" (items :: pages) = pageText items ++ full.
Proof.
  intros pages full text. unfold text, extractTextFromPDF. fold full.
  rewrite slice_front by lia.
  destruct (substring_front (Z.to_nat (Z.min 4000 (JS.len full))) full)
    as (Hlen & rest & Hrest).
  pose proof (JSFacts.len_nonneg full) as Hn.
  repeat split.
  - unfold JS.len at 1. rewrite Hlen. unfold JS.len in *. lia.
  - now exists rest.
  - intros Hshort. rewrite Z.min_r by lia. unfold JS.len.
    rewrite Nat2Z.id. apply JSFacts.substring_all.
  - intros items. cbn [appendPages]. apply appendPages_from.
Qed.

Lemma extractTextFromPDF_bounded_witness :
  extractTextFromPDF [[TextItem "Jane"; MarkedContent; TextItem "Doe"];
                      [TextItem "Rocq"]]
  = "Jane  DoeRocq".
Proof.
  apply (proj1 (proj2 (proj2 (extractTextFromPDF_bounded
                                [[TextItem "Jane"; MarkedContent;
                                  TextItem "Doe"];
                                 [TextItem "Rocq"]])))).
  cbn. lia.
Defined.

Lemma quiet_events (events : list Event) :
  forallb quiet (map Ai events) = true.
Proof. induction events as [|e r IH]; [reflexivity|exact IH]. Qed.

Section Services.
Variable syntaxErrorMessage : string -> string.
Variable sendMessage : nat -> Reply.
Variable uploadResumeToCloudinary : File -> option string.
Variable readPdf : File -> option (list (list Item)).
Variable storeAccepts : bool.

Lemma generateAndSave_ends (initialData : option Interview) (uid : string)
  (data : FormData) (resumeUrl resumeText : string) (fx : list Effect) :
  forallb quiet fx = true ->
  exists pre,
    forallb quiet pre = true
    /\ (forall e, In e pre ->
                  In e fx \/ e = ToastPlain "Generating questions..."
                  \/ e = Generate resumeText \/ exists ev, e = Ai ev)
    /\ (exists more, pre = (fx ++ more)%list)
    /\ ends storeAccepts initialData uid data resumeUrl pre
         (generateAndSave syntaxErrorMessage sendMessage storeAccepts
            initialData uid data resumeUrl resumeText fx).
Proof.
  intros Hq. unfold generateAndSave.
  pose proof (RequestFacts.generateQuestions_result syntaxErrorMessage
                sendMessage) as Hres.
  destruct (generateQuestions syntaxErrorMessage sendMessage)
    as [completion events].
  cbn [fst] in Hres.
  exists (fx ++ [ToastPlain "Generating questions..."; Generate resumeText]
             ++ map Ai events)%list.
  split.
  { rewrite !forallb_app, Hq, quiet_events. reflexivity. }
  split.
  { intros e He. apply in_app_or in He as [He|He]; [now left|].
    cbn [app] in He. destruct He as [<-|[<-|He]]; auto.
    apply in_map_iff in He as (ev & <- & _). eauto 6. }
  split; [eauto|].
  destruct Hres as [[items ->]|[e ->]].
  - destruct storeAccepts eqn:Hs.
    + left. exists items. split; [reflexivity|]. reflexivity.
    + right; right. eexists. split; [reflexivity|].
      unfold failed. now rewrite <- app_assoc.
  - right; left. reflexivity.
Qed.

(** The quiet effects of the outcome are those before the request, the
    toast and the request itself; the others come last. *)
Lemma generateAndSave_quiet (initialData : option Interview) (uid : string)
  (data : FormData) (resumeUrl resumeText : string) (fx total : list Effect) :
  forallb quiet fx = true ->
  generateAndSave syntaxErrorMessage sendMessage storeAccepts initialData uid
    data resumeUrl resumeText fx = Done total ->
  (forall e, In e fx -> In e total)
  /\ forall e,
      In e total -> quiet e = true ->
      In e fx \/ e = ToastPlain "Generating questions..."
      \/ e = Generate resumeText \/ exists ev, e = Ai ev.
Proof.
  intros Hq Hout.
  destruct (generateAndSave_ends initialData uid data resumeUrl resumeText
              fx Hq) as (pre & _ & Horigin & [more ->] & Hends).
  rewrite Hout in Hends.
  assert (Htail : exists tail,
             total = ((fx ++ more) ++ tail)%list
             /\ forall e, In e tail -> quiet e = false).
  { destruct Hends as [(items & _ & E)|[E|(fields & _ & E)]];
      injection E as ->; eexists; (split; [reflexivity|]);
      destruct initialData; intros e He; cbn in He;
      repeat (destruct He as [<-|He]; [reflexivity|]); destruct He. }
  destruct Htail as (tail & -> & Htail). split.
  - intros e He. apply in_or_app; left. apply in_or_app; now left.
  - intros e He Hquiet. apply in_app_or in He as [He|He].
    + now apply Horigin.
    + apply Htail in He. congruence.
Qed.

End Services.

(** Without a signed-in user a submission only shows "Login required".
    With one, it sets the loading flag, runs quietly up to its end and
    resets the flag; it ends in one of three ways: one write of the form
    data, with the questions as a JSON array and the résumé URL, accepted
    by the store and followed by the success toast and the navigation to
    the list; an error toast with no write at all; or an error toast
    after a write that the store refused.  An edit updates the document
    of the interview, a creation adds one for the user. *)
Theorem onSubmit_outcome :
  forall (syntaxErrorMessage : string -> string)
         (sendMessage : nat -> Reply)
         (uploadResumeToCloudinary : File -> option string)
         (readPdf : File -> option (list (list Item)))
         (storeAccepts : bool) (initialData : option Interview)
         (userId : option string) (data : FormData),
    let out :=
      onSubmit syntaxErrorMessage sendMessage uploadResumeToCloudinary
        readPdf storeAccepts initialData userId data in
    match userId with
    | None | Some EmptyString => out = Done [ToastError "Login required"]
    | Some uid =>
        exists more,
          forallb quiet more = true
          /\ ends storeAccepts initialData uid data
               (resumeUrlOf uploadResumeToCloudinary initialData data)
               (SetLoading true :: more) out
    end.
Proof.
  intros msg send upload readPdf accepts init userId data out.
  destruct userId as [[|c uid]|]; [reflexivity| |reflexivity].
  unfold out, onSubmit, resumeUrlOf.
  assert (Hstart : forall url text fx,
             forallb quiet (SetLoading true :: fx) = true ->
             exists more,
               forallb quiet more = true
               /\ ends accepts init (String c uid) data url
                    (SetLoading true :: more)
                    (generateAndSave msg send accepts init (String c uid)
                       data url text (SetLoading true :: fx))).
  { intros url text fx Hq.
    destruct (generateAndSave_ends msg send accepts init (String c uid) data
                url text (SetLoading true :: fx) Hq)
      as (pre & Hpre & _ & [more ->] & Hends).
    exists (fx ++ more)%list. split; [exact Hpre|exact Hends]. }
  destruct (firstFile data) as [file|].
  - destruct (upload file) as [url|].
    + destruct (String.eqb (f_type file) "application/pdf").
      * destruct (readPdf file) as [pages|].
        -- apply Hstart. reflexivity.
        -- eexists. split; [|right; left; reflexivity]. reflexivity.
      * apply Hstart. reflexivity.
    + eexists. split; [|right; left; reflexivity]. reflexivity.
  - apply (Hstart _ _ []). reflexivity.
Qed.

Lemma split_before {A : Type} (x : A) (l2 post : list A) :
  ~ In x l2 ->
  forall l1 pre : list A,
    (l1 ++ l2 = pre ++ x :: post)%list ->
    exists post', l1 = (pre ++ x :: post')%list.
Proof.
  intros Hno l1 pre. revert l1.
  induction pre as [|p pre IH]; intros [|h l1] E; cbn in E.
  - exfalso. apply Hno. rewrite E. now left.
  - injection E as -> _. now exists l1.
  - exfalso. apply Hno. rewrite E. right. apply in_elt.
  - injection E as -> E. destruct (IH _ E) as [post' ->]. now exists post'.
Qed.

(** The effects of [generateAndSave] follow those already performed, and
    the PDF reader is not among them. *)
Lemma generateAndSave_trace (syntaxErrorMessage : string -> string)
  (sendMessage : nat -> Reply) (storeAccepts : bool)
  (initialData : option Interview) (uid : string)
  (data : FormData) (resumeUrl resumeText : string) (fx total : list Effect) :
  generateAndSave syntaxErrorMessage sendMessage storeAccepts initialData uid
    data resumeUrl resumeText fx = Done total ->
  exists rest,
    total = (fx ++ rest)%list /\ forall file, ~ In (ReadPdf file) rest.
Proof.
  unfold generateAndSave.
  destruct (generateQuestions syntaxErrorMessage sendMessage)
    as [completion events].
  assert (Hai : forall file tail,
             ~ In (ReadPdf file) tail ->
             ~ In (ReadPdf file)
                 ([ToastPlain "Generating questions..."; Generate resumeText]
                    ++ map Ai events ++ tail)%list).
  { intros file tail Htail Hin. cbn [app] in Hin.
    destruct Hin as [E|[E|Hin]]; try discriminate E.
    apply in_app_or in Hin as [Hin|Hin]; [|now apply Htail].
    apply in_map_iff in Hin as (ev & E & _). discriminate E. }
  unfold failed.
  destruct completion as [v| |e|]; [| | |discriminate];
    destruct storeAccepts; intros H; injection H as <-;
    rewrite <- ?app_assoc; cbn [app];
    eexists; (split; [reflexivity|]); intros file;
    apply (Hai file); destruct initialData; intros Hin; cbn in Hin;
    repeat (destruct Hin as [E|Hin]; [discriminate E|]); destruct Hin.
Qed.

Ltac in_cases H :=
  cbn in H; repeat (destruct H as [H|H]; [try discriminate H|]);
  try (destruct H; fail).

(** The places of an effect in a list that is written out. *)
Ltac split_cases E pre :=
  cbn in E;
  repeat (destruct pre as [|? pre]; cbn in E;
          [try discriminate E
          |first [discriminate E | injection E as ? E]]).

(** The résumé text handed to the question request is never longer than
    4000 characters, and it is empty unless the file given is a PDF that
    could be read; the PDF reader is used on PDF files only, and only
    after their upload: whenever the reader is called on a file, that
    file is a PDF, its upload is among the effects before the call and
    has returned a URL, and the question request is not yet made. *)
Theorem onSubmit_resume_text :
  forall (syntaxErrorMessage : string -> string)
         (sendMessage : nat -> Reply)
         (uploadResumeToCloudinary : File -> option string)
         (readPdf : File -> option (list (list Item)))
         (storeAccepts : bool) (initialData : option Interview)
         (userId : option string) (data : FormData) (fx : list Effect),
    onSubmit syntaxErrorMessage sendMessage uploadResumeToCloudinary readPdf
      storeAccepts initialData userId data = Done fx ->
    (forall text,
        In (Generate text) fx ->
        (JS.len text <= 4000)%Z
        /\ (text <> "" ->
            exists file pages,
              firstFile data = Some file
              /\ f_type file = "application/pdf"
              /\ readPdf file = Some pages
              /\ text = extractTextFromPDF pages))
    /\ (forall file,
           In (ReadPdf file) fx ->
           f_type file = "application/pdf" /\ In (Upload file) fx)
    /\ (forall pre file post,
           fx = (pre ++ ReadPdf file :: post)%list ->
           In (Upload file) pre
           /\ (exists url, uploadResumeToCloudinary file = Some url)
           /\ forall text, ~ In (Generate text) pre).
Proof.
  intros msg send upload readPdf accepts init userId data fx.
  unfold onSubmit.
  destruct userId as [[|c uid]|].
  1,3: intros H; injection H as <-; split;
    [intros t [E|[]]; discriminate E
    |split; [intros f [E|[]]; discriminate E
            |intros pre f post E; split_cases E pre]].
  assert (Hbound : forall pages, (JS.len (extractTextFromPDF pages) <= 4000)%Z).
  { intros pages.
    rewrite (proj1 (extractTextFromPDF_bounded_lemma pages)). lia. }
  destruct (firstFile data) as [file|] eqn:Hfile.
  - destruct (upload file) as [url|] eqn:Hup.
    + destruct (String.eqb_spec (f_type file) "application/pdf") as [Hpdf|Hpdf].
      * destruct (readPdf file) as [pages|] eqn:Hread.
        -- intros Hout.
           pose proof (fun Hq => generateAndSave_quiet msg send accepts init _ data
                         _ _ _ fx Hq Hout) as Hquiet.
           destruct (Hquiet eq_refl) as [Hmono Horigin].
           split; [|split].
           ++ intros t Ht. destruct (Horigin _ Ht eq_refl)
                as [Hin|[E|[E|[ev E]]]]; try discriminate E.
              ** cbn in Hin.
                 repeat (destruct Hin as [E|Hin]; [discriminate E|]).
                 destruct Hin.
              ** injection E as ->. split; [apply Hbound|]. eauto 6.
           ++ intros f Hf. destruct (Horigin _ Hf eq_refl)
                as [Hin|[E|[E|[ev E]]]]; try discriminate E.
              cbn in Hin.
              repeat (destruct Hin as [E|Hin]; [try discriminate E|]);
                [|destruct Hin].
              injection E as <-. split; [exact Hpdf|].
              apply Hmono. cbn. auto.
           ++ intros pre f post E.
              destruct (generateAndSave_trace _ _ _ _ _ _ _ _ _ _ Hout)
                as (rest & Htotal & Hno).
              rewrite Htotal in E.
              destruct (split_before _ _ _ (Hno f) _ _ E) as [post' E'].
              split_cases E' pre. injection E' as <-. subst.
              split; [cbn; auto|]. split; [eauto|].
              intros t Ht. in_cases Ht.
        -- intros H; injection H as <-. split; [|split].
           ++ intros t Ht. cbn in Ht.
              repeat (destruct Ht as [E|Ht]; [discriminate E|]). destruct Ht.
           ++ intros f Hf. cbn in Hf.
              repeat (destruct Hf as [E|Hf]; [try discriminate E|]);
                [|destruct Hf].
              injection E as <-. split; [exact Hpdf|]. cbn. auto.
           ++ intros pre f post E. split_cases E pre.
              injection E as <-. subst.
              split; [cbn; auto|]. split; [eauto|].
              intros t Ht. in_cases Ht.
      * intros Hout.
        pose proof (fun Hq => generateAndSave_quiet msg send accepts init _ data
                      _ _ _ fx Hq Hout) as Hquiet.
        destruct (Hquiet eq_refl) as [Hmono Horigin].
        split; [|split].
        -- intros t Ht. destruct (Horigin _ Ht eq_refl)
             as [Hin|[E|[E|[ev E]]]]; try discriminate E.
           ++ cbn in Hin.
              repeat (destruct Hin as [E|Hin]; [discriminate E|]).
              destruct Hin.
           ++ injection E as ->. split; [cbn; lia|congruence].
        -- intros f Hf. destruct (Horigin _ Hf eq_refl)
             as [Hin|[E|[E|[ev E]]]]; try discriminate E.
           cbn in Hin.
           repeat (destruct Hin as [E|Hin]; [discriminate E|]). destruct Hin.
        -- intros pre f post E.
           destruct (generateAndSave_trace _ _ _ _ _ _ _ _ _ _ Hout)
             as (rest & Htotal & Hno).
           rewrite Htotal in E.
           destruct (split_before _ _ _ (Hno f) _ _ E) as [post' E'].
           split_cases E' pre.
    + intros H; injection H as <-. split; [|split].
      * intros t Ht. cbn in Ht.
        repeat (destruct Ht as [E|Ht]; [discriminate E|]). destruct Ht.
      * intros f Hf. cbn in Hf.
        repeat (destruct Hf as [E|Hf]; [discriminate E|]). destruct Hf.
      * intros pre f post E. split_cases E pre.
  - intros Hout.
    pose proof (fun Hq => generateAndSave_quiet msg send accepts init _ data
                  _ _ _ fx Hq Hout) as Hquiet.
    destruct (Hquiet eq_refl) as [Hmono Horigin].
    split; [|split].
    + intros t Ht. destruct (Horigin _ Ht eq_refl)
        as [Hin|[E|[E|[ev E]]]]; try discriminate E.
      * cbn in Hin.
        repeat (destruct Hin as [E|Hin]; [discriminate E|]). destruct Hin.
      * injection E as ->. split; [cbn; lia|congruence].
    + intros f Hf. destruct (Horigin _ Hf eq_refl)
        as [Hin|[E|[E|[ev E]]]]; try discriminate E.
      cbn in Hin.
      repeat (destruct Hin as [E|Hin]; [discriminate E|]). destruct Hin.
    + intros pre f post E.
      destruct (generateAndSave_trace _ _ _ _ _ _ _ _ _ _ Hout)
        as (rest & Htotal & Hno).
      rewrite Htotal in E.
      destruct (split_before _ _ _ (Hno f) _ _ E) as [post' E'].
      split_cases E' pre.
Qed.

Lemma onSubmit_resume_text_witness :
  (JS.len (extractTextFromPDF SampleSubmit.pages) <= 4000)%Z
  /\ In (Upload SampleSubmit.resumeFile)
       [SetLoading true; ToastPlain "Uploading resume...";
        Upload SampleSubmit.resumeFile; ToastPlain "Analyzing resume..."].
Proof.
  let r := eval vm_compute in (SampleSubmit.submitted true) in
  match r with
  | Done ?fx =>
      assert (E : SampleSubmit.submitted true = Done fx)
        by (vm_compute; reflexivity);
      pose proof (onSubmit_resume_text _ _ _ _ _ _ _ _ fx E) as (H1 & _ & H3)
  end.
  split.
  - apply (H1 (extractTextFromPDF SampleSubmit.pages)).
    vm_compute. auto 10.
  - eapply (H3 _ SampleSubmit.resumeFile). vm_compute. reflexivity.
Defined.

End SubmitFacts.
